(** * skrl: trainer scoping, agent lifecycle, DDPG and SARSA update engines,
      multivariate Gaussian mixin

    A shallow embedding of
      - skrl/trainers/torch/base.py
      - skrl/agents/torch/ddpg/ddpg.py
      - skrl/agents/torch/sarsa/sarsa.py
      - skrl/models/torch/multivariate_gaussian.py

    Conventions.
      - Python integers are [Z]; [len] of a list is [Z.of_nat (length l)].
      - Tensor entries are exact rationals [Q]: the arithmetic of the
        source is read over the rationals, so [/] is exact division and
        [int(...)] truncates toward zero.  Equalities between computed
        numbers are stated with [==] ([Qeq]).
      - A raised exception is the [Raise] branch of [result]; the state
        of the raising object is not observed afterwards.
      - Collaborators whose code is not part of these files (the [Agent]
        base class, memories, networks, optimizers, the environment) are
        fields of records or section variables. *)

From Stdlib Require Import ZArith QArith Qminmax Lia Lqa List SpecFloat.
From stdpp Require Import gmap strings list.

Local Open Scope Z_scope.

(** ** Exceptions and results *)

(** The messages of the [ValueError]s raised by the trainer, with the two
    numbers each message is formatted with. *)
Inductive message :=
| AgentsGreaterThanEnvs (num_agents num_envs : Z)
| AgentsDontMatchScopes (num_agents num_scopes : Z)
| ScopesDontCoverEnvs (scopes_sum num_envs : Z)
| ListOfAgentsExpected.

Inductive exception :=
| ValueError (msg : message)
| ZeroDivisionError
| IndexError
| KeyError (key : string)
| AttributeError
| TypeError
| RuntimeError
| AssertionError.

Inductive result (A : Type) :=
| Ok (a : A)
| Raise (e : exception).
Arguments Ok {A} a.
Arguments Raise {A} e.

#[global] Instance result_ret : MRet result := fun _ a => Ok a.
#[global] Instance result_bind : MBind result := fun _ _ f m =>
  match m with
  | Ok a => f a
  | Raise e => Raise e
  end.

Definition is_Ok {A} (r : result A) : Prop := exists a, r = Ok a.
Definition raises {A} (r : result A) : Prop := exists e, r = Raise e.

(** The empty string: the default of every [role] argument. *)
Abbreviation default_role := EmptyString.

(** [d[key]] on a dict: [KeyError] when the key is absent. *)
Definition subscript {V} (d : gmap string V) (key : string) : result V :=
  match d !! key with
  | Some v => Ok v
  | None => Raise (KeyError key)
  end.

(** ** Python integers, lists and numbers *)

Definition len {A} (l : list A) : Z := Z.of_nat (length l).

(** [sum(l)] on a list of integers. *)
Definition sum (l : list Z) : Z := foldr Z.add 0 l.

(** [int(q)]: truncation toward zero. *)
Definition int (q : Q) : Z := Z.quot (Qnum q) (Zpos (Qden q)).

(** [a / b] on integers: true division, exact here.  (Python rounds the
    quotient to a double; for operands below 2^53, as numbers of
    environments and of timesteps are, [int] of the rounded quotient is
    [int] of the exact one.) *)
Definition true_div (a b : Z) : result Q :=
  if decide (b = 0) then Raise ZeroDivisionError
  else Ok (inject_Z a / inject_Z b)%Q.

(** [[x] * n]: the empty list when [n <= 0]. *)
Definition list_mul {A} (x : A) (n : Z) : list A := replicate (Z.to_nat n) x.

(** [l[-1] += d]: [IndexError] on the empty list. *)
Fixpoint add_to_last (l : list Z) (d : Z) : result (list Z) :=
  match l with
  | [] => Raise IndexError
  | [x] => Ok [x + d]
  | x :: rest => rest' ← add_to_last rest d; Ok (x :: rest')
  end.

(** [range(lo, hi)] *)
Definition range (lo hi : Z) : list Z :=
  map (fun i => lo + Z.of_nat i) (seq 0 (Z.to_nat (hi - lo))).

(** ** Trainer: scopes (skrl/trainers/torch/base.py) *)

Module Trainer.

(** [generate_equally_spaced_scopes(num_envs, num_agents)] *)
Definition generate_equally_spaced_scopes (num_envs num_agents : Z)
  : result (list Z) :=
  q ← true_div num_envs num_agents;
  let scopes := list_mul (int q) num_agents in
  if decide (sum scopes ≠ 0)
  then add_to_last scopes (num_envs - sum scopes)
  else Raise (ValueError (AgentsGreaterThanEnvs num_agents num_envs)).

(** The [agents] argument: a bare agent, or a tuple or list of agents. *)
Inductive agents_arg (Agent : Type) :=
| BareAgent (a : Agent)
| AgentList (l : list Agent).
Arguments BareAgent {Agent} a.
Arguments AgentList {Agent} l.

(** An element of [agents_scope]: the integer size it is given as, or the
    tuple [(lo, hi)] it is replaced with. *)
Inductive scope_entry :=
| Size (n : Z)
| Range (lo hi : Z).

(** The loop
[[
    index = 0
    for i in range(len(self.agents_scope)):
        index += self.agents_scope[i]
        self.agents_scope[i] = (index - self.agents_scope[i], index)
]]
    started with [index]; every element is read before it is
    overwritten. *)
Fixpoint generate_agents_scopes (index : Z) (agents_scope : list Z)
  : list scope_entry :=
  match agents_scope with
  | [] => []
  | s :: rest =>
      let index := index + s in
      Range (index - s) index :: generate_agents_scopes index rest
  end.

(** The environment wrapper, as far as the constructor reads it. *)
Record Wrapper := { num_envs : Z }.

(** [cfg]: the two keys the trainer reads with [cfg.get]. *)
Record Cfg := {
  cfg_timesteps : option Z;
  cfg_headless : option bool
}.

Record t (Agent : Type) := {
  env : Wrapper;
  agents : agents_arg Agent;
  agents_scope : list scope_entry;
  num_agents : Z;
  timesteps : Z;
  headless : bool;
  initial_timestep : Z
}.
Arguments env {Agent} _.
Arguments agents {Agent} _.
Arguments agents_scope {Agent} _.
Arguments num_agents {Agent} _.
Arguments timesteps {Agent} _.
Arguments headless {Agent} _.
Arguments initial_timestep {Agent} _.

(** [Trainer._setup_agents], on a trainer whose fields hold the
    constructor's arguments: the new [agents], [agents_scope] and
    [num_agents].  [agents_scope] is a list of integers, as annotated. *)
Definition _setup_agents {Agent} (env : Wrapper) (agents : agents_arg Agent)
    (agents_scope : list Z)
  : result (agents_arg Agent * list scope_entry * Z) :=
  match agents with
  | AgentList l =>
      match l with
      | [a] =>
          (* single agent: len(self.agents) == 1 *)
          Ok (BareAgent a, [Size 1], 1)
      | _ :: _ :: _ =>
          (* parallel agents: len(self.agents) > 1 *)
          sizes ←
            (if decide (len agents_scope = 0) then
               let scopes := list_mul (int (inject_Z (num_envs env)
                                            / inject_Z (len l))%Q) (len l) in
               if decide (sum scopes ≠ 0)
               then add_to_last scopes (num_envs env - sum scopes)
               else Raise (ValueError
                             (AgentsGreaterThanEnvs (len l) (num_envs env)))
             else if decide (len agents_scope ≠ len l) then
               Raise (ValueError
                        (AgentsDontMatchScopes (len l) (len agents_scope)))
             else if decide (sum agents_scope ≠ num_envs env) then
               Raise (ValueError
                        (ScopesDontCoverEnvs (sum agents_scope) (num_envs env)))
             else Ok agents_scope);
          Ok (AgentList l, generate_agents_scopes 0 sizes, len l)
      | [] => Raise (ValueError ListOfAgentsExpected)
      end
  | BareAgent a => Ok (BareAgent a, Size <$> agents_scope, 1)
  end.

(** [Trainer.__init__] *)
Definition __init__ {Agent} (env : Wrapper) (agents : agents_arg Agent)
    (agents_scope : list Z) (cfg : Cfg) : result (t Agent) :=
  let timesteps := default 0 (cfg_timesteps cfg) in
  let headless := default false (cfg_headless cfg) in
  '(agents, agents_scope, num_agents) ← _setup_agents env agents agents_scope;
  Ok {| env := env; agents := agents; agents_scope := agents_scope;
        num_agents := num_agents; timesteps := timesteps;
        headless := headless; initial_timestep := 0 |}.

(** The lines of [Trainer.__str__] under "Agents and scopes": for every
    agent the number of environments of its scope and, with several
    agents, the bounds printed as [(lo:hi)]. *)
Inductive scope_line :=
| ScopeOf (count lo hi : Z)
| ScopeAll (count : Z).

Definition scope_lines {Agent} (tr : t Agent) : result (list scope_line) :=
  if decide (num_agents tr > 1) then
    match agents tr with
    | AgentList l =>
        mapM (fun '(_, scope) =>
                match scope with
                | Range lo hi => Ok (ScopeOf (hi - lo) lo hi)
                | Size _ => Raise TypeError
                end) (zip l (agents_scope tr))
    | BareAgent _ => Raise TypeError
    end
  else Ok [ScopeAll (num_envs (env tr))].

(** The number of environments of a scope, as [__str__] prints it:
    [scope[1] - scope[0]]. *)
Definition scope_size (e : scope_entry) : Z :=
  match e with
  | Range lo hi => hi - lo
  | Size n => n
  end.

(** [k] is one of the environments of the scope [e]. *)
Definition in_scope (k : Z) (e : scope_entry) : Prop :=
  match e with
  | Range lo hi => lo <= k < hi
  | Size _ => False
  end.

(** The scopes partition [[0, n)]: every index below [n] lies in exactly
    one scope, and no scope holds anything else. *)
Definition partitions (scopes : list scope_entry) (n : Z) : Prop :=
  (forall k, 0 <= k < n ->
     exists i e, scopes !! i = Some e /\ in_scope k e /\
       forall j e', scopes !! j = Some e' -> in_scope k e' -> j = i) /\
  (forall k (i : nat) e, scopes !! i = Some e -> in_scope k e -> 0 <= k < n).

(** *** The single-agent loops *)

Section SingleAgent.
Context {Obs Action Info EnvState AgentState : Type}.

(** The keyword arguments of [record_transition]; every tensor has one
    row per environment. *)
Record Transition := {
  states : list Obs;
  actions : list Action;
  rewards : list Q;
  next_states : list Obs;
  dones : list bool;
  infos : Info
}.

(** The methods of the environment wrapper that the loops call, as
    functions of the state of the environment. *)
Record WrapperMethods := {
  reset : EnvState -> EnvState * list Obs;
  step : EnvState -> list Action
         -> EnvState * (list Obs * list Q * list bool * Info);
  render : EnvState -> EnvState;
  close : EnvState -> EnvState
}.

(** The four methods of an agent class, as functions of the state of the
    agent. *)
Record AgentClass := {
  pre_interaction : AgentState -> Z -> Z -> result AgentState;
  act : AgentState -> list Obs -> Z -> Z
        -> result (AgentState * list Action);
  record_transition : AgentState -> Transition -> Z -> Z
                      -> result AgentState;
  post_interaction : AgentState -> Z -> Z -> result AgentState
}.

(** The two methods that the loops call on the parent class of the
    class of the agent. *)
Record ParentClass := {
  parent_record_transition : AgentState -> Transition -> Z -> Z
                             -> result AgentState;
  parent_post_interaction : AgentState -> Z -> Z -> result AgentState
}.

(** An agent object: its state, [type(agent)] and the parent class that
    [super(type(agent), agent)] resolves to. *)
Record Agent := {
  self : AgentState;
  class : AgentClass;
  super : ParentClass
}.

(** Which class a method call is sent to: [agent.m(...)] or
    [super(type(agent), agent).m(...)]. *)
Inductive dispatch := Own | Super.

(** The calls of a loop, in the order they are made. *)
Inductive call :=
| env_reset
| env_step (actions : list Action)
| env_render
| env_close
| states_copy
| agent_pre_interaction (timestep timesteps : Z)
| agent_act (states : list Obs) (timestep timesteps : Z)
| agent_record_transition (d : dispatch) (tr : Transition)
    (timestep timesteps : Z)
| agent_post_interaction (d : dispatch) (timestep timesteps : Z).

(** The variables of a running loop and the calls made so far. *)
Record Run := {
  run_env : EnvState;
  run_agent : AgentState;
  run_states : list Obs;
  run_calls : list call
}.

(** [dones.any()] *)
Definition any (dones : list bool) : bool := existsb id dones.

(** The end of both loop bodies:
[[
    if dones.any():
        states = self.env.reset()
    else:
        states.copy_(next_states)
]] *)
Definition reset_environments (m : WrapperMethods) (e : EnvState)
    (a : AgentState) (next_states : list Obs) (dones : list bool)
    (calls : list call) : Run :=
  if any dones then
    let '(e, states) := reset m e in
    {| run_env := e; run_agent := a; run_states := states;
       run_calls := calls ++ [env_reset] |}
  else
    {| run_env := e; run_agent := a; run_states := next_states;
       run_calls := calls ++ [states_copy] |}.

(** The body of the loop of [single_agent_train]. *)
Definition train_step (m : WrapperMethods) (ag : Agent) (headless : bool)
    (timesteps : Z) (r : Run) (timestep : Z) : result Run :=
  let e := run_env r in
  let states := run_states r in
  let calls := run_calls r in
  (* pre-interaction *)
  a ← pre_interaction (class ag) (run_agent r) timestep timesteps;
  let calls := calls ++ [agent_pre_interaction timestep timesteps] in
  (* compute actions *)
  '(a, actions) ← act (class ag) a states timestep timesteps;
  let calls := calls ++ [agent_act states timestep timesteps] in
  (* step the environments *)
  let '(e, (next_states, rewards, dones, infos)) := step m e actions in
  let calls := calls ++ [env_step actions] in
  (* render scene *)
  let '(e, calls) :=
    if negb headless then (render m e, calls ++ [env_render])
    else (e, calls) in
  (* record the environments' transitions *)
  let tr := {| states := states; actions := actions; rewards := rewards;
               next_states := next_states; dones := dones;
               infos := infos |} in
  a ← record_transition (class ag) a tr timestep timesteps;
  let calls := calls ++ [agent_record_transition Own tr timestep timesteps] in
  (* post-interaction *)
  a ← post_interaction (class ag) a timestep timesteps;
  let calls := calls ++ [agent_post_interaction Own timestep timesteps] in
  (* reset environments *)
  Ok (reset_environments m e a next_states dones calls).

(** The body of the loop of [single_agent_eval]. *)
Definition eval_step (m : WrapperMethods) (ag : Agent) (headless : bool)
    (timesteps : Z) (r : Run) (timestep : Z) : result Run :=
  let e := run_env r in
  let states := run_states r in
  let calls := run_calls r in
  (* compute actions *)
  '(a, actions) ← act (class ag) (run_agent r) states timestep timesteps;
  let calls := calls ++ [agent_act states timestep timesteps] in
  (* step the environments *)
  let '(e, (next_states, rewards, dones, infos)) := step m e actions in
  let calls := calls ++ [env_step actions] in
  (* render scene *)
  let '(e, calls) :=
    if negb headless then (render m e, calls ++ [env_render])
    else (e, calls) in
  (* write data to TensorBoard *)
  let tr := {| states := states; actions := actions; rewards := rewards;
               next_states := next_states; dones := dones;
               infos := infos |} in
  a ← parent_record_transition (super ag) a tr timestep timesteps;
  let calls :=
    calls ++ [agent_record_transition Super tr timestep timesteps] in
  a ← parent_post_interaction (super ag) a timestep timesteps;
  let calls := calls ++ [agent_post_interaction Super timestep timesteps] in
  (* reset environments *)
  Ok (reset_environments m e a next_states dones calls).

(** [for timestep in range(...): body] *)
Fixpoint for_each (body : Run -> Z -> result Run) (r : Run)
    (timesteps : list Z) : result Run :=
  match timesteps with
  | [] => Ok r
  | timestep :: rest => r ← body r timestep; for_each body r rest
  end.

(** A whole loop around [body]: the assertion, the reset before the
    loop and the closing of the environment after it. *)
Definition single_agent_loop
    (body : WrapperMethods -> Agent -> bool -> Z -> Run -> Z -> result Run)
    (tr : t Agent) (m : WrapperMethods) (e : EnvState) : result Run :=
  if decide (num_agents tr = 1) then
    match agents tr with
    | BareAgent ag =>
        (* reset env *)
        let '(e, states) := reset m e in
        let r := {| run_env := e; run_agent := self ag;
                    run_states := states; run_calls := [env_reset] |} in
        r ← for_each (body m ag (headless tr) (timesteps tr)) r
              (range (initial_timestep tr) (timesteps tr));
        (* close the environment *)
        Ok {| run_env := close m (run_env r); run_agent := run_agent r;
              run_states := run_states r;
              run_calls := run_calls r ++ [env_close] |}
    | AgentList _ => Raise AttributeError
    end
  else Raise AssertionError.

(** [Trainer.single_agent_train] *)
Definition single_agent_train := single_agent_loop train_step.

(** [Trainer.single_agent_eval] *)
Definition single_agent_eval := single_agent_loop eval_step.

(** The phase of the lifecycle that a call belongs to. *)
Inductive phase :=
| PreInteraction
| Act
| EnvironmentStep
| Render
| RecordTransition (d : dispatch)
| PostInteraction (d : dispatch)
| ResetOrCopy
| Close.

Definition phase_of (c : call) : phase :=
  match c with
  | env_reset | states_copy => ResetOrCopy
  | env_step _ => EnvironmentStep
  | env_render => Render
  | env_close => Close
  | agent_pre_interaction _ _ => PreInteraction
  | agent_act _ _ _ => Act
  | agent_record_transition d _ _ _ => RecordTransition d
  | agent_post_interaction d _ _ => PostInteraction d
  end.

(** The phases of a step of a loop after [pre_interaction], with
    [record_transition] and [post_interaction] sent to [d]. *)
Definition step_phases (headless : bool) (d : dispatch) : list phase :=
  [Act; EnvironmentStep] ++ (if negb headless then [Render] else [])
  ++ [RecordTransition d; PostInteraction d; ResetOrCopy].

(** The agent is handed every row of the batch of an environment with
    [n] instances: the states it acts on and the transition it records
    have [n] rows. *)
Definition whole_batch (n : Z) (c : call) : Prop :=
  match c with
  | agent_act states _ _ => len states = n
  | agent_record_transition _ tr _ _ =>
      len (states tr) = n /\ len (next_states tr) = n
  | _ => True
  end.

(** The environment returns one row per instance. *)
Definition batched (n : Z) (m : WrapperMethods) : Prop :=
  (forall e, len (reset m e).2 = n) /\
  (forall e actions, len (step m e actions).2.1.1.1 = n).

(** The eval step as the specification words it: the lifecycle of the
    train step, with [post_interaction] sent to the parent class. *)
Definition bypass_post_interaction (p : phase) : phase :=
  match p with
  | PostInteraction _ => PostInteraction Super
  | _ => p
  end.

(** What the eval step does to the lifecycle of the train step: no
    [pre_interaction], and both [record_transition] and
    [post_interaction] sent to the parent class. *)
Definition is_pre_interaction (p : phase) : bool :=
  match p with
  | PreInteraction => true
  | _ => false
  end.

Definition to_parent (p : phase) : phase :=
  match p with
  | RecordTransition _ => RecordTransition Super
  | PostInteraction _ => PostInteraction Super
  | _ => p
  end.

(** A call that reaches the class of the agent itself and can change
    what it has learned: [pre_interaction], or [record_transition] and
    [post_interaction] of its own class. *)
Definition is_own_call (c : call) : bool :=
  match c with
  | agent_pre_interaction _ _ => true
  | agent_record_transition Own _ _ _ => true
  | agent_post_interaction Own _ _ => true
  | _ => false
  end.

End SingleAgent.

Arguments Transition : clear implicits.
Arguments WrapperMethods : clear implicits.
Arguments AgentClass : clear implicits.
Arguments ParentClass : clear implicits.
Arguments Agent : clear implicits.
Arguments call : clear implicits.
Arguments Run : clear implicits.

End Trainer.

(** ** Tensors *)

(** [torch.max(t).item()], [torch.min(t).item()] and [torch.mean(t).item()]
    on the entries of a tensor.  The first two raise on a tensor without
    entries.  The third gives [nan] there; every tensor that the agents
    take the mean of also goes through [torch.max] in the same call,
    which raises all the same, so the mean of no entries is made to
    raise as well. *)
Definition tensor_max (entries : list Q) : result Q :=
  match entries with
  | [] => Raise RuntimeError
  | x :: rest => Ok (foldl Qmax x rest)
  end.

Definition tensor_min (entries : list Q) : result Q :=
  match entries with
  | [] => Raise RuntimeError
  | x :: rest => Ok (foldl Qmin x rest)
  end.

Definition tensor_mean (entries : list Q) : result Q :=
  match entries with
  | [] => Raise RuntimeError
  | _ => Ok (foldr Qplus 0 entries / inject_Z (len entries))%Q
  end.

(** A boolean entry in arithmetic: [True] is 1 and [False] is 0. *)
Definition Q_of_bool (b : bool) : Q := if b then 1%Q else 0%Q.

(** [F.mse_loss(input, target)] on two columns. *)
Definition mse_loss (input target : list Q) : result Q :=
  tensor_mean (zip_with (fun x y => (x - y) * (x - y))%Q input target).

(** ** Floating-point entries

    The entries of a tensor as IEEE 754 numbers of the binary format
    with [prec] bits of precision and exponents below [emax] (24 and 128
    for [torch.float32], the default type of a tensor), for what the
    exact numbers above leave out: the infinities and nan. *)

Module IEEE.

Section Format.
Variables prec emax : Z.

(** A boolean entry in arithmetic: [True] is 1.0 and [False] is 0.0. *)
Definition of_bool (b : bool) : spec_float :=
  if b then binary_normalize prec emax 1 0 false else S754_zero false.

(** The target values of [DDPG._update] in this arithmetic,
[[
    sampled_rewards + self._discount_factor * sampled_dones.logical_not() \
        * target_q_values
]]
    row by row, the products taken from left to right. *)
Definition target_values (discount_factor : spec_float)
    (sampled_rewards : list spec_float) (sampled_dones : list bool)
    (target_q_values : list spec_float) : list spec_float :=
  zip_with (SFadd prec emax) sampled_rewards
    (zip_with (SFmul prec emax)
       (map (fun d => SFmul prec emax discount_factor (of_bool (negb d)))
            sampled_dones)
       target_q_values).

End Format.

(** Neither an infinity nor nan. *)
Definition finite (x : spec_float) : bool :=
  match x with
  | S754_zero _ | S754_finite _ _ _ => true
  | S754_infinity _ | S754_nan => false
  end.

(** [m * 2^e] in [torch.float32]. *)
Definition float32 (m e : Z) : spec_float := binary_normalize 24 128 m e false.

End IEEE.

(** ** The agent base class

    [skrl.agents.torch.Agent] is not among these files.  A call to one of
    its methods, or to a collaborator that an agent holds (memory,
    optimizers, target networks, schedulers), is recorded as an effect in
    the log of the agent. *)

Module AgentBase.

Inductive network := policy | target_policy | critic | target_critic.

(** Modelled from the spec: the methods [track_data],
    [record_transition] and [post_interaction] of the base class
    [skrl.agents.torch.Agent], whose file is missing.  The first keeps a
    value under a name for the next write; the second tracks the
    transition for the metrics; the third is the periodic flush of the
    tracked metrics and the writing of checkpoints.  Each call is one
    effect, as is each call that changes a memory, an optimizer, a
    target network, a scheduler or the Q-table. *)
Inductive effect :=
| track_data (name : string) (value : Q)
| record_transition (timestep timesteps : Z)
| post_interaction (timestep timesteps : Z)
| memory_sample (batch_size : Z)
| memory_add_samples
| optimizer_step (net : network)
| update_parameters (target : network) (polyak : Q)
| scheduler_step (net : network)
| table_update (rows : Z).

(** The effects of a gradient update and of a soft update of a target
    network. *)
Definition is_gradient_update (e : effect) : bool :=
  match e with
  | optimizer_step _ => true
  | _ => false
  end.

Definition is_soft_update (e : effect) : bool :=
  match e with
  | update_parameters _ _ => true
  | _ => false
  end.

Definition is_table_update (e : effect) : bool :=
  match e with
  | table_update _ => true
  | _ => false
  end.

End AgentBase.

(** ** DDPG (skrl/agents/torch/ddpg/ddpg.py) *)

Module DDPG.
Import AgentBase.

Section Agent.
(** A batch of observations, the parameters of the four networks with
    the state of their optimizers and schedulers, the memory, and the
    exploration noise. *)
Context {Obs Params Memory Noise Info : Type}.

(** A batch of actions: one row of [Q] per transition. *)
Local Abbreviation Actions := (list (list Q)).

(** [self.memory.sample(names=self.tensors_names, ...)[0]] *)
Record Batch := {
  sampled_states : Obs;
  sampled_actions : Actions;
  sampled_rewards : list Q;
  sampled_next_states : Obs;
  sampled_dones : list bool
}.

(** The collaborators of the agent. *)
Record Collaborators := {
  policy_act : Params -> Obs -> Actions;
  policy_random_act : Params -> Obs -> Actions;
  target_policy_act : Params -> Obs -> Actions;
  critic_act : Params -> Obs -> Actions -> list Q;
  target_critic_act : Params -> Obs -> Actions -> list Q;
  (* self._state_preprocessor(states, train=...) *)
  state_preprocessor : Obs -> bool -> Obs;
  (* self._exploration_noise.sample(shape) *)
  noise_sample : Noise -> nat * nat -> Noise * Actions;
  rewards_shaper : option (list Q -> Z -> Z -> list Q);
  sample : Memory -> Z -> Batch;
  add_samples : Memory -> Obs -> Actions -> list Q -> Obs -> list bool
                -> Memory;
  (* zero_grad(); critic_loss.backward(); step() with the loss
     F.mse_loss(critic(states, actions), target_values) *)
  critic_optimizer_step : Params -> Obs -> Actions -> list Q -> Params;
  (* zero_grad(); policy_loss.backward(); step() with the loss
     -critic(states, policy(states)).mean() *)
  policy_optimizer_step : Params -> Obs -> Params;
  (* target.update_parameters(online, polyak=...) *)
  update_target : network -> Params -> Q -> Params;
  (* scheduler.step() and scheduler.get_last_lr()[0] *)
  step_scheduler : network -> Params -> Params;
  last_lr : network -> Params -> Q
}.

(** The configuration read by [__init__] and the bounds set by [init]. *)
Record Config := {
  gradient_steps : Z;
  batch_size : Z;
  discount_factor : Q;
  polyak : Q;
  learning_rate_scheduler : bool;  (* is not None *)
  random_timesteps : Z;
  learning_starts : Z;
  exploration_initial_scale : Q;
  exploration_final_scale : Q;
  clip_actions_min : list Q;
  clip_actions_max : list Q;
  backward_compatibility : bool
}.

Record State := {
  params : Params;
  memory : option Memory;
  secondary_memories : list Memory;
  exploration_noise : option Noise;
  exploration_timesteps : option Z;
  log : list effect
}.

Definition tell (st : State) (es : list effect) : State :=
  {| params := params st; memory := memory st;
     secondary_memories := secondary_memories st;
     exploration_noise := exploration_noise st;
     exploration_timesteps := exploration_timesteps st;
     log := log st ++ es |}.

Variable c : Collaborators.
Variable cfg : Config.

(** [actions[0].shape] *)
Definition shape (actions : Actions) : nat * nat :=
  (length actions, length (default [] (head actions))).

(** [noises.mul_(scale)] *)
Definition mul_ (noises : Actions) (scale : Q) : Actions :=
  map (map (fun x => x * scale)%Q) noises.

(** [actions[0].add_(noises)] *)
Definition add_ (actions noises : Actions) : Actions :=
  zip_with (zip_with Qplus) actions noises.

(** The two ways of clipping to the bounds of the action space: the
    nested [torch.max(torch.min(...))] for torch < 1.9 and [clamp_]. *)
Definition clip (actions : Actions) : Actions :=
  if backward_compatibility cfg then
    map (fun row =>
           zip_with Qmax (zip_with Qmin row (clip_actions_max cfg))
                    (clip_actions_min cfg)) actions
  else
    map (fun row =>
           zip_with Qmin (zip_with Qmax row (clip_actions_min cfg))
                    (clip_actions_max cfg)) actions.

(** The scale of the noise at [timestep]:
[[
    (1 - timestep / self._exploration_timesteps) \
        * (self._exploration_initial_scale - self._exploration_final_scale) \
        + self._exploration_final_scale
]] *)
Definition exploration_scale (timestep exploration_timesteps : Z)
  : result Q :=
  d ← true_div timestep exploration_timesteps;
  Ok ((1 - d)
      * (exploration_initial_scale cfg - exploration_final_scale cfg)
      + exploration_final_scale cfg)%Q.

(** [DDPG.act]: the new state and the actions (the first component of
    the returned tuple). *)
Definition act (st : State) (states : Obs) (timestep timesteps : Z)
  : result (State * Actions) :=
  let states := state_preprocessor c states false in
  (* sample random actions *)
  if decide (timestep < random_timesteps cfg) then
    Ok (st, policy_random_act c (params st) states)
  else
    (* sample deterministic actions *)
    let actions := policy_act c (params st) states in
    (* add exploration noise *)
    match exploration_noise st with
    | Some noise =>
        (* sample noises *)
        let '(noise, noises) := noise_sample c noise (shape actions) in
        (* define exploration timesteps *)
        let exploration_timesteps :=
          default timesteps (exploration_timesteps st) in
        let st := {| params := params st; memory := memory st;
                     secondary_memories := secondary_memories st;
                     exploration_noise := Some noise;
                     exploration_timesteps := Some exploration_timesteps;
                     log := log st |} in
        (* apply exploration noise *)
        if decide (timestep <= exploration_timesteps) then
          scale ← exploration_scale timestep exploration_timesteps;
          let noises := mul_ noises scale in
          (* modify actions *)
          let actions := clip (add_ actions noises) in
          (* record noises *)
          noise_max ← tensor_max (concat noises);
          noise_min ← tensor_min (concat noises);
          noise_mean ← tensor_mean (concat noises);
          Ok (tell st
                [track_data "Exploration / Exploration noise (max)" noise_max;
                 track_data "Exploration / Exploration noise (min)" noise_min;
                 track_data "Exploration / Exploration noise (mean)"
                            noise_mean],
              actions)
        else
          (* record noises *)
          Ok (tell st
                [track_data "Exploration / Exploration noise (max)" 0;
                 track_data "Exploration / Exploration noise (min)" 0;
                 track_data "Exploration / Exploration noise (mean)" 0],
              actions)
    | None => Ok (st, actions)
    end.

(** [DDPG.record_transition] *)
Definition record_transition (st : State) (states : Obs) (actions : Actions)
    (rewards : list Q) (next_states : Obs) (dones : list bool)
    (infos : Info) (timestep timesteps : Z) : result State :=
  let st := tell st [AgentBase.record_transition timestep timesteps] in
  (* reward shaping *)
  let rewards :=
    match rewards_shaper c with
    | Some shaper => shaper rewards timestep timesteps
    | None => rewards
    end in
  match memory st with
  | Some m =>
      let store m := add_samples c m states actions rewards next_states dones in
      Ok (tell {| params := params st; memory := Some (store m);
                  secondary_memories := store <$> secondary_memories st;
                  exploration_noise := exploration_noise st;
                  exploration_timesteps := exploration_timesteps st;
                  log := log st |}
               (replicate (S (length (secondary_memories st)))
                          memory_add_samples))
  | None => Ok st
  end.

(** [DDPG.pre_interaction] *)
Definition pre_interaction (st : State) (timestep timesteps : Z)
  : result State := Ok st.

(** The target values of [_update]:
[[
    sampled_rewards + self._discount_factor * sampled_dones.logical_not() \
        * target_q_values
]]
    row by row on three columns. *)
Definition target_values (sampled_rewards : list Q)
    (sampled_dones : list bool) (target_q_values : list Q) : list Q :=
  zip_with Qplus sampled_rewards
    (zip_with Qmult
       (map (fun d => discount_factor cfg * Q_of_bool (negb d))%Q
            sampled_dones)
       target_q_values).

(** The variables that one gradient step hands to the next. *)
Record Vars := {
  vars_state : State;
  vars_states : Obs;
  vars_next_states : Obs
}.

(** The body of the loop over [range(self._gradient_steps)]. *)
Definition gradient_step_body (batch : Batch) (v : Vars)
    (gradient_step : Z) : result Vars :=
  let st := vars_state v in
  let sampled_states :=
    state_preprocessor c (vars_states v)
                       (bool_decide (gradient_step = 0)) in
  let sampled_next_states :=
    state_preprocessor c (vars_next_states v) false in
  (* compute target values *)
  let next_actions := target_policy_act c (params st) sampled_next_states in
  let target_q_values :=
    target_critic_act c (params st) sampled_next_states next_actions in
  let target_values :=
    target_values (sampled_rewards batch) (sampled_dones batch)
                  target_q_values in
  (* compute critic loss *)
  let critic_values :=
    critic_act c (params st) sampled_states (sampled_actions batch) in
  critic_loss ← mse_loss critic_values target_values;
  (* optimization step (critic) *)
  let p := critic_optimizer_step c (params st) sampled_states
             (sampled_actions batch) target_values in
  (* compute policy (actor) loss *)
  let actions := policy_act c p sampled_states in
  let critic_values := critic_act c p sampled_states actions in
  critic_mean ← tensor_mean critic_values;
  let policy_loss := (- critic_mean)%Q in
  (* optimization step (policy) *)
  let p := policy_optimizer_step c p sampled_states in
  (* update target networks *)
  let p := update_target c target_policy p (polyak cfg) in
  let p := update_target c target_critic p (polyak cfg) in
  (* update learning rate *)
  let p := if learning_rate_scheduler cfg
           then step_scheduler c critic (step_scheduler c policy p)
           else p in
  (* record data *)
  q_max ← tensor_max critic_values;
  q_min ← tensor_min critic_values;
  q_mean ← tensor_mean critic_values;
  t_max ← tensor_max target_values;
  t_min ← tensor_min target_values;
  t_mean ← tensor_mean target_values;
  let st :=
    tell {| params := p; memory := memory st;
            secondary_memories := secondary_memories st;
            exploration_noise := exploration_noise st;
            exploration_timesteps := exploration_timesteps st;
            log := log st |}
      ([optimizer_step critic; optimizer_step policy;
        update_parameters target_policy (polyak cfg);
        update_parameters target_critic (polyak cfg)]
       ++ (if learning_rate_scheduler cfg
           then [scheduler_step policy; scheduler_step critic] else [])
       ++ [track_data "Loss / Policy loss" policy_loss;
           track_data "Loss / Critic loss" critic_loss;
           track_data "Q-network / Q1 (max)" q_max;
           track_data "Q-network / Q1 (min)" q_min;
           track_data "Q-network / Q1 (mean)" q_mean;
           track_data "Target / Target (max)" t_max;
           track_data "Target / Target (min)" t_min;
           track_data "Target / Target (mean)" t_mean]
       ++ (if learning_rate_scheduler cfg
           then [track_data "Learning / Policy learning rate"
                            (last_lr c policy p);
                 track_data "Learning / Critic learning rate"
                            (last_lr c critic p)]
           else [])) in
  Ok {| vars_state := st; vars_states := sampled_states;
        vars_next_states := sampled_next_states |}.

Fixpoint gradient_steps_loop (batch : Batch) (v : Vars)
    (steps : list Z) : result Vars :=
  match steps with
  | [] => Ok v
  | gradient_step :: rest =>
      v ← gradient_step_body batch v gradient_step;
      gradient_steps_loop batch v rest
  end.

(** [DDPG._update] *)
Definition _update (st : State) (timestep timesteps : Z) : result State :=
  (* sample a batch from memory *)
  m ← from_option Ok (Raise AttributeError) (memory st);
  let batch := sample c m (batch_size cfg) in
  let st := tell st [memory_sample (batch_size cfg)] in
  (* gradient steps *)
  v ← gradient_steps_loop batch
        {| vars_state := st; vars_states := sampled_states batch;
           vars_next_states := sampled_next_states batch |}
        (range 0 (gradient_steps cfg));
  Ok (vars_state v).

(** [DDPG.post_interaction] *)
Definition post_interaction (st : State) (timestep timesteps : Z)
  : result State :=
  st ← (if decide (timestep >= learning_starts cfg)
        then _update st timestep timesteps
        else Ok st);
  (* write tracking data and checkpoints *)
  Ok (tell st [AgentBase.post_interaction timestep timesteps]).

(** The effects that every gradient step starts with: the two
    optimization steps and the two soft updates of the target networks. *)
Definition step_effects : list effect :=
  [optimizer_step critic; optimizer_step policy;
   update_parameters target_policy (polyak cfg);
   update_parameters target_critic (polyak cfg)].

End Agent.

Arguments Batch : clear implicits.
Arguments Collaborators : clear implicits.
Arguments State : clear implicits.

End DDPG.

(** ** SARSA (skrl/agents/torch/sarsa/sarsa.py) *)

Module SARSA.
Import AgentBase.

(** The Q-table of the policy: [table[e][s][a]]. *)
Abbreviation Table := (list (list (list Q))).

(** An index into a dimension of size [n]: a negative index counts from
    the end, an index outside [[-n, n)] raises. *)
Definition index (n : nat) (i : Z) : result nat :=
  if decide (0 <= i < Z.of_nat n) then Ok (Z.to_nat i)
  else if decide (- Z.of_nat n <= i < 0) then Ok (Z.to_nat (i + Z.of_nat n))
  else Raise IndexError.

(** The entry of the table that the indices [(e, s, a)] select. *)
Definition locate (table : Table) (idx : Z * Z * Z)
  : result (nat * nat * nat) :=
  let '(e, s, a) := idx in
  e ← index (length table) e;
  s ← index (length (default [] (table !! e))) s;
  a ← index (length (default [] (default [] (table !! e) !! s))) a;
  Ok (e, s, a).

Definition entry (table : Table) (pos : nat * nat * nat) : option Q :=
  let '(e, s, a) := pos in
  plane ← table !! e; row ← plane !! s; row !! a.

Definition put (table : Table) (pos : nat * nat * nat) (v : Q) : Table :=
  let '(e, s, a) := pos in
  alter (alter (fun row => <[a := v]> row) s) e table.

(** Three index columns side by side, one triple per row: the columns
    have the same number of rows. *)
Fixpoint rows (env_ids states actions : list Z)
  : result (list (Z * Z * Z)) :=
  match env_ids, states, actions with
  | [], [], [] => Ok []
  | e :: env_ids, s :: states, a :: actions =>
      rest ← rows env_ids states actions; Ok ((e, s, a) :: rest)
  | _, _, _ => Raise IndexError
  end.

(** [table[env_ids, states, actions]] read: the located positions and
    their entries. *)
Definition gather (table : Table) (env_ids states actions : list Z)
  : result (list (nat * nat * nat * Q)) :=
  idxs ← rows env_ids states actions;
  mapM (fun idx =>
          pos ← locate table idx;
          v ← from_option Ok (Raise IndexError) (entry table pos);
          Ok (pos, v)) idxs.

(** [table[env_ids, states, actions] = values] *)
Definition index_put (table : Table) (writes : list (nat * nat * nat * Q))
  : Table :=
  foldl (fun table '(pos, v) => put table pos v) table writes.

Section Agent.
Context {Memory Info : Type}.

Record Collaborators := {
  (* self.policy.act(states, taken_actions=None, role="policy")[0] and
     random_act, on the table of the policy *)
  policy_act : Table -> list Z -> list Z;
  policy_random_act : Table -> list Z -> list Z;
  rewards_shaper : option (list Q -> Z -> Z -> list Q);
  add_samples : Memory -> list Z -> list Z -> list Q -> list Z -> list bool
                -> Memory
}.

Record Config := {
  discount_factor : Q;
  random_timesteps : Z;
  learning_starts : Z;
  learning_rate : Q
}.

Record State := {
  q_table : Table;  (* self.policy.table() *)
  memory : option Memory;
  secondary_memories : list Memory;
  _current_states : option (list Z);
  _current_actions : option (list Z);
  _current_rewards : option (list Q);
  _current_next_states : option (list Z);
  _current_dones : option (list bool);
  log : list effect
}.

Definition tell (st : State) (es : list effect) : State :=
  {| q_table := q_table st; memory := memory st;
     secondary_memories := secondary_memories st;
     _current_states := _current_states st;
     _current_actions := _current_actions st;
     _current_rewards := _current_rewards st;
     _current_next_states := _current_next_states st;
     _current_dones := _current_dones st;
     log := log st ++ es |}.

Variable c : Collaborators.
Variable cfg : Config.

(** [SARSA.act] *)
Definition act (st : State) (states : list Z) (timestep timesteps : Z)
  : result (State * list Z) :=
  (* sample random actions *)
  if decide (timestep < random_timesteps cfg) then
    Ok (st, policy_random_act c (q_table st) states)
  else
    (* sample actions from policy *)
    Ok (st, policy_act c (q_table st) states).

(** [SARSA.record_transition] *)
Definition record_transition (st : State) (states actions : list Z)
    (rewards : list Q) (next_states : list Z) (dones : list bool)
    (infos : Info) (timestep timesteps : Z) : result State :=
  let st := tell st [AgentBase.record_transition timestep timesteps] in
  (* reward shaping *)
  let rewards :=
    match rewards_shaper c with
    | Some shaper => shaper rewards timestep timesteps
    | None => rewards
    end in
  let st := {| q_table := q_table st; memory := memory st;
               secondary_memories := secondary_memories st;
               _current_states := Some states;
               _current_actions := Some actions;
               _current_rewards := Some rewards;
               _current_next_states := Some next_states;
               _current_dones := Some dones;
               log := log st |} in
  match memory st with
  | Some m =>
      let store m := add_samples c m states actions rewards next_states dones in
      Ok (tell {| q_table := q_table st; memory := Some (store m);
                  secondary_memories := store <$> secondary_memories st;
                  _current_states := _current_states st;
                  _current_actions := _current_actions st;
                  _current_rewards := _current_rewards st;
                  _current_next_states := _current_next_states st;
                  _current_dones := _current_dones st;
                  log := log st |}
               (replicate (S (length (secondary_memories st)))
                          memory_add_samples))
  | None => Ok st
  end.

(** [SARSA.pre_interaction] *)
Definition pre_interaction (st : State) (timestep timesteps : Z)
  : result State := Ok st.

(** The new entry of a row of the update:
[[
    q + self._learning_rate * (r + self._discount_factor * not_done * q_next - q)
]] *)
Definition updated (q r : Q) (done : bool) (q_next : Q) : Q :=
  (q + learning_rate cfg
       * (r + discount_factor cfg * Q_of_bool (negb done) * q_next - q))%Q.

(** The right-hand columns of the update side by side: the current
    entries with their positions, the rewards, the dones and the next
    entries, row by row. *)
Fixpoint new_entries (current : list (nat * nat * nat * Q))
    (rewards : list Q) (dones : list bool)
    (next : list (nat * nat * nat * Q))
  : result (list (nat * nat * nat * Q)) :=
  match current, rewards, dones, next with
  | [], [], [], [] => Ok []
  | (pos, q) :: current, r :: rewards, d :: dones, (_, q_next) :: next =>
      rest ← new_entries current rewards dones next;
      Ok ((pos, updated q r d q_next) :: rest)
  | _, _, _, _ => Raise RuntimeError
  end.

(** [SARSA._update] *)
Definition _update (st : State) (timestep timesteps : Z) : result State :=
  let table := q_table st in
  rewards ← from_option Ok (Raise AttributeError) (_current_rewards st);
  let env_ids := range 0 (len rewards) in
  (* compute next actions *)
  next_states ← from_option Ok (Raise AttributeError)
                  (_current_next_states st);
  let next_actions := policy_act c table next_states in
  (* update Q-table *)
  states ← from_option Ok (Raise TypeError) (_current_states st);
  actions ← from_option Ok (Raise TypeError) (_current_actions st);
  dones ← from_option Ok (Raise AttributeError) (_current_dones st);
  current ← gather table env_ids states actions;
  next ← gather table env_ids next_states next_actions;
  writes ← new_entries current rewards dones next;
  Ok (tell {| q_table := index_put table writes;
              memory := memory st;
              secondary_memories := secondary_memories st;
              _current_states := _current_states st;
              _current_actions := _current_actions st;
              _current_rewards := _current_rewards st;
              _current_next_states := _current_next_states st;
              _current_dones := _current_dones st;
              log := log st |}
           [table_update (len rewards)]).

(** [SARSA.post_interaction] *)
Definition post_interaction (st : State) (timestep timesteps : Z)
  : result State :=
  st ← (if decide (timestep >= learning_starts cfg)
        then _update st timestep timesteps
        else Ok st);
  (* write tracking data and checkpoints *)
  Ok (tell st [AgentBase.post_interaction timestep timesteps]).

End Agent.

Arguments Collaborators : clear implicits.
Arguments State : clear implicits.

End SARSA.

(** ** MultivariateGaussianMixin
       (skrl/models/torch/multivariate_gaussian.py) *)

Module MultivariateGaussianMixin.

(** [d[role]] if [role in d], else [d] at the empty role. *)
Definition for_role {V} (d : gmap string V) (role : string) : result V :=
  if decide (role ∈ dom d) then subscript d role
  else subscript d default_role.

Section Mixin.
Context {Tensor Distribution : Type}.

(** The tensor library, the distribution and the [compute] method of the
    model that the mixin is mixed into. *)
Record Torch := {
  compute : Tensor -> option Tensor -> string -> Tensor * Tensor;
  clamp : Tensor -> Q -> Q -> Tensor;
  (* torch.diag(log_std.exp() * log_std.exp()) *)
  covariance : Tensor -> Tensor;
  MultivariateNormal : Tensor -> Tensor -> Distribution;
  rsample : Distribution -> Tensor;
  log_prob : Distribution -> Tensor -> Tensor;
  entropy : Distribution -> Tensor;
  (* torch.max(torch.min(actions, high), low) and
     torch.clamp(actions, min=low, max=high) *)
  max_min : Tensor -> Tensor -> Tensor -> Tensor;
  clamp_tensor : Tensor -> Tensor -> Tensor -> Tensor;
  dim : Tensor -> Z;
  shape0 : Tensor -> Z;
  unsqueeze : Tensor -> Tensor;
  repeat : Tensor -> Z -> Tensor;
  (* torch.tensor(0.0) *)
  zero : Tensor
}.

(** The attributes that the mixin adds to the model.  A dict that no
    [__init__] has created yet is the empty map. *)
Record Mixin := {
  (* issubclass(type(self.action_space), gym.Space), and its bounds *)
  action_space_is_gym_space : bool;
  action_space_low : Tensor;
  action_space_high : Tensor;
  torch_before_1_9 : bool;
  clip_actions_min : option Tensor;
  clip_actions_max : option Tensor;
  _backward_compatibility : option bool;
  _mg_clip_actions : gmap string bool;
  _mg_clip_log_std : gmap string bool;
  _mg_log_std_min : gmap string Q;
  _mg_log_std_max : gmap string Q;
  _mg_log_std : gmap string (option Tensor);
  _mg_num_samples : gmap string (option Z);
  _mg_distribution : gmap string (option Distribution)
}.

(** [MultivariateGaussianMixin.__init__] *)
Definition __init__ (self : Mixin) (clip_actions clip_log_std : bool)
    (min_log_std max_log_std : Q) (role : string) : Mixin :=
  let clip := clip_actions && action_space_is_gym_space self in
  {| action_space_is_gym_space := action_space_is_gym_space self;
     action_space_low := action_space_low self;
     action_space_high := action_space_high self;
     torch_before_1_9 := torch_before_1_9 self;
     clip_actions_min :=
       if clip then Some (action_space_low self) else clip_actions_min self;
     clip_actions_max :=
       if clip then Some (action_space_high self) else clip_actions_max self;
     _backward_compatibility :=
       if clip then Some (torch_before_1_9 self)
       else _backward_compatibility self;
     _mg_clip_actions := <[role := clip]> (_mg_clip_actions self);
     _mg_clip_log_std := <[role := clip_log_std]> (_mg_clip_log_std self);
     _mg_log_std_min := <[role := min_log_std]> (_mg_log_std_min self);
     _mg_log_std_max := <[role := max_log_std]> (_mg_log_std_max self);
     _mg_log_std := <[role := None]> (_mg_log_std self);
     _mg_num_samples := <[role := None]> (_mg_num_samples self);
     _mg_distribution := <[role := None]> (_mg_distribution self) |}.

Variable T : Torch.

(** The clipping of the sampled actions to the action space. *)
Definition clip_actions (self : Mixin) (actions : Tensor) : result Tensor :=
  compat ← from_option Ok (Raise AttributeError)
             (_backward_compatibility self);
  high ← from_option Ok (Raise AttributeError) (clip_actions_max self);
  low ← from_option Ok (Raise AttributeError) (clip_actions_min self);
  if compat : bool then Ok (max_min T actions high low)
  else Ok (clamp_tensor T actions low high).

(** [MultivariateGaussianMixin.act]: the model after the call and the
    returned triple. *)
Definition act (self : Mixin) (states : Tensor)
    (taken_actions : option Tensor) (role : string)
  : result (Mixin * (Tensor * Tensor * Tensor)) :=
  (* map from states/observations to mean actions and log standard
     deviations *)
  let '(actions_mean, log_std) := compute T states taken_actions role in
  (* clamp log standard deviations *)
  clip_log_std ← for_role (_mg_clip_log_std self) role;
  log_std ←
    (if clip_log_std : bool then
       lo ← for_role (_mg_log_std_min self) role;
       hi ← for_role (_mg_log_std_max self) role;
       Ok (clamp T log_std lo hi)
     else Ok log_std);
  (* distribution *)
  let distribution :=
    MultivariateNormal T actions_mean (covariance T log_std) in
  let self :=
    {| action_space_is_gym_space := action_space_is_gym_space self;
       action_space_low := action_space_low self;
       action_space_high := action_space_high self;
       torch_before_1_9 := torch_before_1_9 self;
       clip_actions_min := clip_actions_min self;
       clip_actions_max := clip_actions_max self;
       _backward_compatibility := _backward_compatibility self;
       _mg_clip_actions := _mg_clip_actions self;
       _mg_clip_log_std := _mg_clip_log_std self;
       _mg_log_std_min := _mg_log_std_min self;
       _mg_log_std_max := _mg_log_std_max self;
       _mg_log_std := <[role := Some log_std]> (_mg_log_std self);
       _mg_num_samples :=
         <[role := Some (shape0 T actions_mean)]> (_mg_num_samples self);
       _mg_distribution :=
         <[role := Some distribution]> (_mg_distribution self) |} in
  (* sample using the reparameterization trick; here and below
     self._mg_distribution[role] is the distribution just stored *)
  let actions := rsample T distribution in
  (* clip actions *)
  clip ← for_role (_mg_clip_actions self) role;
  actions ← (if clip : bool then clip_actions self actions else Ok actions);
  (* log of the probability density function *)
  let log_prob :=
    log_prob T distribution (default actions taken_actions) in
  let log_prob :=
    if decide (dim T log_prob ≠ dim T actions) then unsqueeze T log_prob
    else log_prob in
  Ok (self, (actions, log_prob, actions_mean)).

(** [MultivariateGaussianMixin.get_entropy] *)
Definition get_entropy (self : Mixin) (role : string) : result Tensor :=
  distribution ← for_role (_mg_distribution self) role;
  match distribution with
  | None => Ok (zero T)
  | Some distribution => Ok (entropy T distribution)
  end.

(** [MultivariateGaussianMixin.get_log_std] *)
Definition get_log_std (self : Mixin) (role : string) : result Tensor :=
  log_std ← for_role (_mg_log_std self) role;
  log_std ← from_option Ok (Raise AttributeError) log_std;
  num_samples ← for_role (_mg_num_samples self) role;
  num_samples ← from_option Ok (Raise TypeError) num_samples;
  Ok (repeat T log_std num_samples).

(** [MultivariateGaussianMixin.distribution] *)
Definition distribution (self : Mixin) (role : string)
  : result (option Distribution) :=
  for_role (_mg_distribution self) role.

(** [act] with the flags and bounds of [role] read with plain subscripts
    under the key [key]: what [act] does when every dict it reads holds
    that key. *)
Definition act_under (key : string) (self : Mixin) (states : Tensor)
    (taken_actions : option Tensor) (role : string)
  : result (Mixin * (Tensor * Tensor * Tensor)) :=
  let '(actions_mean, log_std) := compute T states taken_actions role in
  clip_log_std ← subscript (_mg_clip_log_std self) key;
  log_std ←
    (if clip_log_std : bool then
       lo ← subscript (_mg_log_std_min self) key;
       hi ← subscript (_mg_log_std_max self) key;
       Ok (clamp T log_std lo hi)
     else Ok log_std);
  let distribution :=
    MultivariateNormal T actions_mean (covariance T log_std) in
  let self :=
    {| action_space_is_gym_space := action_space_is_gym_space self;
       action_space_low := action_space_low self;
       action_space_high := action_space_high self;
       torch_before_1_9 := torch_before_1_9 self;
       clip_actions_min := clip_actions_min self;
       clip_actions_max := clip_actions_max self;
       _backward_compatibility := _backward_compatibility self;
       _mg_clip_actions := _mg_clip_actions self;
       _mg_clip_log_std := _mg_clip_log_std self;
       _mg_log_std_min := _mg_log_std_min self;
       _mg_log_std_max := _mg_log_std_max self;
       _mg_log_std := <[role := Some log_std]> (_mg_log_std self);
       _mg_num_samples :=
         <[role := Some (shape0 T actions_mean)]> (_mg_num_samples self);
       _mg_distribution :=
         <[role := Some distribution]> (_mg_distribution self) |} in
  let actions := rsample T distribution in
  clip ← subscript (_mg_clip_actions self) key;
  actions ← (if clip : bool then clip_actions self actions else Ok actions);
  let log_prob :=
    log_prob T distribution (default actions taken_actions) in
  let log_prob :=
    if decide (dim T log_prob ≠ dim T actions) then unsqueeze T log_prob
    else log_prob in
  Ok (self, (actions, log_prob, actions_mean)).

(** No [act] has stored a distribution yet: every registered role still
    holds the [None] that [__init__] put there. *)
Definition no_distribution_yet (self : Mixin) : Prop :=
  forall role d, _mg_distribution self !! role = Some d -> d = None.

End Mixin.

Arguments Torch : clear implicits.
Arguments Mixin : clear implicits.

End MultivariateGaussianMixin.

(** ** The agents as classes of the trainer *)

Module Agents.
Import AgentBase.

Section DDPG.
Context {Obs Params Memory Noise Info EnvState : Type}.
Variable c : DDPG.Collaborators (list Obs) Params Memory Noise.
Variable cfg : DDPG.Config.

Definition ddpg_class
  : Trainer.AgentClass Obs (list Q) Info (DDPG.State Params Memory Noise) :=
  {| Trainer.pre_interaction := DDPG.pre_interaction;
     Trainer.act := DDPG.act c cfg;
     Trainer.record_transition := fun st tr timestep timesteps =>
       DDPG.record_transition c st (Trainer.states tr) (Trainer.actions tr)
         (Trainer.rewards tr) (Trainer.next_states tr) (Trainer.dones tr)
         (Trainer.infos tr) timestep timesteps;
     Trainer.post_interaction := DDPG.post_interaction c cfg |}.

(** Modelled from the spec: [Agent.record_transition] and
    [Agent.post_interaction] of the missing base class, each recorded as
    its effect, as the DDPG methods record their calls through
    [super()]. *)
Definition ddpg_parent
  : Trainer.ParentClass Obs (list Q) Info (DDPG.State Params Memory Noise) :=
  {| Trainer.parent_record_transition := fun st _ timestep timesteps =>
       Ok (DDPG.tell st [record_transition timestep timesteps]);
     Trainer.parent_post_interaction := fun st timestep timesteps =>
       Ok (DDPG.tell st [post_interaction timestep timesteps]) |}.

Definition ddpg_agent (st : DDPG.State Params Memory Noise)
  : Trainer.Agent Obs (list Q) Info (DDPG.State Params Memory Noise) :=
  {| Trainer.self := st; Trainer.class := ddpg_class;
     Trainer.super := ddpg_parent |}.

End DDPG.

Section SARSA.
Context {Memory Info : Type}.
Variable c : SARSA.Collaborators Memory.
Variable cfg : SARSA.Config.

Definition sarsa_class
  : Trainer.AgentClass Z Z Info (SARSA.State Memory) :=
  {| Trainer.pre_interaction := SARSA.pre_interaction;
     Trainer.act := SARSA.act c cfg;
     Trainer.record_transition := fun st tr timestep timesteps =>
       SARSA.record_transition c st (Trainer.states tr) (Trainer.actions tr)
         (Trainer.rewards tr) (Trainer.next_states tr) (Trainer.dones tr)
         (Trainer.infos tr) timestep timesteps;
     Trainer.post_interaction := SARSA.post_interaction c cfg |}.

(** Modelled from the spec: [Agent.record_transition] and
    [Agent.post_interaction] of the missing base class, each recorded as
    its effect, as the SARSA methods record their calls through
    [super()]. *)
Definition sarsa_parent
  : Trainer.ParentClass Z Z Info (SARSA.State Memory) :=
  {| Trainer.parent_record_transition := fun st _ timestep timesteps =>
       Ok (SARSA.tell st [record_transition timestep timesteps]);
     Trainer.parent_post_interaction := fun st timestep timesteps =>
       Ok (SARSA.tell st [post_interaction timestep timesteps]) |}.

Definition sarsa_agent (st : SARSA.State Memory)
  : Trainer.Agent Z Z Info (SARSA.State Memory) :=
  {| Trainer.self := st; Trainer.class := sarsa_class;
     Trainer.super := sarsa_parent |}.

End SARSA.

(** The effects of the update engines: sampling the memory, optimizer
    and scheduler steps, soft updates and table updates. *)
Definition is_update (e : effect) : bool :=
  match e with
  | memory_sample _ | optimizer_step _ | update_parameters _ _
  | scheduler_step _ | table_update _ => true
  | _ => false
  end.

End Agents.

(** ** Views of a trainer and of the calls of its loops *)

Module TrainerViews.
Import Trainer.

(** The scopes are ranges laid end to end from [lo] to [hi]: each one
    starts where the one before it ends. *)
Fixpoint chained (lo : Z) (scopes : list scope_entry) (hi : Z) : Prop :=
  match scopes with
  | [] => lo = hi
  | Range a b :: rest => a = lo /\ chained b rest hi
  | Size _ :: _ => False
  end.

(** The number of environments that a line of [__str__] prints. *)
Definition line_count (l : scope_line) : Z :=
  match l with
  | ScopeOf count _ _ => count
  | ScopeAll count => count
  end.

Section Calls.
Context {Obs Action Info : Type}.

(** The [timestep] arguments of the calls of [act], in the order of the
    calls. *)
Definition act_timesteps (calls : list (call Obs Action Info)) : list Z :=
  omap (fun c => match c with
                 | agent_act _ timestep _ => Some timestep
                 | _ => None
                 end) calls.

(** The [timesteps] arguments of all the calls on the agent. *)
Definition total_timesteps (calls : list (call Obs Action Info)) : list Z :=
  omap (fun c => match c with
                 | agent_pre_interaction _ timesteps
                 | agent_act _ _ timesteps
                 | agent_record_transition _ _ _ timesteps
                 | agent_post_interaction _ _ timesteps => Some timesteps
                 | _ => None
                 end) calls.


(** What a call hands to the agent: the timestep of a call of [act]
    with the number of rows of the states it passes, and the timestep of
    a call of [record_transition] with the numbers of rows of the states
    and of the next states of the transition. *)
Inductive handed :=
| Acted (timestep rows : Z)
| Recorded (timestep rows next_rows : Z).

Definition batches (calls : list (call Obs Action Info)) : list handed :=
  omap (fun c => match c with
                 | agent_act states timestep _ =>
                     Some (Acted timestep (len states))
                 | agent_record_transition _ tr timestep _ =>
                     Some (Recorded timestep (len (states tr))
                                    (len (next_states tr)))
                 | _ => None
                 end) calls.

(** The agent is handed the whole batch of [n] rows once at every
    timestep: to act on, and then to record. *)
Definition whole_batches (n : Z) (steps : list Z) : list handed :=
  flat_map (fun timestep => [Acted timestep n; Recorded timestep n n]) steps.

End Calls.

Section Methods.
Context {Obs Action Info AgentState : Type}.

(** The methods that the train loop calls on the agent return on the
    timesteps [steps] of a run of [timesteps] timesteps, from every
    state of the agent that satisfies [Inv], and keep [Inv]. *)
Definition methods_return (Inv : AgentState -> Prop)
    (ag : Agent Obs Action Info AgentState) (timesteps : Z)
    (steps : list Z) : Prop :=
  (forall a t, Inv a -> In t steps ->
     exists a', pre_interaction (class ag) a t timesteps = Ok a' /\ Inv a') /\
  (forall a states t, Inv a -> In t steps ->
     exists a' actions,
       act (class ag) a states t timesteps = Ok (a', actions) /\ Inv a') /\
  (forall a tr t, Inv a -> In t steps ->
     exists a',
       record_transition (class ag) a tr t timesteps = Ok a' /\ Inv a') /\
  (forall a t, Inv a -> In t steps ->
     exists a', post_interaction (class ag) a t timesteps = Ok a' /\ Inv a').

(** The same for the methods that the eval loop calls: [act], and
    [record_transition] and [post_interaction] of the parent class. *)
Definition parent_methods_return (Inv : AgentState -> Prop)
    (ag : Agent Obs Action Info AgentState) (timesteps : Z)
    (steps : list Z) : Prop :=
  (forall a states t, Inv a -> In t steps ->
     exists a' actions,
       act (class ag) a states t timesteps = Ok (a', actions) /\ Inv a') /\
  (forall a tr t, Inv a -> In t steps ->
     exists a',
       parent_record_transition (super ag) a tr t timesteps = Ok a'
       /\ Inv a') /\
  (forall a t, Inv a -> In t steps ->
     exists a',
       parent_post_interaction (super ag) a t timesteps = Ok a' /\ Inv a').

End Methods.

End TrainerViews.

(** ** Views of a model with the mixin *)

Module MixinViews.
Import MultivariateGaussianMixin.

(** Some [__init__] has run on the model: the dicts exist, and the one
    of the clipping flags, which every [__init__] writes to, holds a
    role.  (Before the first [__init__] the dicts are missing, and every
    read of one raises [AttributeError] instead.) *)
Definition initialised {Tensor Distribution} (self : Mixin Tensor Distribution)
  : Prop :=
  dom (_mg_clip_actions self) <> ∅.

(** The attributes that the clipping of the actions reads are there
    whenever some role has the clipping switched on. *)
Definition clip_ready {Tensor Distribution} (self : Mixin Tensor Distribution)
  : Prop :=
  (exists role, _mg_clip_actions self !! role = Some true) ->
  is_Some (clip_actions_min self) /\ is_Some (clip_actions_max self)
  /\ is_Some (_backward_compatibility self).

End MixinViews.

(** ** Views of the log of an agent *)

Module AgentViews.
Import AgentBase.

Definition is_memory_add (e : effect) : bool :=
  match e with
  | memory_add_samples => true
  | _ => false
  end.

(** The number of calls of [add_samples] on a memory in a log. *)
Definition stored (log : list effect) : nat :=
  length (List.filter is_memory_add log).

End AgentViews.

(** ** Sample values *)

Module Samples.

(** The default configuration of DDPG, with learning from timestep 10 on
    and actions in [[-1, 1]]. *)
Definition ddpg_cfg : DDPG.Config :=
  {| DDPG.gradient_steps := 1; DDPG.batch_size := 64;
     DDPG.discount_factor := 99 # 100; DDPG.polyak := 5 # 1000;
     DDPG.learning_rate_scheduler := false;
     DDPG.random_timesteps := 0; DDPG.learning_starts := 10;
     DDPG.exploration_initial_scale := 1%Q;
     DDPG.exploration_final_scale := 1 # 1000;
     DDPG.clip_actions_min := [(-1)%Q]; DDPG.clip_actions_max := [1%Q];
     DDPG.backward_compatibility := false |}.

(** Networks that return constants, a noise source that returns 1/2 and
    a memory that returns one terminal transition. *)
Definition ddpg_collaborators
  : DDPG.Collaborators (list unit) unit unit unit :=
  {| DDPG.policy_act := fun _ _ => [[0%Q]];
     DDPG.policy_random_act := fun _ _ => [[1%Q]];
     DDPG.target_policy_act := fun _ _ => [[0%Q]];
     DDPG.critic_act := fun _ _ _ => [2%Q];
     DDPG.target_critic_act := fun _ _ _ => [3%Q];
     DDPG.state_preprocessor := fun states _ => states;
     DDPG.noise_sample := fun noise _ => (noise, [[1 # 2]]);
     DDPG.rewards_shaper := None;
     DDPG.sample := fun _ _ =>
       {| DDPG.sampled_states := [tt]; DDPG.sampled_actions := [[0%Q]];
          DDPG.sampled_rewards := [1%Q]; DDPG.sampled_next_states := [tt];
          DDPG.sampled_dones := [true] |};
     DDPG.add_samples := fun m _ _ _ _ _ => m;
     DDPG.critic_optimizer_step := fun p _ _ _ => p;
     DDPG.policy_optimizer_step := fun p _ => p;
     DDPG.update_target := fun _ p _ => p;
     DDPG.step_scheduler := fun _ p => p;
     DDPG.last_lr := fun _ _ => 1 # 1000 |}.

Definition ddpg_state : DDPG.State unit unit unit :=
  {| DDPG.params := tt; DDPG.memory := Some tt;
     DDPG.secondary_memories := [];
     DDPG.exploration_noise := Some tt;
     DDPG.exploration_timesteps := None;
     DDPG.log := [] |}.

(** The default configuration of SARSA, with learning from timestep 10
    on. *)
Definition sarsa_cfg : SARSA.Config :=
  {| SARSA.discount_factor := 99 # 100; SARSA.random_timesteps := 0;
     SARSA.learning_starts := 10; SARSA.learning_rate := 1 # 2 |}.

(** A policy that always takes action 0. *)
Definition sarsa_collaborators : SARSA.Collaborators unit :=
  {| SARSA.policy_act := fun _ states => (fun _ => 0) <$> states;
     SARSA.policy_random_act := fun _ states => (fun _ => 1) <$> states;
     SARSA.rewards_shaper := None;
     SARSA.add_samples := fun m _ _ _ _ _ => m |}.

(** Two environments with two states and two actions each, after a
    transition has been recorded in both; the second one is terminal. *)
Definition sarsa_state : SARSA.State unit :=
  {| SARSA.q_table := [[[0%Q; 4%Q]; [2%Q; 0%Q]]; [[6%Q; 0%Q]; [8%Q; 0%Q]]];
     SARSA.memory := None; SARSA.secondary_memories := [];
     SARSA._current_states := Some [0; 1];
     SARSA._current_actions := Some [1; 0];
     SARSA._current_rewards := Some [1%Q; 3%Q];
     SARSA._current_next_states := Some [1; 0];
     SARSA._current_dones := Some [false; true];
     SARSA.log := [] |}.

Definition trainer_cfg : Trainer.Cfg :=
  {| Trainer.cfg_timesteps := Some 2; Trainer.cfg_headless := None |}.

(** An environment with one instance that never ends an episode. *)
Definition env_methods : Trainer.WrapperMethods unit (list Q) unit unit :=
  {| Trainer.reset := fun e => (e, [tt]);
     Trainer.step := fun e _ => (e, ([tt], [1%Q], [false], tt));
     Trainer.render := fun e => e;
     Trainer.close := fun e => e |}.

Definition ddpg_agent
  : Trainer.Agent unit (list Q) unit (DDPG.State unit unit unit) :=
  Agents.ddpg_agent ddpg_collaborators ddpg_cfg ddpg_state.

(** The trainer that [__init__] builds from the sample agent in a list,
    one environment and the sample configuration. *)
Definition ddpg_trainer
  : Trainer.t (Trainer.Agent unit (list Q) unit (DDPG.State unit unit unit)) :=
  {| Trainer.env := {| Trainer.num_envs := 1 |};
     Trainer.agents := Trainer.BareAgent ddpg_agent;
     Trainer.agents_scope := [Trainer.Size 1];
     Trainer.num_agents := 1; Trainer.timesteps := 2;
     Trainer.headless := false; Trainer.initial_timestep := 0 |}.

(** Two instances of a tabular environment, the second one ending its
    episode at every step. *)
Definition sarsa_env_methods : Trainer.WrapperMethods Z Z unit unit :=
  {| Trainer.reset := fun e => (e, [0; 1]);
     Trainer.step := fun e _ => (e, ([1; 0], [1%Q; 3%Q], [false; true], tt));
     Trainer.render := fun e => e;
     Trainer.close := fun e => e |}.

Definition sarsa_agent : Trainer.Agent Z Z unit (SARSA.State unit) :=
  Agents.sarsa_agent sarsa_collaborators sarsa_cfg sarsa_state.

Definition sarsa_trainer
  : Trainer.t (Trainer.Agent Z Z unit (SARSA.State unit)) :=
  {| Trainer.env := {| Trainer.num_envs := 2 |};
     Trainer.agents := Trainer.BareAgent sarsa_agent;
     Trainer.agents_scope := [Trainer.Size 1];
     Trainer.num_agents := 1; Trainer.timesteps := 2;
     Trainer.headless := false; Trainer.initial_timestep := 0 |}.

(** A tensor library over single numbers, with a distribution that is
    its mean and has entropy 7. *)
Definition torch : MultivariateGaussianMixin.Torch Q Q :=
  {| MultivariateGaussianMixin.compute := fun states _ _ => (states, 0%Q);
     MultivariateGaussianMixin.clamp := fun x lo hi => Qmin (Qmax x lo) hi;
     MultivariateGaussianMixin.covariance := fun x => x;
     MultivariateGaussianMixin.MultivariateNormal := fun mean _ => mean;
     MultivariateGaussianMixin.rsample := fun d => d;
     MultivariateGaussianMixin.log_prob := fun _ _ => 0%Q;
     MultivariateGaussianMixin.entropy := fun _ => 7%Q;
     MultivariateGaussianMixin.max_min := fun x hi lo => Qmax (Qmin x hi) lo;
     MultivariateGaussianMixin.clamp_tensor := fun x lo hi =>
       Qmin (Qmax x lo) hi;
     MultivariateGaussianMixin.dim := fun _ => 0;
     MultivariateGaussianMixin.shape0 := fun _ => 1;
     MultivariateGaussianMixin.unsqueeze := fun x => x;
     MultivariateGaussianMixin.repeat := fun x _ => x;
     MultivariateGaussianMixin.zero := 0%Q |}.

(** A model before the [__init__] of the mixin. *)
Definition model : MultivariateGaussianMixin.Mixin Q Q :=
  {| MultivariateGaussianMixin.action_space_is_gym_space := true;
     MultivariateGaussianMixin.action_space_low := (-1)%Q;
     MultivariateGaussianMixin.action_space_high := 1%Q;
     MultivariateGaussianMixin.torch_before_1_9 := false;
     MultivariateGaussianMixin.clip_actions_min := None;
     MultivariateGaussianMixin.clip_actions_max := None;
     MultivariateGaussianMixin._backward_compatibility := None;
     MultivariateGaussianMixin._mg_clip_actions := ∅;
     MultivariateGaussianMixin._mg_clip_log_std := ∅;
     MultivariateGaussianMixin._mg_log_std_min := ∅;
     MultivariateGaussianMixin._mg_log_std_max := ∅;
     MultivariateGaussianMixin._mg_log_std := ∅;
     MultivariateGaussianMixin._mg_num_samples := ∅;
     MultivariateGaussianMixin._mg_distribution := ∅ |}.

(** The model after [__init__] with the default arguments. *)
Definition gaussian : MultivariateGaussianMixin.Mixin Q Q :=
  MultivariateGaussianMixin.__init__ model false true (-20) 2 default_role.

(** A run about to start timestep 0. *)
Definition run
  : Trainer.Run unit (list Q) unit unit (DDPG.State unit unit unit) :=
  {| Trainer.run_env := tt; Trainer.run_agent := ddpg_state;
     Trainer.run_states := [tt]; Trainer.run_calls := [] |}.

End Samples.

(* ------------------------------------------------------------------ *)
(** * Properties *)

Lemma bind_Ok {A B} (m : result A) (f : A -> result B) (b : B) :
  m ≫= f = Ok b <-> exists a, m = Ok a /\ f a = Ok b.
Proof.
  destruct m as [a|e]; simpl; split.
  - intros H. by exists a.
  - by intros (a' & [= <-] & H).
  - discriminate.
  - by intros (a' & [=] & _).
Qed.

(** Splits a hypothesis [x ← m; k = Ok b] into [m = Ok a] and
    [k a = Ok b]. *)
Ltac inv_bind H :=
  repeat match type of H with
         | _ ≫= _ = Ok _ =>
             let u := fresh "u" in
             let E := fresh "E" in
             apply bind_Ok in H; destruct H as (u & E & H)
         end.

Module TrainerFacts.
Import Trainer.

Lemma int_true_div (a b : Z) :
  0 < b -> int (inject_Z a / inject_Z b)%Q = Z.quot a b.
Proof.
  intros Hb. destruct b as [|p|p]; try lia.
  unfold int, Qdiv, Qinv, Qmult, inject_Z. simpl.
  rewrite Z.mul_1_r. reflexivity.
Qed.


Lemma sum_replicate (n : nat) (x : Z) : sum (replicate n x) = Z.of_nat n * x.
Proof. induction n as [|n IH]; simpl; [lia|]. unfold sum in *. simpl. lia. Qed.

Lemma sum_app (l1 l2 : list Z) : sum (l1 ++ l2) = sum l1 + sum l2.
Proof. unfold sum. induction l1 as [|x l1 IH]; simpl; lia. Qed.

Lemma add_to_last_snoc (l : list Z) (x d : Z) :
  add_to_last (l ++ [x]) d = Ok (l ++ [x + d]).
Proof.
  induction l as [|y l IH]; [reflexivity|].
  simpl. destruct (l ++ [x]) eqn:E.
  - destruct l; discriminate.
  - rewrite IH. reflexivity.
Qed.

Lemma replicate_snoc {A} (n : nat) (x : A) :
  replicate (S n) x = replicate n x ++ [x].
Proof. induction n as [|n IH]; [reflexivity|]. simpl in *. by rewrite <- IH. Qed.

Lemma generate_agents_scopes_lookup (sizes : list Z) (index : Z) (i : nat) :
  generate_agents_scopes index sizes !! i =
  (fun _ => Range (index + sum (take i sizes)) (index + sum (take (S i) sizes)))
    <$> sizes !! i.
Proof.
  revert index i. induction sizes as [|s rest IH]; intros index i.
  - by destruct i.
  - destruct i as [|i]; simpl.
    + unfold sum. simpl. f_equal. f_equal; lia.
    + rewrite IH. destruct (rest !! i); simpl; [|done].
      unfold sum. simpl. f_equal. f_equal; lia.
Qed.

Lemma generate_agents_scopes_length (sizes : list Z) (index : Z) :
  length (generate_agents_scopes index sizes) = length sizes.
Proof. revert index. induction sizes as [|s rest IH]; intros; simpl; [done|]. by rewrite IH. Qed.

Lemma generate_agents_scopes_cover (sizes : list Z) (index : Z) :
  Forall (fun s => 0 <= s) sizes ->
  (forall k, index <= k < index + sum sizes ->
     exists i e, generate_agents_scopes index sizes !! i = Some e /\
       in_scope k e /\
       forall j e', generate_agents_scopes index sizes !! j = Some e' ->
                    in_scope k e' -> j = i) /\
  (forall k (i : nat) e, generate_agents_scopes index sizes !! i = Some e ->
     in_scope k e -> index <= k < index + sum sizes).
Proof.
  intros Hpos. revert index.
  induction Hpos as [|s rest Hs Hrest IH]; intros index.
  - split.
    + unfold sum. simpl. lia.
    + intros k i e Hi. by destruct i.
  - destruct (IH (index + s)) as [IHin IHout]. clear IH.
    assert (Hsum : sum (s :: rest) = s + sum rest) by reflexivity.
    assert (Hrest0 : 0 <= sum rest).
    { clear -Hrest. induction Hrest as [|x l Hx _ IHl]; unfold sum in *; simpl; lia. }
    split.
    + intros k Hk. destruct (decide (k < index + s)) as [Hlt|Hge].
      * exists 0%nat, (Range (index + s - s) (index + s)). simpl.
        split; [done|]. split; [lia|].
        intros [|j] e' Hj Hin; [done|]. simpl in Hj.
        apply IHout with (k := k) in Hj; [lia|done].
      * destruct (IHin k) as (i & e & Hi & Hin & Huniq); [lia|].
        exists (S i), e. simpl. split; [done|]. split; [done|].
        intros [|j] e' Hj Hin'.
        -- simpl in Hj. inversion Hj; subst e'. simpl in Hin'. lia.
        -- f_equal. by apply (Huniq j e').
    + intros k [|i] e Hi Hin; simpl in Hi.
      * inversion Hi; subst e. simpl in Hin. lia.
      * apply IHout with (k := k) in Hi; [lia|done].
Qed.

Lemma generate_agents_scopes_partitions (sizes : list Z) :
  Forall (fun s => 0 <= s) sizes ->
  partitions (generate_agents_scopes 0 sizes) (sum sizes).
Proof.
  intros Hpos. destruct (generate_agents_scopes_cover sizes 0 Hpos) as [H1 H2].
  split.
  - intros k Hk. apply H1. lia.
  - intros k i e Hi Hin. specialize (H2 k i e Hi Hin). lia.
Qed.

(** The sizes that the empty-scope branch computes when there are enough
    environments. *)
Lemma equal_scopes (num_envs n : Z) :
  0 < n -> n <= num_envs ->
  let scopes := list_mul (int (inject_Z num_envs / inject_Z n)%Q) n in
  sum scopes <> 0 /\
  add_to_last scopes (num_envs - sum scopes) =
  Ok (replicate (Z.to_nat (n - 1)) (num_envs `div` n)
      ++ [num_envs `div` n + num_envs `mod` n]).
Proof.
  intros Hn Hle scopes. subst scopes.
  rewrite int_true_div by done.
  rewrite Z.quot_div_nonneg by lia.
  unfold list_mul.
  assert (Hq : 1 <= num_envs `div` n).
  { apply Z.div_le_lower_bound; lia. }
  rewrite sum_replicate, Z2Nat.id by lia.
  split; [nia|].
  replace (Z.to_nat n) with (S (Z.to_nat (n - 1))) by lia.
  rewrite replicate_snoc, add_to_last_snoc.
  do 3 f_equal.
  pose proof (Z.div_mod num_envs n ltac:(lia)). lia.
Qed.

(** ... and when there are not. *)
Lemma no_scopes (num_envs n : Z) :
  0 <= num_envs < n ->
  sum (list_mul (int (inject_Z num_envs / inject_Z n)%Q) n) = 0.
Proof.
  intros H. rewrite int_true_div by lia.
  rewrite Z.quot_small by lia.
  unfold list_mul. rewrite sum_replicate. lia.
Qed.

Lemma sum_sizes_generate (sizes : list Z) (index : Z) :
  sum (scope_size <$> generate_agents_scopes index sizes) = sum sizes.
Proof.
  revert index. induction sizes as [|s rest IH]; intros index; [done|].
  simpl. unfold sum in *. simpl. rewrite IH. lia.
Qed.

(** C1. With more than one agent, at least as many environments as agents
    and no scopes given, the generated sizes are [floor(num_envs / n)] for
    every agent but the last, which also takes [num_envs mod n]; the
    ranges built from them partition [[0, num_envs)] and the sizes sum to
    [num_envs]. *)
Theorem auto_scopes_partition {Agent} (env : Wrapper) (l : list Agent)
    (cfg : Cfg) :
  let n := len l in
  let q := num_envs env `div` n in
  let r := num_envs env `mod` n in
  let sizes := replicate (Z.to_nat (n - 1)) q ++ [q + r] in
  1 < n -> n <= num_envs env ->
  generate_equally_spaced_scopes (num_envs env) n = Ok sizes /\
  len sizes = n /\
  sum sizes = num_envs env /\
  exists tr,
    __init__ env (AgentList l) [] cfg = Ok tr /\
    num_agents tr = n /\
    agents_scope tr = generate_agents_scopes 0 sizes /\
    (forall i : nat, Z.of_nat i < n - 1 ->
       agents_scope tr !! i
       = Some (Range (Z.of_nat i * q) (Z.of_nat i * q + q))) /\
    agents_scope tr !! Z.to_nat (n - 1)
    = Some (Range ((n - 1) * q) (num_envs env)) /\
    len (agents_scope tr) = n /\
    sum (scope_size <$> agents_scope tr) = num_envs env /\
    partitions (agents_scope tr) (num_envs env).
Proof.
  intros n q r sizes Hn Hle.
  destruct (equal_scopes (num_envs env) n ltac:(lia) Hle) as [Hne Hadd].
  fold q r sizes in Hadd.
  assert (Hq : 1 <= q) by (apply Z.div_le_lower_bound; lia).
  assert (Hr : 0 <= r < n) by (apply Z.mod_pos_bound; lia).
  assert (Hdm : num_envs env = n * q + r) by (apply Z.div_mod; lia).
  assert (Hlen : len sizes = n).
  { unfold len, sizes. rewrite length_app, length_replicate. simpl. lia. }
  assert (Hsum : sum sizes = num_envs env).
  { unfold sizes. rewrite sum_app, sum_replicate. unfold sum. simpl. lia. }
  assert (Hpos : Forall (fun s => 0 <= s) sizes).
  { unfold sizes. apply Forall_app. split.
    - apply Forall_replicate. lia.
    - repeat constructor. lia. }
  split; [|split; [done|split; [done|]]].
  { unfold generate_equally_spaced_scopes, true_div.
    destruct (decide (n = 0)) as [?|_]; [lia|]. simpl.
    destruct (decide _) as [_|Hc]; [done|]. by destruct Hc. }
  assert (Hinit : __init__ env (AgentList l) [] cfg
    = Ok {| env := env; agents := AgentList l;
            agents_scope := generate_agents_scopes 0 sizes;
            num_agents := n; timesteps := default 0 (cfg_timesteps cfg);
            headless := default false (cfg_headless cfg);
            initial_timestep := 0 |}).
  { unfold __init__, _setup_agents.
    destruct l as [|a [|b l']]; [by cbn in Hn| by cbn in Hn |].
    set (l0 := a :: b :: l') in *.
    destruct (decide (len [] = 0)) as [_|Hc]; [|by destruct Hc].
    destruct (decide _) as [_|Hc]; [|by destruct Hc].
    fold n. rewrite Hadd. reflexivity. }
  eexists. split; [exact Hinit|]. simpl.
  split; [done|]. split; [done|].
  split; [|split; [|split; [|split]]].
  - intros i Hi. rewrite generate_agents_scopes_lookup.
    unfold sizes. rewrite lookup_app_l by (rewrite length_replicate; lia).
    rewrite lookup_replicate_2 by lia. simpl.
    rewrite !take_app_le by (rewrite length_replicate; lia).
    rewrite !take_replicate, !sum_replicate.
    rewrite (Nat.min_l i), (Nat.min_l (S i)) by lia.
    f_equal. f_equal; lia.
  - rewrite generate_agents_scopes_lookup.
    unfold sizes.
    rewrite lookup_app_r by (rewrite length_replicate; lia).
    rewrite length_replicate, Nat.sub_diag. simpl.
    rewrite take_app_le by (rewrite length_replicate; lia).
    rewrite take_ge by (rewrite length_replicate; lia).
    rewrite take_ge by (rewrite length_app, length_replicate; simpl; lia).
    fold sizes. rewrite Hsum, sum_replicate. f_equal. f_equal; lia.
  - unfold len. rewrite generate_agents_scopes_length. exact Hlen.
  - by rewrite sum_sizes_generate.
  - rewrite <- Hsum. by apply generate_agents_scopes_partitions.
Qed.

(** At 10 environments and 3 agents the sizes are [3; 3; 4]. *)
Lemma auto_scopes_partition_witness :
  generate_equally_spaced_scopes 10 3 = Ok [3; 3; 4] /\
  exists tr,
    __init__ {| num_envs := 10 |} (AgentList [tt; tt; tt]) []
             Samples.trainer_cfg = Ok tr /\
    agents_scope tr = [Range 0 3; Range 3 6; Range 6 10] /\
    partitions (agents_scope tr) 10.
Proof.
  pose proof (auto_scopes_partition {| num_envs := 10 |} [tt; tt; tt]
                Samples.trainer_cfg) as H.
  destruct H
    as (Hgen & _ & _ & tr & Hinit & _ & Hscope & _ & _ & _ & _ & Hpart);
    [unfold len; simpl; lia..|].
  split; [exact Hgen|].
  exists tr. split; [exact Hinit|]. split; [exact Hscope|exact Hpart].
Defined.

(** C5. With no scopes given and more agents than environments, scope
    generation raises the [ValueError] about the number of agents, both in
    [generate_equally_spaced_scopes] and in the constructor, so no trainer
    is built; with at most as many agents as environments it does not. *)
Theorem insufficient_environments {Agent} (env : Wrapper) (n : Z)
    (l : list Agent) (cfg : Cfg) :
  0 <= num_envs env ->
  (0 < n ->
     (num_envs env < n ->
        generate_equally_spaced_scopes (num_envs env) n
        = Raise (ValueError (AgentsGreaterThanEnvs n (num_envs env)))) /\
     (n <= num_envs env ->
        is_Ok (generate_equally_spaced_scopes (num_envs env) n))) /\
  (1 < len l ->
     (num_envs env < len l ->
        __init__ env (AgentList l) [] cfg
        = Raise (ValueError (AgentsGreaterThanEnvs (len l) (num_envs env)))) /\
     (len l <= num_envs env ->
        is_Ok (__init__ env (AgentList l) [] cfg))).
Proof.
  intros Hpos. split.
  - intros Hn. unfold generate_equally_spaced_scopes, true_div.
    destruct (decide (n = 0)) as [?|_]; [lia|]. simpl. split.
    + intros Hlt. rewrite no_scopes by lia.
      destruct (decide (0 ≠ 0)) as [Hc|_]; [by destruct Hc|done].
    + intros Hle. destruct (equal_scopes (num_envs env) n Hn Hle) as [Hne Hadd].
      destruct (decide _) as [_|Hc]; [|by destruct Hc].
      rewrite Hadd. by eexists.
  - intros Hn. unfold __init__, _setup_agents.
    destruct l as [|a [|b l']]; [by cbn in Hn| by cbn in Hn |].
    set (l0 := a :: b :: l') in *.
    destruct (decide (len [] = 0)) as [_|Hc]; [|by destruct Hc].
    split.
    + intros Hlt. rewrite no_scopes by lia.
      destruct (decide (0 ≠ 0)) as [Hc|_]; [by destruct Hc|done].
    + intros Hle.
      destruct (equal_scopes (num_envs env) (len l0) ltac:(lia) Hle)
        as [Hne Hadd].
      destruct (decide _) as [_|Hc]; [|by destruct Hc].
      rewrite Hadd. by eexists.
Qed.

(** 3 environments cannot be shared among 5 agents. *)
Lemma insufficient_environments_witness :
  generate_equally_spaced_scopes 3 5
  = Raise (ValueError (AgentsGreaterThanEnvs 5 3)) /\
  __init__ {| num_envs := 3 |} (AgentList [tt; tt; tt; tt; tt]) []
           Samples.trainer_cfg
  = Raise (ValueError (AgentsGreaterThanEnvs 5 3)).
Proof.
  pose proof (insufficient_environments {| num_envs := 3 |} 5
                [tt; tt; tt; tt; tt]
                Samples.trainer_cfg) as H.
  destruct H as [Hgen Hinit]; [simpl; lia|].
  split.
  - apply Hgen; simpl; lia.
  - apply Hinit; unfold len; simpl; lia.
Defined.

(** C4. With more than one agent and a non-empty list of scopes, the
    constructor raises exactly when the number of scopes is not the
    number of agents or the scopes do not sum to [num_envs]; otherwise
    the [i]-th scope becomes the range from the sum of the sizes before
    it to the sum of the sizes up to it. *)
Theorem explicit_scopes_validated {Agent} (env : Wrapper) (l : list Agent)
    (scope : list Z) (cfg : Cfg) :
  1 < len l -> scope <> [] ->
  (raises (__init__ env (AgentList l) scope cfg)
   <-> len scope <> len l \/ sum scope <> num_envs env) /\
  (len scope <> len l ->
     __init__ env (AgentList l) scope cfg
     = Raise (ValueError (AgentsDontMatchScopes (len l) (len scope)))) /\
  (len scope = len l -> sum scope <> num_envs env ->
     __init__ env (AgentList l) scope cfg
     = Raise (ValueError (ScopesDontCoverEnvs (sum scope) (num_envs env)))) /\
  (len scope = len l -> sum scope = num_envs env ->
     exists tr,
       __init__ env (AgentList l) scope cfg = Ok tr /\
       num_agents tr = len l /\
       len (agents_scope tr) = len l /\
       forall i : nat, (i < length l)%nat ->
         agents_scope tr !! i
         = Some (Range (sum (take i scope)) (sum (take (S i) scope)))).
Proof.
  intros Hn Hne.
  assert (Hlen0 : len scope <> 0).
  { destruct scope; [done|]. unfold len. simpl. lia. }
  assert (Hinit : __init__ env (AgentList l) scope cfg =
    if decide (len scope ≠ len l) then
      Raise (ValueError (AgentsDontMatchScopes (len l) (len scope)))
    else if decide (sum scope ≠ num_envs env) then
      Raise (ValueError (ScopesDontCoverEnvs (sum scope) (num_envs env)))
    else Ok {| env := env; agents := AgentList l;
               agents_scope := generate_agents_scopes 0 scope;
               num_agents := len l;
               timesteps := default 0 (cfg_timesteps cfg);
               headless := default false (cfg_headless cfg);
               initial_timestep := 0 |}).
  { unfold __init__, _setup_agents.
    destruct l as [|a [|b l']]; [by cbn in Hn| by cbn in Hn |].
    set (l0 := a :: b :: l') in *.
    destruct (decide (len scope = 0)) as [?|_]; [done|].
    destruct (decide (len scope ≠ len l0)); [done|].
    destruct (decide (sum scope ≠ num_envs env)); done. }
  rewrite Hinit. clear Hinit.
  split; [|split; [|split]].
  - unfold raises.
    destruct (decide (len scope ≠ len l)) as [H1|H1];
      [|destruct (decide (sum scope ≠ num_envs env)) as [H2|H2]].
    + split; [by left|by eexists].
    + split; [by right|by eexists].
    + split; [intros [e He]; discriminate|].
      intros [H|H]; [by destruct H1|by destruct H2].
  - intros H1. destruct (decide _) as [_|Hc]; [done|by destruct Hc].
  - intros H1 H2.
    destruct (decide (len scope ≠ len l)) as [Hc|_]; [done|].
    destruct (decide _) as [_|Hc]; [done|by destruct Hc].
  - intros H1 H2.
    destruct (decide (len scope ≠ len l)) as [Hc|_]; [done|].
    destruct (decide (sum scope ≠ num_envs env)) as [Hc|_]; [done|].
    eexists. split; [reflexivity|]. simpl. split; [done|].
    split.
    + unfold len in *. by rewrite generate_agents_scopes_length.
    + intros i Hi. rewrite generate_agents_scopes_lookup.
      destruct (lookup_lt_is_Some_2 scope i) as [s Hs]; [unfold len in H1; lia|].
      rewrite Hs. simpl. f_equal.
Qed.

(** Two agents over five environments: [[2; 3]] is accepted and becomes
    [(0, 2)], [(2, 5)]; [[2; 2]] and [[5]] are refused. *)
Lemma explicit_scopes_validated_witness :
  (exists tr,
     __init__ {| num_envs := 5 |} (AgentList [tt; tt]) [2; 3]
              Samples.trainer_cfg = Ok tr /\
     agents_scope tr !! 0%nat = Some (Range 0 2) /\
     agents_scope tr !! 1%nat = Some (Range 2 5)) /\
  __init__ {| num_envs := 5 |} (AgentList [tt; tt]) [2; 2]
           Samples.trainer_cfg
  = Raise (ValueError (ScopesDontCoverEnvs 4 5)) /\
  __init__ {| num_envs := 5 |} (AgentList [tt; tt]) [5]
           Samples.trainer_cfg
  = Raise (ValueError (AgentsDontMatchScopes 2 1)).
Proof.
  split; [|split].
  - destruct (explicit_scopes_validated {| num_envs := 5 |} [tt; tt] [2; 3]
                Samples.trainer_cfg)
      as (_ & _ & _ & Hok); [unfold len; simpl; lia|done|].
    destruct Hok as (tr & Hinit & _ & _ & Hi); [done..|].
    exists tr. split; [exact Hinit|].
    split; [apply (Hi 0%nat)|apply (Hi 1%nat)]; simpl; lia.
  - destruct (explicit_scopes_validated {| num_envs := 5 |} [tt; tt] [2; 2]
                Samples.trainer_cfg)
      as (_ & _ & Hsum & _); [unfold len; simpl; lia|done|].
    apply Hsum; [done|]. unfold sum. simpl. lia.
  - destruct (explicit_scopes_validated {| num_envs := 5 |} [tt; tt] [5]
                Samples.trainer_cfg)
      as (_ & Hlen & _ & _); [unfold len; simpl; lia|done|].
    apply Hlen. unfold len. simpl. lia.
Defined.

End TrainerFacts.

Module DDPGFacts.
Import AgentBase DDPG.

Lemma SFeqb_same (x : spec_float) : x <> S754_nan -> SFeqb x x = true.
Proof.
  destruct x as [s|s| |s m e]; intros H; unfold SFeqb; simpl; try done.
  - by destruct s.
  - rewrite Z.compare_refl, Pos.compare_cont_refl. by destruct s.
Qed.

(** The original claim in floating point: with a target critic that
    returns an infinity for a terminal row, the target of the row is not
    its reward 5 but nan, since the mask multiplies: [0.5 * 0.0 * inf]. *)
Lemma terminal_target_of_infinite_value :
  exists y,
    IEEE.target_values 24 128 (IEEE.float32 1 (-1)) [IEEE.float32 5 0] [true]
                       [S754_infinity false] !! 0%nat = Some y /\
    y = S754_nan /\ SFeqb y (IEEE.float32 5 0) = false.
Proof. exists S754_nan. by vm_compute. Qed.

(** C2. In the target values of the DDPG update, a row whose done flag
    is set holds the sampled reward of that row, whatever finite value
    the target critic returned for it: over exact numbers, and in every
    binary floating-point format when the discount factor is finite and
    the reward is a number (the target then compares equal to the
    reward, and is the reward itself unless that is a zero, whose sign
    may change).  When the target critic returned an infinity or nan
    for the row, the target is nan. *)
Theorem terminal_target_is_reward (cfg : Config) (dones : list bool)
    (i : nat) :
  (forall (rewards target_q_values other_q_values : list Q) (r : Q),
     length dones = length rewards ->
     length target_q_values = length rewards ->
     length other_q_values = length rewards ->
     rewards !! i = Some r ->
     dones !! i = Some true ->
     exists y y',
       target_values cfg rewards dones target_q_values !! i = Some y /\
       target_values cfg rewards dones other_q_values !! i = Some y' /\
       y == r /\ y' == r) /\
  (forall (prec emax : Z) (discount_factor r q : spec_float)
          (rewards target_q_values : list spec_float),
     rewards !! i = Some r ->
     dones !! i = Some true ->
     target_q_values !! i = Some q ->
     IEEE.finite discount_factor = true ->
     r <> S754_nan ->
     exists y,
       IEEE.target_values prec emax discount_factor rewards dones
                          target_q_values !! i = Some y /\
       (IEEE.finite q = true ->
        SFeqb y r = true /\ ((forall s, r <> S754_zero s) -> y = r)) /\
       (IEEE.finite q = false -> y = S754_nan)).
Proof.
  split.
  - intros rewards target_q_values other_q_values r Hd Hq Hq' Hr Hdone.
    assert (Hi : (i < length rewards)%nat) by (by eapply lookup_lt_Some).
    destruct (lookup_lt_is_Some_2 target_q_values i) as [q Hqi]; [lia|].
    destruct (lookup_lt_is_Some_2 other_q_values i) as [q' Hqi']; [lia|].
    exists (r + discount_factor cfg * Q_of_bool (negb true) * q)%Q,
           (r + discount_factor cfg * Q_of_bool (negb true) * q')%Q.
    unfold target_values.
    rewrite !lookup_zip_with, Hr, list_lookup_fmap, Hdone, Hqi, Hqi'.
    simpl. repeat split; try reflexivity; unfold Q_of_bool; ring.
  - intros prec emax g r q rewards target_q_values Hr Hdone Hq Hg Hnan.
    eexists. split.
    { unfold IEEE.target_values.
      rewrite !lookup_zip_with, Hr, list_lookup_fmap, Hdone, Hq.
      reflexivity. }
    cbn [negb IEEE.of_bool]. split.
    + intros Hfin. split.
      * destruct g as [sg|sg| |sg mg eg], q as [sq|sq| |sq mq eq],
                 r as [sr|sr| |sr mr er]; try discriminate; try done;
          cbn [SFmul SFadd]; try (by apply SFeqb_same);
          by destruct sr, (xorb _ _).
      * intros Hzero.
        destruct g as [sg|sg| |sg mg eg], q as [sq|sq| |sq mq eq],
                 r as [sr|sr| |sr mr er]; try discriminate; try done;
          by destruct (Hzero sr).
    + intros Hinf.
      by destruct g as [sg|sg| |sg mg eg], q as [sq|sq| |sq mq eq],
                  r as [sr|sr| |sr mr er].
Qed.

(** A terminal row with reward 5: over exact numbers with two different
    critic outputs at discount factor 99/100, and in [torch.float32]
    with the critic output 7 at discount factor 1/2. *)
Lemma terminal_target_is_reward_witness :
  (exists y y',
     target_values Samples.ddpg_cfg [1%Q; 5%Q] [false; true] [7%Q; 11%Q]
       !! 1%nat = Some y /\
     target_values Samples.ddpg_cfg [1%Q; 5%Q] [false; true] [7%Q; (-3)%Q]
       !! 1%nat = Some y' /\
     y == 5%Q /\ y' == 5%Q) /\
  IEEE.target_values 24 128 (IEEE.float32 1 (-1))
    [IEEE.float32 1 0; IEEE.float32 5 0] [false; true]
    [IEEE.float32 7 0; IEEE.float32 7 0] !! 1%nat
  = Some (IEEE.float32 5 0).
Proof.
  destruct (terminal_target_is_reward Samples.ddpg_cfg [false; true] 1)
    as [Hexact Hfloat].
  split; [by apply Hexact|].
  destruct (Hfloat 24 128 (IEEE.float32 1 (-1)) (IEEE.float32 5 0)
              (IEEE.float32 7 0) [IEEE.float32 1 0; IEEE.float32 5 0]
              [IEEE.float32 7 0; IEEE.float32 7 0])
    as (y & -> & Hfin & _); [first [reflexivity|done]..|].
  destruct Hfin as [_ Hy]; [reflexivity|].
  rewrite Hy; [reflexivity|]. by intros s.
Defined.

Lemma mul__nonempty (noises : list (list Q)) (scale : Q) :
  concat noises <> [] -> concat (mul_ noises scale) <> [].
Proof.
  unfold mul_. induction noises as [|row rest IH]; [done|].
  simpl. destruct row as [|x row]; simpl; [exact IH|done].
Qed.

(** C6. With exploration noise configured and past the random
    timesteps: up to the decay timesteps (the total timesteps when unset)
    the noise is scaled by
    [(1 - timestep / decay) * (initial - final) + final], added to the
    actions and the three noise metrics are tracked; the scale is the
    initial one at timestep 0 and the final one at the decay timestep;
    beyond the decay timesteps the actions of the policy are returned as
    they are and the three metrics are tracked with value 0. *)
Theorem exploration_noise_decay {Obs Params Memory Noise : Type}
    (c : Collaborators Obs Params Memory Noise) (cfg : Config)
    (st : State Params Memory Noise) (states : Obs)
    (timestep timesteps : Z) (noise : Noise) :
  let decay := default timesteps (exploration_timesteps st) in
  let actions :=
    policy_act c (params st) (state_preprocessor c states false) in
  let sampled := noise_sample c noise (shape actions) in
  let st' := {| params := params st; memory := memory st;
                secondary_memories := secondary_memories st;
                exploration_noise := Some sampled.1;
                exploration_timesteps := Some decay;
                log := log st |} in
  let scale :=
    ((1 - inject_Z timestep / inject_Z decay)
     * (exploration_initial_scale cfg - exploration_final_scale cfg)
     + exploration_final_scale cfg)%Q in
  exploration_noise st = Some noise ->
  random_timesteps cfg <= timestep ->
  (timestep <= decay -> decay <> 0 ->
     exploration_scale cfg timestep decay = Ok scale /\
     (concat sampled.2 <> [] ->
      exists noise_max noise_min noise_mean,
        tensor_max (concat (mul_ sampled.2 scale)) = Ok noise_max /\
        tensor_min (concat (mul_ sampled.2 scale)) = Ok noise_min /\
        tensor_mean (concat (mul_ sampled.2 scale)) = Ok noise_mean /\
        act c cfg st states timestep timesteps
        = Ok (tell st'
                [track_data "Exploration / Exploration noise (max)" noise_max;
                 track_data "Exploration / Exploration noise (min)" noise_min;
                 track_data "Exploration / Exploration noise (mean)"
                            noise_mean],
              clip cfg (add_ actions (mul_ sampled.2 scale))))) /\
  (decay <> 0 ->
     exists at_start at_decay,
       exploration_scale cfg 0 decay = Ok at_start /\
       at_start == exploration_initial_scale cfg /\
       exploration_scale cfg decay decay = Ok at_decay /\
       at_decay == exploration_final_scale cfg) /\
  (decay < timestep ->
     act c cfg st states timestep timesteps
     = Ok (tell st'
             [track_data "Exploration / Exploration noise (max)" 0;
              track_data "Exploration / Exploration noise (min)" 0;
              track_data "Exploration / Exploration noise (mean)" 0],
           actions)).
Proof.
  intros decay actions sampled st' scale Hnoise Hrandom.
  assert (Hact : act c cfg st states timestep timesteps =
    if decide (timestep <= decay) then
      scale ← exploration_scale cfg timestep decay;
      noise_max ← tensor_max (concat (mul_ sampled.2 scale));
      noise_min ← tensor_min (concat (mul_ sampled.2 scale));
      noise_mean ← tensor_mean (concat (mul_ sampled.2 scale));
      Ok (tell st'
            [track_data "Exploration / Exploration noise (max)" noise_max;
             track_data "Exploration / Exploration noise (min)" noise_min;
             track_data "Exploration / Exploration noise (mean)" noise_mean],
          clip cfg (add_ actions (mul_ sampled.2 scale)))
    else
      Ok (tell st'
            [track_data "Exploration / Exploration noise (max)" 0;
             track_data "Exploration / Exploration noise (min)" 0;
             track_data "Exploration / Exploration noise (mean)" 0],
          actions)).
  { unfold act. destruct (decide (timestep < random_timesteps cfg)); [lia|].
    rewrite Hnoise. fold actions. fold sampled.
    destruct sampled as [noise' noises]. reflexivity. }
  assert (Hscale : forall t, decay <> 0 ->
    exploration_scale cfg t decay
    = Ok ((1 - inject_Z t / inject_Z decay)
          * (exploration_initial_scale cfg - exploration_final_scale cfg)
          + exploration_final_scale cfg)%Q).
  { intros t Hd. unfold exploration_scale, true_div.
    destruct (decide (decay = 0)); [done|reflexivity]. }
  split; [|split].
  - intros Hle Hd. split; [by apply Hscale|].
    intros Hne. apply (mul__nonempty _ scale) in Hne.
    destruct (concat (mul_ sampled.2 scale)) as [|x l] eqn:E; [done|].
    eexists _, _, _. split; [reflexivity|]. split; [reflexivity|].
    split; [reflexivity|].
    rewrite Hact. destruct (decide (timestep <= decay)); [|lia].
    rewrite Hscale by done. simpl. fold scale. rewrite E. reflexivity.
  - intros Hd. eexists _, _. split; [by apply Hscale|].
    split; [|split; [by apply Hscale|]].
    + unfold Qdiv. change (inject_Z 0) with 0%Q. ring.
    + assert (Hd' : ~ inject_Z decay == 0).
      { intros H. apply Hd. unfold Qeq in H. simpl in H. lia. }
      field. exact Hd'.
  - intros Hgt. rewrite Hact. destruct (decide (timestep <= decay)); [lia|done].
Qed.

(** With 100 timesteps and no decay timesteps configured: the scale is 1
    at timestep 0 and 1/1000 at timestep 100; at timestep 50 the noise
    1/2 is scaled to 1001/4000 and added to the action 0; at timestep 150
    the action stays 0 and the metrics are tracked as 0. *)
Lemma exploration_noise_decay_witness :
  (exists at_start at_decay,
     exploration_scale Samples.ddpg_cfg 0 100 = Ok at_start /\
     at_start == 1 /\
     exploration_scale Samples.ddpg_cfg 100 100 = Ok at_decay /\
     at_decay == 1 # 1000) /\
  (exists st' a,
     act Samples.ddpg_collaborators Samples.ddpg_cfg Samples.ddpg_state [tt]
         50 100 = Ok (st', [[a]]) /\
     a == 1001 # 4000 /\ exploration_timesteps st' = Some 100) /\
  (exists st',
     act Samples.ddpg_collaborators Samples.ddpg_cfg Samples.ddpg_state [tt]
         150 100 = Ok (st', [[0%Q]]) /\
     log st' = [track_data "Exploration / Exploration noise (max)" 0;
                track_data "Exploration / Exploration noise (min)" 0;
                track_data "Exploration / Exploration noise (mean)" 0]).
Proof.
  split; [|split].
  - pose proof (exploration_noise_decay Samples.ddpg_collaborators
                  Samples.ddpg_cfg Samples.ddpg_state [tt] 0 100 tt) as H.
    cbv zeta in H. destruct H as (_ & H & _); [reflexivity|simpl; lia|].
    exact (H ltac:(discriminate)).
  - pose proof (exploration_noise_decay Samples.ddpg_collaborators
                  Samples.ddpg_cfg Samples.ddpg_state [tt] 50 100 tt) as H.
    cbv zeta in H. destruct H as (H & _ & _); [reflexivity|simpl; lia|].
    destruct H as [_ H]; [simpl; lia|discriminate|].
    destruct H as (? & ? & ? & _ & _ & _ & H); [discriminate|].
    eexists _, _. split; [exact H|]. split; reflexivity.
  - pose proof (exploration_noise_decay Samples.ddpg_collaborators
                  Samples.ddpg_cfg Samples.ddpg_state [tt] 150 100 tt) as H.
    cbv zeta in H. destruct H as (_ & _ & H); [reflexivity|simpl; lia|].
    eexists. split; [apply H; simpl; lia|reflexivity].
Defined.

Section UpdateLog.
Context {Obs Params Memory Noise : Type}.
Variable c : Collaborators Obs Params Memory Noise.
Variable cfg : Config.

Local Abbreviation step_effects := (step_effects cfg).

Lemma gradient_step_body_log (batch : Batch Obs) v g v' :
  gradient_step_body c cfg batch v g = Ok v' ->
  exists es, log (vars_state v') = log (vars_state v) ++ step_effects ++ es.
Proof.
  unfold gradient_step_body. intros H. inv_bind H.
  injection H as <-. unfold step_effects. simpl. eexists. reflexivity.
Qed.

Lemma gradient_steps_loop_log (batch : Batch Obs) steps v v' :
  gradient_steps_loop c cfg batch v steps = Ok v' ->
  exists es, log (vars_state v') = log (vars_state v) ++ es /\
             (steps <> [] -> forall e, In e step_effects -> In e es).
Proof.
  revert v. induction steps as [|g rest IH]; intros v H; simpl in H.
  - injection H as <-. exists []. by rewrite app_nil_r.
  - inv_bind H. apply gradient_step_body_log in E as [es1 H1].
    apply IH in H as (es2 & H2 & _).
    exists ((step_effects ++ es1) ++ es2). split.
    + rewrite H2, H1. by rewrite <- !app_assoc.
    + intros _ e He. apply in_or_app. left. apply in_or_app. by left.
Qed.

Lemma range_nonempty (lo hi : Z) : lo < hi -> range lo hi <> [].
Proof.
  intros H. unfold range.
  destruct (Z.to_nat (hi - lo)) eqn:E; [lia|done].
Qed.

Lemma ddpg_update_log st timestep timesteps st' :
  _update c cfg st timestep timesteps = Ok st' ->
  exists es, log st' = log st ++ memory_sample (batch_size cfg) :: es /\
             (0 < gradient_steps cfg ->
              forall e, In e step_effects -> In e es).
Proof.
  unfold _update. intros H. inv_bind H. injection H as <-.
  apply gradient_steps_loop_log in E0 as (es & Hlog & Hin). simpl in Hlog.
  exists es. split.
  - rewrite Hlog, <- app_assoc. reflexivity.
  - intros Hg. apply Hin. apply range_nonempty. lia.
Qed.

Lemma tensor_stats_total (entries : list Q) :
  entries <> [] ->
  is_Ok (tensor_max entries) /\ is_Ok (tensor_min entries)
  /\ is_Ok (tensor_mean entries).
Proof. destruct entries; [done|]. intros _. repeat split; by eexists. Qed.

Lemma zip_with_nonempty {A B C} (f : A -> B -> C) (l : list A) (k : list B) :
  l <> [] -> k <> [] -> zip_with f l k <> [].
Proof. by destruct l, k. Qed.

Lemma target_values_nonempty rewards dones target_q_values :
  rewards <> [] -> dones <> [] -> target_q_values <> [] ->
  target_values cfg rewards dones target_q_values <> [].
Proof.
  intros Hr Hd Hq. unfold target_values.
  apply zip_with_nonempty; [done|]. apply zip_with_nonempty; [|done].
  by destruct dones.
Qed.

(** The update returns when there is a memory and neither the sampled
    batch nor the outputs of the critics are empty. *)
Lemma ddpg_update_total st timestep timesteps m :
  memory st = Some m ->
  sampled_rewards (sample c m (batch_size cfg)) <> [] ->
  sampled_dones (sample c m (batch_size cfg)) <> [] ->
  (forall p states actions, critic_act c p states actions <> []) ->
  (forall p states actions, target_critic_act c p states actions <> []) ->
  is_Ok (_update c cfg st timestep timesteps).
Proof.
  intros Hm Hr Hd Hcritic Htarget. unfold _update. rewrite Hm. simpl.
  set (batch := sample c m (batch_size cfg)) in *.
  assert (Hloop : forall steps v,
            is_Ok (gradient_steps_loop c cfg batch v steps)).
  { induction steps as [|g steps IH]; intros v; [by eexists|].
    simpl. unfold gradient_step_body.
    assert (Htv : forall q, q <> [] ->
              target_values cfg (sampled_rewards batch) (sampled_dones batch) q
              <> []) by (intros; by apply target_values_nonempty).
    repeat match goal with
    | |- context [mse_loss ?a ?b] =>
        let H := fresh in
        assert (H : is_Ok (mse_loss a b))
          by (apply tensor_stats_total, zip_with_nonempty;
              [apply Hcritic|apply Htv, Htarget]);
        destruct H as [? ->]; simpl
    | |- context [tensor_mean ?a] =>
        let H := fresh in
        assert (H : is_Ok (tensor_mean a))
          by (apply tensor_stats_total; first [apply Hcritic|apply Htv, Htarget]);
        destruct H as [? ->]; simpl
    | |- context [tensor_max ?a] =>
        let H := fresh in
        assert (H : is_Ok (tensor_max a))
          by (apply tensor_stats_total; first [apply Hcritic|apply Htv, Htarget]);
        destruct H as [? ->]; simpl
    | |- context [tensor_min ?a] =>
        let H := fresh in
        assert (H : is_Ok (tensor_min a))
          by (apply tensor_stats_total; first [apply Hcritic|apply Htv, Htarget]);
        destruct H as [? ->]; simpl
    end.
    apply IH. }
  match goal with |- context [gradient_steps_loop c cfg batch ?v ?steps] =>
    destruct (Hloop steps v) as [v' ->] end.
  by eexists.
Qed.

Lemma ddpg_post_interaction_log st timestep timesteps st' :
  post_interaction c cfg st timestep timesteps = Ok st' ->
  exists es,
    log st' = log st ++ es ++ [AgentBase.post_interaction timestep timesteps] /\
    (learning_starts cfg <= timestep <-> In (memory_sample (batch_size cfg)) es) /\
    (timestep < learning_starts cfg -> es = []) /\
    (learning_starts cfg <= timestep -> 0 < gradient_steps cfg ->
     forall e, In e step_effects -> In e es).
Proof.
  unfold post_interaction. intros H. inv_bind H. injection H as <-.
  destruct (decide (timestep >= learning_starts cfg)) as [Hge|Hlt].
  - apply ddpg_update_log in E as (es & Hlog & Hin).
    exists (memory_sample (batch_size cfg) :: es). simpl. rewrite Hlog.
    split; [by rewrite <- app_assoc|]. split; [|split].
    + split; [by left|lia].
    + lia.
    + intros _ Hg e He. right. by apply Hin.
  - injection E as <-. exists []. split; [done|]. split; [|split].
    + split; [lia|by intros []].
    + done.
    + lia.
Qed.

End UpdateLog.

End DDPGFacts.

Module SARSAFacts.
Import AgentBase SARSA.

Lemma mapM_result_lookup {A B} (f : A -> result B) (l : list A) (l' : list B) :
  mapM f l = Ok l' ->
  length l' = length l /\
  forall (i : nat) x, l !! i = Some x -> exists y, l' !! i = Some y /\ f x = Ok y.
Proof.
  revert l'. induction l as [|x l IH]; intros l' H; simpl in H.
  - injection H as <-. split; [done|]. by intros [|i].
  - inv_bind H. injection H as <-. destruct (IH _ E0) as [Hlen Hi].
    split; [simpl; by rewrite Hlen|].
    intros [|i] x' Hx; simpl in *.
    + injection Hx as <-. by exists u.
    + by apply Hi.
Qed.

Lemma mapM_result_total {A B} (f : A -> result B) (l : list A) :
  (forall x, x ∈ l -> is_Ok (f x)) -> is_Ok (mapM f l).
Proof.
  induction l as [|x l IH]; intros H; simpl.
  - by eexists.
  - destruct (H x) as [y Hy]; [by left|]. rewrite Hy. simpl.
    destruct IH as [l' Hl']; [intros; apply H; by right|].
    rewrite Hl'. by eexists.
Qed.

Lemma rows_lookup (env_ids states actions : list Z) idxs :
  rows env_ids states actions = Ok idxs ->
  length idxs = length env_ids /\
  length states = length env_ids /\
  length actions = length env_ids /\
  forall (i : nat) idx, idxs !! i = Some idx ->
    env_ids !! i = Some idx.1.1 /\ states !! i = Some idx.1.2
    /\ actions !! i = Some idx.2.
Proof.
  revert states actions idxs.
  induction env_ids as [|e env_ids IH]; intros [|s states] [|a actions] idxs H;
    simpl in H; try discriminate.
  - injection H as <-. do 3 (split; [done|]). by intros [|i].
  - inv_bind H. injection H as <-.
    destruct (IH _ _ _ E) as (H1 & H2 & H3 & H4).
    simpl. do 3 (split; [congruence|]).
    intros [|i] idx Hi; simpl in *.
    + by injection Hi as <-.
    + by apply H4.
Qed.

Lemma rows_total (env_ids states actions : list Z) :
  length states = length env_ids -> length actions = length env_ids ->
  is_Ok (rows env_ids states actions).
Proof.
  revert states actions.
  induction env_ids as [|e env_ids IH]; intros [|s states] [|a actions] H1 H2;
    simpl in *; try discriminate.
  - by eexists.
  - destruct (IH states actions) as [l Hl]; [congruence..|].
    rewrite Hl. by eexists.
Qed.

Lemma range_lookup (n : Z) (i : nat) :
  Z.of_nat i < n -> range 0 n !! i = Some (Z.of_nat i).
Proof.
  intros H. unfold range. rewrite list_lookup_fmap, lookup_seq_lt by lia.
  simpl. f_equal.
Qed.

Lemma range_length (n : Z) : length (range 0 n) = Z.to_nat n.
Proof. unfold range. rewrite length_map, length_seq. lia. Qed.

Lemma index_lt (n : nat) (i : Z) (k : nat) : index n i = Ok k -> (k < n)%nat.
Proof.
  unfold index. intros H.
  destruct (decide (0 <= i < Z.of_nat n)); [injection H as <-; lia|].
  destruct (decide (- Z.of_nat n <= i < 0)); [injection H as <-; lia|done].
Qed.

Lemma index_of_nat (n i k : nat) : index n (Z.of_nat i) = Ok k -> k = i.
Proof.
  unfold index. intros H.
  destruct (decide (0 <= Z.of_nat i < Z.of_nat n)); [injection H as <-; lia|].
  destruct (decide (- Z.of_nat n <= Z.of_nat i < 0)); [lia|done].
Qed.

Lemma locate_entry (table : Table) idx pos :
  locate table idx = Ok pos -> is_Some (entry table pos).
Proof.
  destruct idx as [[e s] a]. unfold locate. intros H. inv_bind H.
  injection H as <-. simpl.
  apply index_lt in E, E0, E1.
  destruct (lookup_lt_is_Some_2 table u E) as [plane Hp].
  rewrite Hp in *. simpl in *.
  destruct (lookup_lt_is_Some_2 plane u0 E0) as [row Hr].
  rewrite Hr in *. simpl in *.
  by apply lookup_lt_is_Some_2.
Qed.

Lemma locate_env (table : Table) (i : nat) s a pos :
  locate table (Z.of_nat i, s, a) = Ok pos -> pos.1.1 = i.
Proof.
  unfold locate. intros H. inv_bind H. injection H as <-. simpl.
  by apply index_of_nat in E.
Qed.

Lemma entry_put_eq (table : Table) pos v :
  is_Some (entry table pos) -> entry (put table pos v) pos = Some v.
Proof.
  destruct pos as [[e s] a]. unfold entry, put. intros [q H].
  destruct (table !! e) as [plane|] eqn:He; [|done]. simpl in H.
  destruct (plane !! s) as [row|] eqn:Hs; [|done]. simpl in H.
  rewrite list_lookup_alter_eq, He. simpl.
  rewrite list_lookup_alter_eq, Hs. simpl.
  apply list_lookup_insert_eq. by eapply lookup_lt_Some.
Qed.

Lemma entry_put_ne (table : Table) pos pos' v :
  pos <> pos' -> entry (put table pos v) pos' = entry table pos'.
Proof.
  destruct pos as [[e s] a], pos' as [[e' s'] a']. unfold entry, put.
  intros Hne. destruct (decide (e = e')) as [<-|He];
    [|by rewrite list_lookup_alter_ne].
  rewrite list_lookup_alter_eq. destruct (table !! e) as [plane|]; [|done].
  simpl. destruct (decide (s = s')) as [<-|Hs];
    [|by rewrite list_lookup_alter_ne].
  rewrite list_lookup_alter_eq. destruct (plane !! s) as [row|]; [|done].
  simpl. apply list_lookup_insert_ne. congruence.
Qed.

Lemma entry_index_put_notin (table : Table) writes pos :
  pos ∉ writes.*1 -> entry (index_put table writes) pos = entry table pos.
Proof.
  revert table. induction writes as [|[p v] writes IH]; intros table H; [done|].
  simpl in *. apply not_elem_of_cons in H as [Hne H].
  rewrite IH by done. by apply entry_put_ne.
Qed.

Lemma entry_index_put_in (table : Table) writes pos v :
  NoDup writes.*1 -> (pos, v) ∈ writes -> is_Some (entry table pos) ->
  entry (index_put table writes) pos = Some v.
Proof.
  revert table. induction writes as [|[p v0] writes IH];
    intros table Hnd Hin Hsome; [by apply elem_of_nil in Hin|].
  simpl in *. apply NoDup_cons in Hnd as [Hp Hnd].
  apply elem_of_cons in Hin as [[= <- <-]|Hin].
  - rewrite entry_index_put_notin by done. by apply entry_put_eq.
  - apply IH; [done..|].
    rewrite entry_put_ne; [done|].
    intros ->. apply Hp. apply list_elem_of_fmap. by exists (pos, v).
Qed.

Lemma gather_lookup (table : Table) (env_ids states actions : list Z) current :
  gather table env_ids states actions = Ok current ->
  length current = length env_ids /\
  forall (i : nat) e s a,
    env_ids !! i = Some e -> states !! i = Some s -> actions !! i = Some a ->
    exists pos q, current !! i = Some (pos, q) /\
                  locate table (e, s, a) = Ok pos /\
                  entry table pos = Some q.
Proof.
  unfold gather. intros H. inv_bind H.
  apply rows_lookup in E as (Hlen & Hs & Ha & Hrows).
  apply mapM_result_lookup in H as [Hlen' Hi].
  split; [congruence|].
  intros i e s a He Hst Hac.
  destruct (lookup_lt_is_Some_2 u i) as [idx Hidx];
    [rewrite Hlen; by eapply lookup_lt_Some|].
  destruct (Hrows i idx Hidx) as (He' & Hs' & Ha').
  destruct idx as [[e' s'] a']. simpl in He', Hs', Ha'.
  assert (e' = e) as -> by congruence.
  assert (s' = s) as -> by congruence.
  assert (a' = a) as -> by congruence.
  destruct (Hi i _ Hidx) as ([pos q] & Hcur & Hf).
  inv_bind Hf. injection Hf as <- <-.
  exists u0, u1. split; [done|]. split; [done|].
  destruct (entry table u0); [by injection E0 as ->|done].
Qed.

Lemma gather_total (table : Table) (env_ids states actions : list Z) :
  length states = length env_ids -> length actions = length env_ids ->
  (forall (i : nat) e s a,
     env_ids !! i = Some e -> states !! i = Some s -> actions !! i = Some a ->
     is_Ok (locate table (e, s, a))) ->
  is_Ok (gather table env_ids states actions).
Proof.
  intros Hs Ha Hloc. unfold gather.
  destruct (rows_total env_ids states actions Hs Ha) as [idxs Hrows].
  rewrite Hrows. simpl. apply mapM_result_total.
  intros [[e s] a] Hin. apply list_elem_of_lookup in Hin as [i Hi].
  apply rows_lookup in Hrows as (_ & _ & _ & Hrows).
  destruct (Hrows i _ Hi) as (He & Hst & Hac). simpl in He, Hst, Hac.
  destruct (Hloc i e s a He Hst Hac) as [pos Hpos]. rewrite Hpos. simpl.
  destruct (locate_entry _ _ _ Hpos) as [q Hq]. rewrite Hq. by eexists.
Qed.

Lemma locate_put (table : Table) pos v idx :
  locate (put table pos v) idx = locate table idx.
Proof.
  destruct pos as [[pe ps] pa], idx as [[e s] a]. unfold locate, put.
  rewrite length_alter.
  destruct (index (length table) e) as [e0|]; [simpl|done].
  assert (Hplane : forall s0 : nat,
    length (default [] (default []
              (alter (alter (fun row => <[pa:=v]> row) ps) pe table !! e0)
              !! s0))
    = length (default [] (default [] (table !! e0) !! s0)) /\
    length (default []
              (alter (alter (fun row => <[pa:=v]> row) ps) pe table !! e0))
    = length (default [] (table !! e0))).
  { intros s0. destruct (decide (pe = e0)) as [<-|Hne];
      [|by rewrite list_lookup_alter_ne].
    rewrite list_lookup_alter_eq. destruct (table !! pe) as [plane|]; [|done].
    simpl. rewrite length_alter. split; [|done].
    destruct (decide (ps = s0)) as [<-|Hne];
      [|by rewrite list_lookup_alter_ne].
    rewrite list_lookup_alter_eq. destruct (plane !! ps) as [row|]; [|done].
    simpl. by rewrite length_insert. }
  rewrite (proj2 (Hplane 0%nat)).
  destruct (index _ s) as [s0|]; [simpl|done].
  by rewrite (proj1 (Hplane s0)).
Qed.

Lemma locate_index_put (table : Table) writes idx :
  locate (index_put table writes) idx = locate table idx.
Proof.
  revert table. induction writes as [|[p v] writes IH]; intros table; [done|].
  simpl. by rewrite IH, locate_put.
Qed.

Section Update.
Context {Memory : Type}.
Variable c : Collaborators Memory.
Variable cfg : Config.

Lemma new_entries_lookup current rewards dones next writes :
  new_entries cfg current rewards dones next = Ok writes ->
  length writes = length current /\
  forall (i : nat) pos q r d pos' q_next,
    current !! i = Some (pos, q) -> rewards !! i = Some r ->
    dones !! i = Some d -> next !! i = Some (pos', q_next) ->
    writes !! i = Some (pos, updated cfg q r d q_next).
Proof.
  revert rewards dones next writes.
  induction current as [|[p q0] current IH];
    intros [|r0 rewards] [|d0 dones] [|[p' qn0] next] writes H;
    simpl in H; try discriminate.
  - injection H as <-. split; [done|]. by intros [|i].
  - inv_bind H. injection H as <-. destruct (IH _ _ _ _ E) as [Hlen Hi].
    split; [simpl; congruence|].
    intros [|i] pos q r d pos' q_next Hc Hr Hd Hn; simpl in *.
    + by injection Hc as <- <-; injection Hr as <-; injection Hd as <-;
        injection Hn as <- <-.
    + by eapply Hi.
Qed.

Lemma new_entries_total current rewards dones next :
  length rewards = length current -> length dones = length current ->
  length next = length current ->
  is_Ok (new_entries cfg current rewards dones next).
Proof.
  revert rewards dones next.
  induction current as [|[p q0] current IH];
    intros [|r0 rewards] [|d0 dones] [|[p' qn0] next] H1 H2 H3;
    simpl in *; try discriminate.
  - by eexists.
  - destruct (IH rewards dones next) as [w Hw]; [congruence..|].
    rewrite Hw. by eexists.
Qed.

Lemma updated_rule q r d q_next :
  updated cfg q r d q_next
  == q + learning_rate cfg
         * (r + discount_factor cfg * (1 - Q_of_bool d) * q_next - q).
Proof. unfold updated. destruct d; simpl; ring. Qed.

(** C7. After [record_transition] has set the current transition, the
    update replaces the entry [Q[e, s, a]] of every recorded row by
    [Q[e,s,a] + learning_rate * (r + discount_factor * (1 - done)
    * Q[e,s',a'] - Q[e,s,a])], with [a'] the action of the policy for
    [s'] and all entries read before the update; every other entry, and
    the shape of the table, stay as they are. *)
Theorem sarsa_update_rule (st : State Memory) (timestep timesteps : Z)
    (states actions next_states : list Z) (rewards : list Q)
    (dones : list bool) :
  let next_actions := policy_act c (q_table st) next_states in
  _current_states st = Some states ->
  _current_actions st = Some actions ->
  _current_rewards st = Some rewards ->
  _current_next_states st = Some next_states ->
  _current_dones st = Some dones ->
  length states = length rewards ->
  length actions = length rewards ->
  length next_states = length rewards ->
  length dones = length rewards ->
  length next_actions = length rewards ->
  (forall (e : nat) s a,
     states !! e = Some s -> actions !! e = Some a ->
     is_Ok (locate (q_table st) (Z.of_nat e, s, a))) ->
  (forall (e : nat) s' a',
     next_states !! e = Some s' -> next_actions !! e = Some a' ->
     is_Ok (locate (q_table st) (Z.of_nat e, s', a'))) ->
  exists st',
    _update c cfg st timestep timesteps = Ok st' /\
    (forall (e : nat) s a r s' d a',
       states !! e = Some s -> actions !! e = Some a ->
       rewards !! e = Some r -> next_states !! e = Some s' ->
       dones !! e = Some d -> next_actions !! e = Some a' ->
       exists pos pos' q q_next v,
         locate (q_table st) (Z.of_nat e, s, a) = Ok pos /\
         entry (q_table st) pos = Some q /\
         locate (q_table st) (Z.of_nat e, s', a') = Ok pos' /\
         entry (q_table st) pos' = Some q_next /\
         entry (q_table st') pos = Some v /\
         v == q + learning_rate cfg
                  * (r + discount_factor cfg * (1 - Q_of_bool d) * q_next
                     - q)) /\
    (forall pos,
       (forall (e : nat) s a,
          states !! e = Some s -> actions !! e = Some a ->
          locate (q_table st) (Z.of_nat e, s, a) <> Ok pos) ->
       entry (q_table st') pos = entry (q_table st) pos) /\
    (forall idx, locate (q_table st') idx = locate (q_table st) idx).
Proof.
  intros next_actions Hst Hac Hre Hns Hdo Ls La Ln Ld Lna Hcur Hnext.
  set (n := length rewards) in *.
  assert (Hlen : length (range 0 (len rewards)) = n).
  { rewrite range_length. unfold len. lia. }
  assert (Hids : forall i : nat, (i < n)%nat ->
            range 0 (len rewards) !! i = Some (Z.of_nat i)).
  { intros i Hi. apply range_lookup. unfold len. lia. }
  assert (Hids' : forall (i : nat) e,
            range 0 (len rewards) !! i = Some e -> e = Z.of_nat i).
  { intros i e He. assert (i < n)%nat.
    { rewrite <- Hlen. by eapply lookup_lt_Some. }
    rewrite Hids in He by done. congruence. }
  destruct (gather_total (q_table st) (range 0 (len rewards)) states actions)
    as [current Hcurrent]; [lia..| |].
  { intros i e s a He Hs Ha. apply Hids' in He as ->. by eapply Hcur. }
  destruct (gather_total (q_table st) (range 0 (len rewards)) next_states
              next_actions) as [next Hnxt]; [lia..| |].
  { intros i e s a He Hs Ha. apply Hids' in He as ->. by eapply Hnext. }
  pose proof (gather_lookup _ _ _ _ _ Hcurrent) as [Lcur Gcur].
  pose proof (gather_lookup _ _ _ _ _ Hnxt) as [Lnxt Gnxt].
  destruct (new_entries_total current rewards dones next) as [writes Hw];
    [lia..|].
  pose proof (new_entries_lookup _ _ _ _ _ Hw) as [Lw Gw].
  assert (Hrow : forall (e : nat) s a r s' d a',
    states !! e = Some s -> actions !! e = Some a ->
    rewards !! e = Some r -> next_states !! e = Some s' ->
    dones !! e = Some d -> next_actions !! e = Some a' ->
    exists pos pos' q q_next,
      locate (q_table st) (Z.of_nat e, s, a) = Ok pos /\
      entry (q_table st) pos = Some q /\
      locate (q_table st) (Z.of_nat e, s', a') = Ok pos' /\
      entry (q_table st) pos' = Some q_next /\
      writes !! e = Some (pos, updated cfg q r d q_next)).
  { intros e s a r s' d a' Hs Ha Hr Hs' Hd Ha'.
    assert (He : (e < n)%nat) by (by eapply lookup_lt_Some).
    destruct (Gcur e _ s a (Hids e He) Hs Ha) as (pos & q & H1 & H2 & H3).
    destruct (Gnxt e _ s' a' (Hids e He) Hs' Ha')
      as (pos' & q_next & H4 & H5 & H6).
    exists pos, pos', q, q_next. repeat (split; [done|]).
    by eapply Gw. }
  assert (Hwrites : forall (i : nat) pos v,
    writes !! i = Some (pos, v) ->
    exists s a, states !! i = Some s /\ actions !! i = Some a /\
                locate (q_table st) (Z.of_nat i, s, a) = Ok pos).
  { intros i pos v Hi.
    assert (Hin : (i < n)%nat).
    { apply lookup_lt_Some in Hi. lia. }
    destruct (lookup_lt_is_Some_2 states i) as [s Hs]; [lia|].
    destruct (lookup_lt_is_Some_2 actions i) as [a Ha]; [lia|].
    destruct (lookup_lt_is_Some_2 rewards i) as [r Hr]; [done|].
    destruct (lookup_lt_is_Some_2 next_states i) as [s' Hs']; [lia|].
    destruct (lookup_lt_is_Some_2 dones i) as [d Hd]; [lia|].
    destruct (lookup_lt_is_Some_2 next_actions i) as [a' Ha']; [lia|].
    destruct (Hrow i s a r s' d a' Hs Ha Hr Hs' Hd Ha')
      as (pos0 & _ & q & q_next & H1 & _ & _ & _ & H5).
    exists s, a. repeat (split; [done|]). congruence. }
  assert (Hnodup : NoDup writes.*1).
  { apply NoDup_alt. intros i j pos Hi Hj.
    rewrite list_lookup_fmap in Hi, Hj.
    destruct (writes !! i) as [[p1 v1]|] eqn:Ei; [|done].
    destruct (writes !! j) as [[p2 v2]|] eqn:Ej; [|done].
    simpl in Hi, Hj. injection Hi as ->. injection Hj as ->.
    destruct (Hwrites i _ _ Ei) as (? & ? & _ & _ & H1).
    destruct (Hwrites j _ _ Ej) as (? & ? & _ & _ & H2).
    apply locate_env in H1, H2. congruence. }
  eexists. split.
  { unfold _update. rewrite Hre, Hns, Hst, Hac, Hdo. simpl.
    fold next_actions. rewrite Hcurrent, Hnxt. simpl. rewrite Hw.
    reflexivity. }
  simpl. split; [|split].
  - intros e s a r s' d a' Hs Ha Hr Hs' Hd Ha'.
    destruct (Hrow e s a r s' d a' Hs Ha Hr Hs' Hd Ha')
      as (pos & pos' & q & q_next & H1 & H2 & H3 & H4 & H5).
    exists pos, pos', q, q_next, (updated cfg q r d q_next).
    repeat (split; [done|]). split; [|apply updated_rule].
    apply entry_index_put_in; [done| |by rewrite H2].
    by eapply list_elem_of_lookup_2.
  - intros pos Hpos. apply entry_index_put_notin.
    intros Hin. apply list_elem_of_fmap in Hin as ([p v] & -> & Hin).
    apply list_elem_of_lookup in Hin as [i Hi].
    destruct (Hwrites i _ _ Hi) as (s & a & Hs & Ha & Hloc).
    by apply (Hpos i s a).
  - intros idx. apply locate_index_put.
Qed.

Lemma sarsa_update_log st timestep timesteps st' :
  _update c cfg st timestep timesteps = Ok st' ->
  exists rows, log st' = log st ++ [table_update rows].
Proof.
  unfold _update. intros H. inv_bind H. injection H as <-.
  by eexists.
Qed.

Lemma sarsa_post_interaction_log st timestep timesteps st' :
  post_interaction c cfg st timestep timesteps = Ok st' ->
  exists es,
    log st' = log st ++ es ++ [AgentBase.post_interaction timestep timesteps] /\
    (learning_starts cfg <= timestep <-> exists rows, es = [table_update rows]) /\
    (timestep < learning_starts cfg -> es = [] /\ q_table st' = q_table st).
Proof.
  unfold post_interaction. intros H. inv_bind H. injection H as <-.
  destruct (decide (timestep >= learning_starts cfg)) as [Hge|Hlt].
  - apply sarsa_update_log in E as (rows & Hlog).
    exists [table_update rows]. simpl. rewrite Hlog.
    split; [by rewrite <- app_assoc|]. split; [|lia].
    split; [by eexists|lia].
  - injection E as <-. exists []. split; [done|]. split; [|done].
    split; [lia|by intros [? ?]].
Qed.

End Update.

(** In the sample state, row 0 replaces [Q[0,0,1] = 4] by
    [4 + 1/2 * (1 + 99/100 * 1 * Q[0,1,0] - 4) = 349/100] with
    [Q[0,1,0] = 2], the terminal row 1 replaces [Q[1,1,0] = 8] by
    [8 + 1/2 * (3 - 8) = 11/2], and [Q[1,0,0]] stays 6. *)
Lemma sarsa_update_rule_witness :
  exists st',
    _update Samples.sarsa_collaborators Samples.sarsa_cfg
            Samples.sarsa_state 12 100 = Ok st' /\
    (exists v, entry (q_table st') (0, 0, 1)%nat = Some v /\ v == 349 # 100) /\
    (exists v, entry (q_table st') (1, 1, 0)%nat = Some v /\ v == 11 # 2) /\
    entry (q_table st') (1, 0, 0)%nat = Some 6%Q.
Proof.
  destruct (sarsa_update_rule Samples.sarsa_collaborators Samples.sarsa_cfg
              Samples.sarsa_state 12 100 [0; 1] [1; 0] [1; 0]
              [1%Q; 3%Q] [false; true])
    as (st' & Hupd & Hrow & Hother & _); try reflexivity.
  - intros [|[|e]] s a Hs Ha; simplify_eq/=; by eexists.
  - intros [|[|e]] s a Hs Ha; simplify_eq/=; by eexists.
  - exists st'. split; [exact Hupd|]. split; [|split].
    + destruct (Hrow 0%nat 0 1 1%Q 1 false 0)
        as (pos & pos' & q & q' & v & H1 & H2 & H3 & H4 & H5 & H6);
        try reflexivity.
      injection H1 as <-. injection H3 as <-.
      injection H2 as <-. injection H4 as <-.
      exists v. split; [exact H5|]. rewrite H6. reflexivity.
    + destruct (Hrow 1%nat 1 0 3%Q 0 true 0)
        as (pos & pos' & q & q' & v & H1 & H2 & H3 & H4 & H5 & H6);
        try reflexivity.
      injection H1 as <-. injection H3 as <-.
      injection H2 as <-. injection H4 as <-.
      exists v. split; [exact H5|]. rewrite H6. reflexivity.
    + rewrite Hother; [reflexivity|].
      intros [|[|e]] s a Hs Ha; simplify_eq/=; discriminate.
Defined.

End SARSAFacts.

Module LifecycleFacts.
Import AgentBase.

(** C3. [post_interaction] runs the update engine exactly from
    [learning_starts] on: before it the call does nothing but the
    tracking and checkpointing of the base class, so no gradient step, no
    soft update of a target network and no table update happens; from it
    on the update runs first.  Every call that returns has ended with
    the tracking and checkpointing of the base class, and the call
    returns whenever the update does (for DDPG: whenever there is a
    memory and neither the batch nor the outputs of the critics are
    empty). *)
Theorem update_gated_by_learning_starts
    {Obs Params Memory Noise SarsaMemory : Type}
    (dc : DDPG.Collaborators Obs Params Memory Noise) (dcfg : DDPG.Config)
    (dst : DDPG.State Params Memory Noise)
    (sc : SARSA.Collaborators SarsaMemory) (scfg : SARSA.Config)
    (sst : SARSA.State SarsaMemory) (timestep timesteps : Z) :
  ((timestep < DDPG.learning_starts dcfg ->
      DDPG.post_interaction dc dcfg dst timestep timesteps
      = Ok (DDPG.tell dst [post_interaction timestep timesteps])) /\
   (DDPG.learning_starts dcfg <= timestep ->
      DDPG.post_interaction dc dcfg dst timestep timesteps
      = (st ← DDPG._update dc dcfg dst timestep timesteps;
         Ok (DDPG.tell st [post_interaction timestep timesteps]))) /\
   (forall st',
      DDPG.post_interaction dc dcfg dst timestep timesteps = Ok st' ->
      exists es,
        DDPG.log st'
        = DDPG.log dst ++ es ++ [post_interaction timestep timesteps] /\
        (DDPG.learning_starts dcfg <= timestep
         <-> In (memory_sample (DDPG.batch_size dcfg)) es) /\
        (timestep < DDPG.learning_starts dcfg -> es = []) /\
        (DDPG.learning_starts dcfg <= timestep ->
         0 < DDPG.gradient_steps dcfg ->
         forall e, In e (DDPG.step_effects dcfg) -> In e es)) /\
   (forall m,
      DDPG.memory dst = Some m ->
      DDPG.sampled_rewards (DDPG.sample dc m (DDPG.batch_size dcfg)) <> [] ->
      DDPG.sampled_dones (DDPG.sample dc m (DDPG.batch_size dcfg)) <> [] ->
      (forall p states actions, DDPG.critic_act dc p states actions <> []) ->
      (forall p states actions,
         DDPG.target_critic_act dc p states actions <> []) ->
      is_Ok (DDPG.post_interaction dc dcfg dst timestep timesteps))) /\
  ((timestep < SARSA.learning_starts scfg ->
      SARSA.post_interaction sc scfg sst timestep timesteps
      = Ok (SARSA.tell sst [post_interaction timestep timesteps])) /\
   (SARSA.learning_starts scfg <= timestep ->
      SARSA.post_interaction sc scfg sst timestep timesteps
      = (st ← SARSA._update sc scfg sst timestep timesteps;
         Ok (SARSA.tell st [post_interaction timestep timesteps]))) /\
   (forall st',
      SARSA.post_interaction sc scfg sst timestep timesteps = Ok st' ->
      exists es,
        SARSA.log st'
        = SARSA.log sst ++ es ++ [post_interaction timestep timesteps] /\
        (SARSA.learning_starts scfg <= timestep
         <-> exists rows, es = [table_update rows]) /\
        (timestep < SARSA.learning_starts scfg ->
         es = [] /\ SARSA.q_table st' = SARSA.q_table sst)) /\
   (is_Ok (SARSA._update sc scfg sst timestep timesteps) ->
    is_Ok (SARSA.post_interaction sc scfg sst timestep timesteps))).
Proof.
  split; (split; [|split; [|split]]).
  - intros Hlt. unfold DDPG.post_interaction.
    destruct (decide (timestep >= DDPG.learning_starts dcfg)); [lia|done].
  - intros Hge. unfold DDPG.post_interaction.
    destruct (decide (timestep >= DDPG.learning_starts dcfg)); [done|lia].
  - intros st'. apply DDPGFacts.ddpg_post_interaction_log.
  - intros m Hm Hr Hd Hcritic Htarget. unfold DDPG.post_interaction.
    destruct (decide (timestep >= DDPG.learning_starts dcfg));
      [|by eexists].
    destruct (DDPGFacts.ddpg_update_total dc dcfg dst timestep timesteps m)
      as [st' ->]; [done..|]. by eexists.
  - intros Hlt. unfold SARSA.post_interaction.
    destruct (decide (timestep >= SARSA.learning_starts scfg)); [lia|done].
  - intros Hge. unfold SARSA.post_interaction.
    destruct (decide (timestep >= SARSA.learning_starts scfg)); [done|lia].
  - intros st'. apply SARSAFacts.sarsa_post_interaction_log.
  - intros [st' Hst']. unfold SARSA.post_interaction.
    destruct (decide (timestep >= SARSA.learning_starts scfg));
      [rewrite Hst'|]; by eexists.
Qed.

(** With learning from timestep 10 on: at timestep 3 both sample agents
    only write their tracking data; at timestep 12 DDPG takes a gradient
    step and SARSA updates its table before that. *)
Lemma update_gated_by_learning_starts_witness :
  DDPG.post_interaction Samples.ddpg_collaborators Samples.ddpg_cfg
    Samples.ddpg_state 3 100
  = Ok (DDPG.tell Samples.ddpg_state [post_interaction 3 100]) /\
  SARSA.post_interaction Samples.sarsa_collaborators Samples.sarsa_cfg
    Samples.sarsa_state 3 100
  = Ok (SARSA.tell Samples.sarsa_state [post_interaction 3 100]) /\
  (exists st',
     DDPG.post_interaction Samples.ddpg_collaborators Samples.ddpg_cfg
       Samples.ddpg_state 12 100 = Ok st' /\
     In (optimizer_step critic) (DDPG.log st') /\
     last (DDPG.log st') = Some (post_interaction 12 100)) /\
  (exists st',
     SARSA.post_interaction Samples.sarsa_collaborators Samples.sarsa_cfg
       Samples.sarsa_state 12 100 = Ok st' /\
     SARSA.log st' = [table_update 2; post_interaction 12 100]).
Proof.
  pose proof (update_gated_by_learning_starts Samples.ddpg_collaborators
                Samples.ddpg_cfg Samples.ddpg_state
                Samples.sarsa_collaborators Samples.sarsa_cfg
                Samples.sarsa_state 3 100) as [[Hd _] [Hs _]].
  pose proof (update_gated_by_learning_starts Samples.ddpg_collaborators
                Samples.ddpg_cfg Samples.ddpg_state
                Samples.sarsa_collaborators Samples.sarsa_cfg
                Samples.sarsa_state 12 100)
    as [(_ & _ & Hdlog & _) (_ & _ & Hslog & _)].
  split; [apply Hd; simpl; lia|]. split; [apply Hs; simpl; lia|]. split.
  - assert (Hrun : is_Ok (DDPG.post_interaction Samples.ddpg_collaborators
                            Samples.ddpg_cfg Samples.ddpg_state 12 100))
      by (eexists; vm_compute; reflexivity).
    destruct Hrun as [st' Hst'].
    destruct (Hdlog st' Hst') as (es & Hlog & _ & _ & Hin).
    exists st'. split; [exact Hst'|]. rewrite Hlog. split.
    + apply in_or_app. right. apply in_or_app. left.
      apply Hin; [simpl; lia..|]. by left.
    + simpl. apply last_snoc.
  - assert (Hrun : is_Ok (SARSA.post_interaction Samples.sarsa_collaborators
                            Samples.sarsa_cfg Samples.sarsa_state 12 100))
      by (eexists; vm_compute; reflexivity).
    destruct Hrun as [st' Hst'].
    destruct (Hslog st' Hst') as (es & Hlog & [Hge _] & _).
    destruct Hge as [rows ->]; [simpl; lia|].
    exists st'. split; [exact Hst'|].
    vm_compute in Hst'. injection Hst' as <-. reflexivity.
Defined.

End LifecycleFacts.

Module LoopFacts.
Import Trainer.

Section Loops.
Context {Obs Action Info EnvState AgentState : Type}.
Variable m : WrapperMethods Obs Action Info EnvState.
Variable ag : Agent Obs Action Info AgentState.
Variable headless : bool.
Variable timesteps : Z.

Local Abbreviation run_t := (Run Obs Action Info EnvState AgentState).

Lemma reset_environments_spec e (a : AgentState) next_states dones calls :
  exists c,
    run_calls (reset_environments m e a next_states dones calls)
    = calls ++ [c] /\
    phase_of c = ResetOrCopy /\
    run_agent (reset_environments m e a next_states dones calls) = a /\
    (run_states (reset_environments m e a next_states dones calls)
     = next_states \/
     exists e', run_states (reset_environments m e a next_states dones calls)
                = (reset m e').2).
Proof.
  unfold reset_environments. destruct (any dones).
  - destruct (reset m e) as [e' states] eqn:E. exists env_reset. simpl.
    repeat split. right. exists e. by rewrite E.
  - exists states_copy. simpl. repeat split. by left.
Qed.

Lemma train_step_calls (r r' : run_t) timestep :
  train_step m ag headless timesteps r timestep = Ok r' ->
  exists a0 a1 actions a2 a3 e calls,
    pre_interaction (class ag) (run_agent r) timestep timesteps = Ok a0 /\
    act (class ag) a0 (run_states r) timestep timesteps = Ok (a1, actions) /\
    let tr := {| states := run_states r; actions := actions;
                 rewards := (step m (run_env r) actions).2.1.1.2;
                 next_states := (step m (run_env r) actions).2.1.1.1;
                 dones := (step m (run_env r) actions).2.1.2;
                 infos := (step m (run_env r) actions).2.2 |} in
    record_transition (class ag) a1 tr timestep timesteps = Ok a2 /\
    post_interaction (class ag) a2 timestep timesteps = Ok a3 /\
    r' = reset_environments m e a3 (next_states tr) (dones tr)
           (run_calls r ++ calls) /\
    calls = [agent_pre_interaction timestep timesteps;
             agent_act (run_states r) timestep timesteps;
             env_step actions]
            ++ (if negb headless then [env_render] else [])
            ++ [agent_record_transition Own tr timestep timesteps;
                agent_post_interaction Own timestep timesteps].
Proof.
  unfold train_step. intros H. inv_bind H. destruct u0 as [a1 actions].
  destruct (step m (run_env r) actions) as [e [[[ns rw] dn] inf]] eqn:Es.
  simpl in H.
  destruct (negb headless) eqn:Eh; simpl in H; inv_bind H;
    injection H as <-; eexists _, _, _, _, _, _, _;
    (split; [exact E|]); (split; [exact E0|]); rewrite !Es; simpl;
    (split; [exact E1|]); (split; [exact E2|]);
    (split; [|reflexivity]); simpl; rewrite <- !app_assoc; reflexivity.
Qed.

Lemma eval_step_calls (r r' : run_t) timestep :
  eval_step m ag headless timesteps r timestep = Ok r' ->
  exists a1 actions a2 a3 e calls,
    act (class ag) (run_agent r) (run_states r) timestep timesteps
    = Ok (a1, actions) /\
    let tr := {| states := run_states r; actions := actions;
                 rewards := (step m (run_env r) actions).2.1.1.2;
                 next_states := (step m (run_env r) actions).2.1.1.1;
                 dones := (step m (run_env r) actions).2.1.2;
                 infos := (step m (run_env r) actions).2.2 |} in
    parent_record_transition (super ag) a1 tr timestep timesteps = Ok a2 /\
    parent_post_interaction (super ag) a2 timestep timesteps = Ok a3 /\
    r' = reset_environments m e a3 (next_states tr) (dones tr)
           (run_calls r ++ calls) /\
    calls = [agent_act (run_states r) timestep timesteps; env_step actions]
            ++ (if negb headless then [env_render] else [])
            ++ [agent_record_transition Super tr timestep timesteps;
                agent_post_interaction Super timestep timesteps].
Proof.
  unfold eval_step. intros H. inv_bind H. destruct u as [a1 actions].
  destruct (step m (run_env r) actions) as [e [[[ns rw] dn] inf]] eqn:Es.
  simpl in H.
  destruct (negb headless) eqn:Eh; simpl in H; inv_bind H;
    injection H as <-; eexists _, _, _, _, _, _;
    (split; [exact E|]); rewrite !Es; simpl;
    (split; [exact E0|]); (split; [exact E1|]);
    (split; [|reflexivity]); simpl; rewrite <- !app_assoc; reflexivity.
Qed.

Lemma for_each_invariant (P : run_t -> Prop)
    (body : run_t -> Z -> result run_t) (r r' : run_t) (steps : list Z) :
  (forall r timestep r', P r -> body r timestep = Ok r' -> P r') ->
  P r -> for_each body r steps = Ok r' -> P r'.
Proof.
  intros Hbody. revert r. induction steps as [|t steps IH]; intros r Hr H.
  - simpl in H. by injection H as <-.
  - simpl in H. inv_bind H. eapply IH; [|exact H]. by eapply Hbody.
Qed.

End Loops.

Section Loop.
Context {Obs Action Info EnvState AgentState : Type}.
Local Abbreviation run_t := (Run Obs Action Info EnvState AgentState).

Lemma single_agent_loop_inv body (tr : t (Agent Obs Action Info AgentState))
    (m : WrapperMethods Obs Action Info EnvState) (e : EnvState)
    (run : run_t) :
  single_agent_loop body tr m e = Ok run ->
  exists ag r,
    num_agents tr = 1 /\ agents tr = BareAgent ag /\
    for_each (body m ag (Trainer.headless tr) (Trainer.timesteps tr))
      {| run_env := (reset m e).1; run_agent := self ag;
         run_states := (reset m e).2; run_calls := [env_reset] |}
      (range (initial_timestep tr) (Trainer.timesteps tr)) = Ok r /\
    run = {| run_env := close m (run_env r); run_agent := run_agent r;
             run_states := run_states r;
             run_calls := run_calls r ++ [env_close] |}.
Proof.
  unfold single_agent_loop. intros H.
  destruct (decide (num_agents tr = 1)) as [Hn|]; [|done].
  destruct (agents tr) as [ag|]; [|done].
  destruct (reset m e) as [e' states]. inv_bind H. injection H as <-.
  by exists ag, u.
Qed.

End Loop.

Section WholeBatch.
Context {Obs Action Info EnvState AgentState : Type}.
Variable m : WrapperMethods Obs Action Info EnvState.
Variable n : Z.
Hypothesis Hbatched : batched n m.

Local Abbreviation run_t := (Run Obs Action Info EnvState AgentState).

Local Abbreviation all_whole := (fun r : run_t =>
  len (run_states r) = n /\ Forall (whole_batch n) (run_calls r)).

Lemma reset_environments_whole e (a : AgentState) next_states dones calls :
  len next_states = n -> Forall (whole_batch n) calls ->
  all_whole (reset_environments m e a next_states dones calls).
Proof.
  intros Hn Hcalls.
  destruct (reset_environments_spec m e a next_states dones calls)
    as (c & Hc & Hphase & _ & Hstates).
  split.
  - destruct Hstates as [->|[e' ->]]; [done|apply Hbatched].
  - rewrite Hc. apply Forall_app. split; [done|].
    constructor; [|done]. by destruct c.
Qed.

Lemma train_step_whole ag headless timesteps (r r' : run_t) timestep :
  all_whole r -> train_step m ag headless timesteps r timestep = Ok r' ->
  all_whole r'.
Proof.
  intros [Hs Hc] H.
  apply train_step_calls in H
    as (a0 & a1 & actions & a2 & a3 & e & calls & _ & _ & _ & _ & -> & ->).
  apply reset_environments_whole; [apply Hbatched|].
  apply Forall_app. split; [done|].
  destruct (negb headless); repeat constructor; try done; apply Hbatched.
Qed.

Lemma eval_step_whole ag headless timesteps (r r' : run_t) timestep :
  all_whole r -> eval_step m ag headless timesteps r timestep = Ok r' ->
  all_whole r'.
Proof.
  intros [Hs Hc] H.
  apply eval_step_calls in H
    as (a1 & actions & a2 & a3 & e & calls & _ & _ & _ & -> & ->).
  apply reset_environments_whole; [apply Hbatched|].
  apply Forall_app. split; [done|].
  destruct (negb headless); repeat constructor; try done; apply Hbatched.
Qed.

Lemma single_agent_loop_whole body tr e (run : run_t) :
  (forall ag headless timesteps r timestep r',
     all_whole r -> body m ag headless timesteps r timestep = Ok r' ->
     all_whole r') ->
  single_agent_loop body tr m e = Ok run ->
  Forall (whole_batch n) (run_calls run).
Proof.
  intros Hbody H.
  apply single_agent_loop_inv in H as (ag & r & _ & _ & Hfor & ->).
  apply (for_each_invariant all_whole) in Hfor as [_ Hcalls].
  - simpl. apply Forall_app. split; [done|]. by repeat constructor.
  - intros. by eapply Hbody.
  - split; [apply Hbatched|]. by repeat constructor.
Qed.

End WholeBatch.

Section EvalLoop.
Context {Obs Action Info EnvState AgentState : Type}.
Variable m : WrapperMethods Obs Action Info EnvState.

Local Abbreviation run_t := (Run Obs Action Info EnvState AgentState).

Lemma train_step_phases ag headless timesteps (r r' : run_t) timestep :
  train_step m ag headless timesteps r timestep = Ok r' ->
  exists calls, run_calls r' = run_calls r ++ calls /\
                phase_of <$> calls = PreInteraction :: step_phases headless Own.
Proof.
  intros H. apply train_step_calls in H
    as (a0 & a1 & actions & a2 & a3 & e & calls & _ & _ & _ & _ & -> & ->).
  destruct (reset_environments_spec m e a3
              (step m (run_env r) actions).2.1.1.1
              (step m (run_env r) actions).2.1.2
              (run_calls r ++ [agent_pre_interaction timestep timesteps;
                 agent_act (run_states r) timestep timesteps;
                 env_step actions]
                ++ (if negb headless then [env_render] else [])
                ++ [agent_record_transition Own
                      {| states := run_states r; actions := actions;
                         rewards := (step m (run_env r) actions).2.1.1.2;
                         next_states := (step m (run_env r) actions).2.1.1.1;
                         dones := (step m (run_env r) actions).2.1.2;
                         infos := (step m (run_env r) actions).2.2 |}
                      timestep timesteps;
                    agent_post_interaction Own timestep timesteps]))
    as (c & Hc & Hphase & _).
  simpl in Hc |- *. rewrite Hc. rewrite <- app_assoc. eexists. split; [done|].
  unfold step_phases.
  destruct (negb headless); simpl; by rewrite Hphase.
Qed.

Lemma eval_step_phases ag headless timesteps (r r' : run_t) timestep :
  eval_step m ag headless timesteps r timestep = Ok r' ->
  exists calls, run_calls r' = run_calls r ++ calls /\
                phase_of <$> calls = step_phases headless Super /\
                Forall (fun c => is_own_call c = false) calls.
Proof.
  intros H. apply eval_step_calls in H
    as (a1 & actions & a2 & a3 & e & calls & _ & _ & _ & -> & ->).
  destruct (reset_environments_spec m e a3
              (step m (run_env r) actions).2.1.1.1
              (step m (run_env r) actions).2.1.2
              (run_calls r ++ [agent_act (run_states r) timestep timesteps;
                 env_step actions]
                ++ (if negb headless then [env_render] else [])
                ++ [agent_record_transition Super
                      {| states := run_states r; actions := actions;
                         rewards := (step m (run_env r) actions).2.1.1.2;
                         next_states := (step m (run_env r) actions).2.1.1.1;
                         dones := (step m (run_env r) actions).2.1.2;
                         infos := (step m (run_env r) actions).2.2 |}
                      timestep timesteps;
                    agent_post_interaction Super timestep timesteps]))
    as (c & Hc & Hphase & _).
  simpl in Hc |- *. rewrite Hc. rewrite <- app_assoc. eexists. split; [done|].
  unfold step_phases.
  destruct (negb headless); simpl; rewrite Hphase; (split; [done|]);
    repeat constructor; by destruct c.
Qed.

Lemma eval_step_total ag headless timesteps (r : run_t) timestep :
  is_Ok (act (class ag) (run_agent r) (run_states r) timestep timesteps) ->
  (forall a tr, is_Ok (parent_record_transition (super ag) a tr timestep
                                                timesteps)) ->
  (forall a, is_Ok (parent_post_interaction (super ag) a timestep timesteps)) ->
  is_Ok (eval_step m ag headless timesteps r timestep).
Proof.
  intros [[a1 actions] Hact] Hrec Hpost. unfold eval_step.
  rewrite Hact. simpl.
  destruct (step m (run_env r) actions) as [e [[[ns rw] dn] inf]].
  destruct (negb headless).
  - match goal with |- context [parent_record_transition ?s ?a ?tr ?t ?ts] =>
      destruct (Hrec a tr) as [a2 ->] end.
    simpl. destruct (Hpost a2) as [a3 ->]. by eexists.
  - match goal with |- context [parent_record_transition ?s ?a ?tr ?t ?ts] =>
      destruct (Hrec a tr) as [a2 ->] end.
    simpl. destruct (Hpost a2) as [a3 ->]. by eexists.
Qed.

Lemma eval_no_own_calls tr e (run : run_t) :
  single_agent_eval tr m e = Ok run ->
  Forall (fun c => is_own_call c = false) (run_calls run).
Proof.
  intros H. apply single_agent_loop_inv in H as (ag & r & _ & _ & Hfor & ->).
  apply (for_each_invariant
           (fun r => Forall (fun c => is_own_call c = false) (run_calls r)))
    in Hfor.
  - simpl. apply Forall_app. split; [done|]. by repeat constructor.
  - intros r0 t r1 Hr0 Hstep.
    apply eval_step_phases in Hstep as (calls & -> & _ & Hcalls).
    by apply Forall_app.
  - by repeat constructor.
Qed.

(** What the agent has become after the eval loop, for a relation that
    [act] and the two methods of the parent class respect. *)
Lemma eval_respects (R : AgentState -> AgentState -> Prop) tr ag e
    (run : run_t) :
  (forall a, R a a) ->
  (forall a b c, R a b -> R b c -> R a c) ->
  (forall a states t ts a' actions,
     act (class ag) a states t ts = Ok (a', actions) -> R a a') ->
  (forall a tr t ts a',
     parent_record_transition (super ag) a tr t ts = Ok a' -> R a a') ->
  (forall a t ts a',
     parent_post_interaction (super ag) a t ts = Ok a' -> R a a') ->
  agents tr = BareAgent ag ->
  single_agent_eval tr m e = Ok run ->
  R (self ag) (run_agent run).
Proof.
  intros Hrefl Htrans Hact Hrec Hpost Hag H.
  apply single_agent_loop_inv in H as (ag' & r & _ & Hag' & Hfor & ->).
  assert (ag' = ag) as -> by congruence.
  apply (for_each_invariant (fun r => R (self ag) (run_agent r))) in Hfor.
  - done.
  - intros r0 t r1 Hr0 Hstep.
    apply eval_step_calls in Hstep
      as (a1 & actions & a2 & a3 & e' & calls & H1 & H2 & H3 & -> & _).
    destruct (reset_environments_spec m e' a3
      (step m (run_env r0) actions).2.1.1.1
      (step m (run_env r0) actions).2.1.2 (run_calls r0 ++ calls))
      as (c & _ & _ & Hagent & _).
    simpl in Hagent |- *. rewrite Hagent.
    eapply Htrans; [exact Hr0|]. eapply Htrans; [by eapply Hact|].
    eapply Htrans; [by eapply Hrec|by eapply Hpost].
  - apply Hrefl.
Qed.

End EvalLoop.

Import TrainerViews.

Section Handed.
Context {Obs Action Info EnvState AgentState : Type}.
Variable m : WrapperMethods Obs Action Info EnvState.
Variable n : Z.
Hypothesis Hbatched : batched n m.

Local Abbreviation run_t := (Run Obs Action Info EnvState AgentState).

Lemma train_step_batches ag headless timesteps (r r' : run_t) timestep :
  len (run_states r) = n ->
  train_step m ag headless timesteps r timestep = Ok r' ->
  len (run_states r') = n /\
  exists calls, run_calls r' = run_calls r ++ calls /\
                batches calls = [Acted timestep n; Recorded timestep n n].
Proof.
  intros Hn H. apply train_step_calls in H
    as (a0 & a1 & actions & a2 & a3 & e & calls & _ & _ & _ & _ & -> & ->).
  match goal with |- context [reset_environments m e a3 ?ns ?ds ?cs] =>
    destruct (reset_environments_spec m e a3 ns ds cs)
      as (c & Hc & Hphase & _ & Hstates) end.
  split.
  - destruct Hstates as [->|[e' ->]]; apply Hbatched.
  - rewrite Hc, <- app_assoc. eexists. split; [done|].
    destruct Hbatched as [_ Hstep].
    destruct (negb headless), c; try discriminate; simpl;
      by rewrite Hn, Hstep.
Qed.

Lemma eval_step_batches ag headless timesteps (r r' : run_t) timestep :
  len (run_states r) = n ->
  eval_step m ag headless timesteps r timestep = Ok r' ->
  len (run_states r') = n /\
  exists calls, run_calls r' = run_calls r ++ calls /\
                batches calls = [Acted timestep n; Recorded timestep n n].
Proof.
  intros Hn H. apply eval_step_calls in H
    as (a1 & actions & a2 & a3 & e & calls & _ & _ & _ & -> & ->).
  match goal with |- context [reset_environments m e a3 ?ns ?ds ?cs] =>
    destruct (reset_environments_spec m e a3 ns ds cs)
      as (c & Hc & Hphase & _ & Hstates) end.
  split.
  - destruct Hstates as [->|[e' ->]]; apply Hbatched.
  - rewrite Hc, <- app_assoc. eexists. split; [done|].
    destruct Hbatched as [_ Hstep].
    destruct (negb headless), c; try discriminate; simpl;
      by rewrite Hn, Hstep.
Qed.

Lemma for_each_batches (body : run_t -> Z -> result run_t) (r r' : run_t)
    (steps : list Z) :
  (forall r timestep r', len (run_states r) = n ->
     body r timestep = Ok r' ->
     len (run_states r') = n /\
     exists calls, run_calls r' = run_calls r ++ calls /\
                   batches calls = [Acted timestep n; Recorded timestep n n]) ->
  len (run_states r) = n ->
  for_each body r steps = Ok r' ->
  exists calls, run_calls r' = run_calls r ++ calls /\
                batches calls = whole_batches n steps.
Proof.
  intros Hbody. revert r. induction steps as [|t steps IH]; intros r Hn H.
  - simpl in H. injection H as <-. exists []. by rewrite app_nil_r.
  - simpl in H. inv_bind H.
    destruct (Hbody _ _ _ Hn E) as (Hn' & c1 & Hc1 & Hb1).
    destruct (IH _ Hn' H) as (c2 & Hc2 & Hb2).
    exists (c1 ++ c2). split; [by rewrite Hc2, Hc1, app_assoc|].
    unfold batches in *. rewrite omap_app, Hb1, Hb2. reflexivity.
Qed.

Lemma single_agent_loop_batches body tr e (run : run_t) :
  (forall ag headless timesteps r timestep r', len (run_states r) = n ->
     body m ag headless timesteps r timestep = Ok r' ->
     len (run_states r') = n /\
     exists calls, run_calls r' = run_calls r ++ calls /\
                   batches calls = [Acted timestep n; Recorded timestep n n]) ->
  single_agent_loop body tr m e = Ok run ->
  exists calls,
    run_calls run = env_reset :: calls ++ [env_close] /\
    batches calls
    = whole_batches n (range (initial_timestep tr) (Trainer.timesteps tr)).
Proof.
  intros Hbody H.
  apply single_agent_loop_inv in H as (ag & r & _ & _ & Hfor & ->).
  apply for_each_batches in Hfor as (calls & Hcalls & Hb).
  - exists calls. simpl in *. by rewrite Hcalls.
  - intros. by eapply Hbody.
  - apply Hbatched.
Qed.

End Handed.

Section Returns.
Context {Obs Action Info EnvState AgentState : Type}.
Variable m : WrapperMethods Obs Action Info EnvState.
Variable Inv : AgentState -> Prop.

Local Abbreviation run_t := (Run Obs Action Info EnvState AgentState).

Lemma for_each_returns (body : run_t -> Z -> result run_t) (r : run_t)
    (steps : list Z) :
  (forall r timestep, In timestep steps -> Inv (run_agent r) ->
     exists r', body r timestep = Ok r' /\ Inv (run_agent r')) ->
  Inv (run_agent r) -> is_Ok (for_each body r steps).
Proof.
  revert r. induction steps as [|t steps IH]; intros r Hbody Hr.
  - by eexists.
  - simpl. destruct (Hbody r t) as (r' & -> & Hr'); [by left|done|].
    simpl. apply IH; [|done]. intros. apply Hbody; [by right|done].
Qed.

Lemma train_step_returns ag headless timesteps steps (r : run_t) timestep :
  methods_return Inv ag timesteps steps ->
  In timestep steps -> Inv (run_agent r) ->
  exists r', train_step m ag headless timesteps r timestep = Ok r'
             /\ Inv (run_agent r').
Proof.
  intros (Hpre & Hact & Hrec & Hpost) Ht Hr. unfold train_step.
  destruct (Hpre _ _ Hr Ht) as (a0 & -> & H0). simpl.
  destruct (Hact a0 (run_states r) _ H0 Ht) as (a1 & actions & -> & H1).
  simpl. destruct (step m (run_env r) actions) as [e [[[ns rw] dn] inf]].
  destruct (negb headless);
    match goal with |- context [record_transition ?c ?a ?tr ?t ?ts] =>
      destruct (Hrec a tr t H1 Ht) as (a2 & -> & H2) end;
    simpl; destruct (Hpost _ _ H2 Ht) as (a3 & -> & H3); simpl;
    eexists; (split; [reflexivity|]);
    match goal with |- context [reset_environments m ?e a3 ?ns ?ds ?cs] =>
      by destruct (reset_environments_spec m e a3 ns ds cs)
        as (_ & _ & _ & -> & _) end.
Qed.

Lemma eval_step_returns ag headless timesteps steps (r : run_t) timestep :
  parent_methods_return Inv ag timesteps steps ->
  In timestep steps -> Inv (run_agent r) ->
  exists r', eval_step m ag headless timesteps r timestep = Ok r'
             /\ Inv (run_agent r').
Proof.
  intros (Hact & Hrec & Hpost) Ht Hr. unfold eval_step.
  destruct (Hact _ (run_states r) _ Hr Ht) as (a1 & actions & -> & H1).
  simpl. destruct (step m (run_env r) actions) as [e [[[ns rw] dn] inf]].
  destruct (negb headless);
    match goal with |- context [parent_record_transition ?c ?a ?tr ?t ?ts] =>
      destruct (Hrec a tr t H1 Ht) as (a2 & -> & H2) end;
    simpl; destruct (Hpost _ _ H2 Ht) as (a3 & -> & H3); simpl;
    eexists; (split; [reflexivity|]);
    match goal with |- context [reset_environments m ?e a3 ?ns ?ds ?cs] =>
      by destruct (reset_environments_spec m e a3 ns ds cs)
        as (_ & _ & _ & -> & _) end.
Qed.

Lemma single_agent_loop_returns body
    (tr : t (Agent Obs Action Info AgentState)) (e : EnvState) ag :
  num_agents tr = 1 -> agents tr = BareAgent ag -> Inv (self ag) ->
  (forall (r : run_t) timestep,
     In timestep (range (initial_timestep tr) (Trainer.timesteps tr)) ->
     Inv (run_agent r) ->
     exists r', body m ag (Trainer.headless tr) (Trainer.timesteps tr)
                     r timestep = Ok r' /\ Inv (run_agent r')) ->
  is_Ok (single_agent_loop body tr m e).
Proof.
  intros Hn Hag Hself Hbody. unfold single_agent_loop. rewrite Hag.
  destruct (decide (num_agents tr = 1)); [|done].
  destruct (reset m e) as [e' states].
  match goal with |- context [for_each ?b ?r ?steps] =>
    destruct (for_each_returns b r steps) as [r' ->] end;
    [exact Hbody|exact Hself|by eexists].
Qed.

End Returns.




End LoopFacts.

Module EvalFacts.
Import AgentBase Trainer LoopFacts.

Section Quiet.
Context {Obs Params Memory Noise Info SarsaMemory : Type}.

(** The agent has not learned between two states: same parameters and
    memories, and no effect of an update engine in between. *)
Local Abbreviation ddpg_quiet :=
  (fun st st' : DDPG.State Params Memory Noise =>
     DDPG.params st' = DDPG.params st /\
     DDPG.memory st' = DDPG.memory st /\
     DDPG.secondary_memories st' = DDPG.secondary_memories st /\
     exists es, DDPG.log st' = DDPG.log st ++ es /\
                Forall (fun e => Agents.is_update e = false) es).

Local Abbreviation sarsa_quiet :=
  (fun st st' : SARSA.State SarsaMemory =>
     SARSA.q_table st' = SARSA.q_table st /\
     SARSA.memory st' = SARSA.memory st /\
     exists es, SARSA.log st' = SARSA.log st ++ es /\
                Forall (fun e => Agents.is_update e = false) es).

Lemma ddpg_quiet_refl st : ddpg_quiet st st.
Proof. repeat split. exists []. by rewrite app_nil_r. Qed.

Lemma ddpg_quiet_trans st1 st2 st3 :
  ddpg_quiet st1 st2 -> ddpg_quiet st2 st3 -> ddpg_quiet st1 st3.
Proof.
  intros (H1 & H2 & H3 & es & H4 & H5) (H1' & H2' & H3' & es' & H4' & H5').
  repeat split; try congruence.
  exists (es ++ es'). split; [by rewrite H4', H4, app_assoc|].
  by apply Forall_app.
Qed.

Lemma ddpg_act_quiet (c : DDPG.Collaborators Obs Params Memory Noise) cfg st
    states timestep timesteps st' actions :
  DDPG.act c cfg st states timestep timesteps = Ok (st', actions) ->
  ddpg_quiet st st'.
Proof.
  unfold DDPG.act. intros H.
  destruct (decide (timestep < DDPG.random_timesteps cfg));
    [injection H as <- _; apply ddpg_quiet_refl|].
  destruct (DDPG.exploration_noise st) as [noise|];
    [|injection H as <- _; apply ddpg_quiet_refl].
  destruct (DDPG.noise_sample c noise _) as [noise' noises].
  destruct (decide _).
  - inv_bind H. injection H as <- _. simpl. repeat split.
    eexists. split; [done|]. by repeat constructor.
  - injection H as <- _. simpl. repeat split.
    eexists. split; [done|]. by repeat constructor.
Qed.

Lemma sarsa_quiet_refl st : sarsa_quiet st st.
Proof. repeat split. exists []. by rewrite app_nil_r. Qed.

Lemma sarsa_quiet_trans st1 st2 st3 :
  sarsa_quiet st1 st2 -> sarsa_quiet st2 st3 -> sarsa_quiet st1 st3.
Proof.
  intros (H1 & H2 & es & H4 & H5) (H1' & H2' & es' & H4' & H5').
  repeat split; try congruence.
  exists (es ++ es'). split; [by rewrite H4', H4, app_assoc|].
  by apply Forall_app.
Qed.

Lemma sarsa_act_quiet (c : SARSA.Collaborators SarsaMemory) cfg st
    states timestep timesteps st' actions :
  SARSA.act c cfg st states timestep timesteps = Ok (st', actions) ->
  sarsa_quiet st st'.
Proof.
  unfold SARSA.act. intros H.
  destruct (decide _); injection H as <- _; apply sarsa_quiet_refl.
Qed.

End Quiet.

(** The train step and the eval step of the sample agent differ in more
    than the class that [post_interaction] is sent to. *)
Lemma eval_is_not_train_with_parent_post_interaction :
  exists r_train r_eval,
    train_step Samples.env_methods Samples.ddpg_agent true 2 Samples.run 0
    = Ok r_train /\
    eval_step Samples.env_methods Samples.ddpg_agent true 2 Samples.run 0
    = Ok r_eval /\
    phase_of <$> run_calls r_train
    = [PreInteraction; Act; EnvironmentStep; RecordTransition Own;
       PostInteraction Own; ResetOrCopy] /\
    phase_of <$> run_calls r_eval
    = [Act; EnvironmentStep; RecordTransition Super; PostInteraction Super;
       ResetOrCopy] /\
    phase_of <$> run_calls r_eval
    <> bypass_post_interaction <$> (phase_of <$> run_calls r_train).
Proof.
  eexists _, _. split; [vm_compute; reflexivity|].
  split; [vm_compute; reflexivity|].
  split; [reflexivity|]. split; [reflexivity|]. discriminate.
Qed.

(** C9, as the code has it.  A step of the eval loop is [act], the
    environment step, the rendering unless headless, [record_transition]
    and [post_interaction] of the parent class, and the reset or copy of
    the states; a step of the train loop starts with [pre_interaction]
    and sends [record_transition] and [post_interaction] to the class of
    the agent: the eval step is the train step without
    [pre_interaction] and with both calls sent to the parent class.  The
    eval step returns whenever [act] and the two methods
    of the parent class do.  The eval loop never calls
    [pre_interaction], nor [record_transition] or [post_interaction] of
    the class of the agent, and leaves the parameters and the memory of a
    DDPG agent and the table of a SARSA agent as they were, without any
    effect of an update engine. *)
Theorem eval_lifecycle
    {Obs Action Info EnvState AgentState Params Memory Noise
       SarsaMemory : Type}
    (m : WrapperMethods Obs Action Info EnvState)
    (ag : Agent Obs Action Info AgentState) (headless : bool)
    (timesteps : Z) (r : Run Obs Action Info EnvState AgentState)
    (timestep : Z) (tr : t (Agent Obs Action Info AgentState))
    (e : EnvState)
    (dc : DDPG.Collaborators (list Obs) Params Memory Noise)
    (dcfg : DDPG.Config) (dst : DDPG.State Params Memory Noise)
    (dtr : t (Agent Obs (list Q) Info (DDPG.State Params Memory Noise)))
    (dm : WrapperMethods Obs (list Q) Info EnvState)
    (sc : SARSA.Collaborators SarsaMemory) (scfg : SARSA.Config)
    (sst : SARSA.State SarsaMemory)
    (str : t (Agent Z Z Info (SARSA.State SarsaMemory)))
    (sm : WrapperMethods Z Z Info EnvState) :
  (forall r', train_step m ag headless timesteps r timestep = Ok r' ->
     exists calls,
       run_calls r' = run_calls r ++ calls /\
       phase_of <$> calls = PreInteraction :: step_phases headless Own) /\
  (forall r', eval_step m ag headless timesteps r timestep = Ok r' ->
     exists calls,
       run_calls r' = run_calls r ++ calls /\
       phase_of <$> calls = step_phases headless Super) /\
  (forall r_train r_eval train_calls eval_calls,
     train_step m ag headless timesteps r timestep = Ok r_train ->
     eval_step m ag headless timesteps r timestep = Ok r_eval ->
     run_calls r_train = run_calls r ++ train_calls ->
     run_calls r_eval = run_calls r ++ eval_calls ->
     phase_of <$> eval_calls
     = to_parent <$> List.filter (fun p => negb (is_pre_interaction p))
                                 (phase_of <$> train_calls)) /\
  (is_Ok (act (class ag) (run_agent r) (run_states r) timestep timesteps) ->
   (forall a tr, is_Ok (parent_record_transition (super ag) a tr timestep
                                                 timesteps)) ->
   (forall a, is_Ok (parent_post_interaction (super ag) a timestep
                                             timesteps)) ->
   is_Ok (eval_step m ag headless timesteps r timestep)) /\
  (forall run, single_agent_eval tr m e = Ok run ->
     Forall (fun c => is_own_call c = false) (run_calls run)) /\
  (agents dtr = BareAgent (Agents.ddpg_agent dc dcfg dst) ->
   forall run, single_agent_eval dtr dm e = Ok run ->
     DDPG.params (run_agent run) = DDPG.params dst /\
     DDPG.memory (run_agent run) = DDPG.memory dst /\
     DDPG.secondary_memories (run_agent run) = DDPG.secondary_memories dst /\
     exists es, DDPG.log (run_agent run) = DDPG.log dst ++ es /\
                Forall (fun e => Agents.is_update e = false) es) /\
  (agents str = BareAgent (Agents.sarsa_agent sc scfg sst) ->
   forall run, single_agent_eval str sm e = Ok run ->
     SARSA.q_table (run_agent run) = SARSA.q_table sst /\
     SARSA.memory (run_agent run) = SARSA.memory sst /\
     exists es, SARSA.log (run_agent run) = SARSA.log sst ++ es /\
                Forall (fun e => Agents.is_update e = false) es).
Proof.
  split; [|split; [|split; [|split; [|split; [|split]]]]].
  - intros r'. apply train_step_phases.
  - intros r' H. apply eval_step_phases in H as (calls & H1 & H2 & _).
    by exists calls.
  - intros r_train r_eval train_calls eval_calls Htrain Heval Hc1 Hc2.
    apply train_step_phases in Htrain as (c1 & Hc1' & Hp1).
    apply eval_step_phases in Heval as (c2 & Hc2' & Hp2 & _).
    rewrite Hc1' in Hc1. apply app_inv_head in Hc1 as <-.
    rewrite Hc2' in Hc2. apply app_inv_head in Hc2 as <-.
    rewrite Hp1, Hp2. unfold step_phases. by destruct headless.
  - apply eval_step_total.
  - intros run. apply eval_no_own_calls.
  - intros Hag run Hrun.
    eapply (eval_respects dm (fun st st' =>
      DDPG.params st' = DDPG.params st /\
      DDPG.memory st' = DDPG.memory st /\
      DDPG.secondary_memories st' = DDPG.secondary_memories st /\
      exists es, DDPG.log st' = DDPG.log st ++ es /\
                 Forall (fun e => Agents.is_update e = false) es)
      dtr (Agents.ddpg_agent dc dcfg dst) e run);
      [apply ddpg_quiet_refl|apply ddpg_quiet_trans| | | |exact Hag|exact Hrun].
    + intros a states t ts a' actions. apply ddpg_act_quiet.
    + intros a tr' t ts a' H. simpl in H. injection H as <-. simpl.
      repeat split. eexists. split; [done|]. by repeat constructor.
    + intros a t ts a' H. simpl in H. injection H as <-. simpl.
      repeat split. eexists. split; [done|]. by repeat constructor.
  - intros Hag run Hrun.
    eapply (eval_respects sm (fun st st' =>
      SARSA.q_table st' = SARSA.q_table st /\
      SARSA.memory st' = SARSA.memory st /\
      exists es, SARSA.log st' = SARSA.log st ++ es /\
                 Forall (fun e => Agents.is_update e = false) es)
      str (Agents.sarsa_agent sc scfg sst) e run);
      [apply sarsa_quiet_refl|apply sarsa_quiet_trans| | | |exact Hag|exact Hrun].
    + intros a states t ts a' actions. apply sarsa_act_quiet.
    + intros a tr' t ts a' H. simpl in H. injection H as <-. simpl.
      repeat split. eexists. split; [done|]. by repeat constructor.
    + intros a t ts a' H. simpl in H. injection H as <-. simpl.
      repeat split. eexists. split; [done|]. by repeat constructor.
Qed.

(** Two timesteps of the eval loop of the sample DDPG agent and of the
    sample SARSA agent: both return, and neither agent has learned. *)
Lemma eval_lifecycle_witness :
  (exists run es,
     single_agent_eval Samples.ddpg_trainer Samples.env_methods tt = Ok run /\
     DDPG.log (run_agent run) = es /\
     Forall (fun e => Agents.is_update e = false) es) /\
  (exists run,
     single_agent_eval Samples.sarsa_trainer Samples.sarsa_env_methods tt
     = Ok run /\
     SARSA.q_table (run_agent run) = SARSA.q_table Samples.sarsa_state).
Proof.
  pose proof (eval_lifecycle Samples.env_methods Samples.ddpg_agent false 2
                Samples.run 0 Samples.ddpg_trainer tt
                Samples.ddpg_collaborators Samples.ddpg_cfg
                Samples.ddpg_state Samples.ddpg_trainer Samples.env_methods
                Samples.sarsa_collaborators Samples.sarsa_cfg
                Samples.sarsa_state Samples.sarsa_trainer
                Samples.sarsa_env_methods)
    as (_ & _ & _ & _ & _ & Hddpg & Hsarsa).
  split.
  - assert (Hrun : is_Ok (single_agent_eval Samples.ddpg_trainer
                            Samples.env_methods tt))
      by (eexists; vm_compute; reflexivity).
    destruct Hrun as [run Hrun].
    destruct (Hddpg eq_refl run Hrun) as (_ & _ & _ & es & Hlog & Hes).
    exists run, es. split; [exact Hrun|]. split; [exact Hlog|exact Hes].
  - assert (Hrun : is_Ok (single_agent_eval Samples.sarsa_trainer
                            Samples.sarsa_env_methods tt))
      by (eexists; vm_compute; reflexivity).
    destruct Hrun as [run Hrun].
    destruct (Hsarsa eq_refl run Hrun) as (Htable & _).
    exists run. split; [exact Hrun|exact Htable].
Defined.

End EvalFacts.

Module GaussianFacts.
Import MultivariateGaussianMixin.

Lemma for_role_unregistered {V} (d : gmap string V) (role : string) :
  d !! role = None -> for_role d role = subscript d default_role.
Proof.
  intros H. unfold for_role.
  destruct (decide (role ∈ dom d)) as [Hin|]; [|done].
  apply elem_of_dom in Hin as [v Hv]. congruence.
Qed.

Lemma for_role_default {V} (d : gmap string V) :
  for_role d default_role = subscript d default_role.
Proof. unfold for_role. by destruct (decide _). Qed.

Lemma for_role_registered {V} (d : gmap string V) (role : string) :
  is_Some (d !! role) -> for_role d role = subscript d role.
Proof.
  intros H. unfold for_role.
  destruct (decide (role ∈ dom d)) as [|Hnot]; [done|].
  destruct Hnot. by apply elem_of_dom.
Qed.

Section Mixin.
Context {Tensor Distribution : Type}.
Variable T : Torch Tensor Distribution.

Lemma get_entropy_none (self : Mixin Tensor Distribution) role :
  for_role (_mg_distribution self) role = Ok None ->
  get_entropy T self role = Ok (zero T).
Proof. unfold get_entropy. by intros ->. Qed.

Lemma __init___no_distribution_yet (self : Mixin Tensor Distribution)
    clip_actions clip_log_std min_log_std max_log_std role :
  no_distribution_yet self ->
  no_distribution_yet
    (__init__ self clip_actions clip_log_std min_log_std max_log_std role).
Proof.
  intros H r d. simpl. rewrite lookup_insert.
  destruct (decide (role = r)); [by intros [= <-]|apply H].
Qed.

Lemma act_keeps_other_roles (self self' : Mixin Tensor Distribution)
    states taken_actions role role' out :
  role' <> role ->
  act T self states taken_actions role' = Ok (self', out) ->
  _mg_distribution self' !! role = _mg_distribution self !! role /\
  _mg_log_std self' !! role = _mg_log_std self !! role /\
  _mg_num_samples self' !! role = _mg_num_samples self !! role.
Proof.
  intros Hne H. unfold act in H.
  destruct (compute T states taken_actions role') as [mean log_std].
  inv_bind H. inv_bind H. inv_bind H. inv_bind H. injection H as <- _.
  simpl. by rewrite !lookup_insert_ne.
Qed.

(** C10. Every lookup under a role that a dict does not hold reads the
    entry of the empty role: [act] then clamps and clips by the flags
    and bounds of the empty role, and [get_entropy], [get_log_std] and
    [distribution] return what the entry of the empty role gives: its
    distribution, the entropy of that distribution (the zero scalar when
    there is none yet), and its log standard deviation repeated as many
    times as its number of samples.  [get_entropy] returns the zero
    scalar for a role whose entry holds no distribution: right after
    [__init__] for the role, still after a call of [act] for another
    role, and for an unregistered role whenever the entry of the empty
    role holds none.  [__init__] stores no distribution. *)
Theorem role_lookups_fall_back (self : Mixin Tensor Distribution)
    (states : Tensor) (taken_actions : option Tensor) (role : string) :
  (forall V (d : gmap string V),
     d !! role = None -> for_role d role = subscript d default_role) /\
  (_mg_clip_log_std self !! role = None ->
   _mg_log_std_min self !! role = None ->
   _mg_log_std_max self !! role = None ->
   _mg_clip_actions self !! role = None ->
   act T self states taken_actions role
   = act_under T default_role self states taken_actions role) /\
  (_mg_distribution self !! role = None ->
   get_entropy T self role = get_entropy T self default_role /\
   distribution self role = distribution self default_role) /\
  (_mg_log_std self !! role = None -> _mg_num_samples self !! role = None ->
   get_log_std T self role = get_log_std T self default_role) /\
  (no_distribution_yet self ->
   is_Some (_mg_distribution self !! role)
   \/ is_Some (_mg_distribution self !! default_role) ->
   get_entropy T self role = Ok (zero T)) /\
  (forall clip_actions clip_log_std min_log_std max_log_std,
     get_entropy T (__init__ self clip_actions clip_log_std min_log_std
                             max_log_std role) role = Ok (zero T) /\
     (_mg_distribution self !! role = None ->
      get_entropy T (__init__ self clip_actions clip_log_std min_log_std
                              max_log_std default_role) role = Ok (zero T)) /\
     (no_distribution_yet self ->
      no_distribution_yet (__init__ self clip_actions clip_log_std
                                    min_log_std max_log_std role))) /\
  (forall d,
     _mg_distribution self !! role = None ->
     _mg_distribution self !! default_role = Some d ->
     distribution self role = Ok d /\
     get_entropy T self role
     = Ok (match d with
           | Some d => entropy T d
           | None => zero T
           end)) /\
  (forall log_std num_samples,
     _mg_log_std self !! role = None ->
     _mg_num_samples self !! role = None ->
     _mg_log_std self !! default_role = Some (Some log_std) ->
     _mg_num_samples self !! default_role = Some (Some num_samples) ->
     get_log_std T self role = Ok (repeat T log_std num_samples)) /\
  (forall flag lo hi clip self' actions log_prob actions_mean,
     _mg_clip_log_std self !! role = None ->
     _mg_log_std_min self !! role = None ->
     _mg_log_std_max self !! role = None ->
     _mg_clip_actions self !! role = None ->
     _mg_clip_log_std self !! default_role = Some flag ->
     _mg_log_std_min self !! default_role = Some lo ->
     _mg_log_std_max self !! default_role = Some hi ->
     _mg_clip_actions self !! default_role = Some clip ->
     act T self states taken_actions role
     = Ok (self', (actions, log_prob, actions_mean)) ->
     let computed := compute T states taken_actions role in
     let log_std := if flag : bool then clamp T computed.2 lo hi
                    else computed.2 in
     let d := MultivariateNormal T computed.1 (covariance T log_std) in
     actions_mean = computed.1 /\
     _mg_log_std self' !! role = Some (Some log_std) /\
     _mg_distribution self' !! role = Some (Some d) /\
     (if clip : bool then clip_actions T self' (rsample T d)
      else Ok (rsample T d)) = Ok actions) /\
  (_mg_distribution self !! role = Some None ->
   get_entropy T self role = Ok (zero T)) /\
  (forall role' states' taken_actions' self' out,
     role' <> role ->
     act T self states' taken_actions' role' = Ok (self', out) ->
     _mg_distribution self' !! role = _mg_distribution self !! role /\
     (is_Some (_mg_distribution self !! role) ->
      distribution self' role = distribution self role /\
      get_entropy T self' role = get_entropy T self role) /\
     (_mg_distribution self !! role = Some None ->
      get_entropy T self' role = Ok (zero T))).
Proof.
  assert (Hzero : forall self0 : Mixin Tensor Distribution,
            _mg_distribution self0 !! role = Some None ->
            get_entropy T self0 role = Ok (zero T)).
  { intros self0 H. apply get_entropy_none.
    rewrite for_role_registered by (rewrite H; by eexists).
    unfold subscript. by rewrite H. }
  split; [intros V d; apply for_role_unregistered|].
  split; [|split; [|split; [|split; [|split]]]].
  - intros H1 H2 H3 H4. unfold act, act_under.
    destruct (compute T states taken_actions role) as [actions_mean log_std].
    cbn [_mg_clip_actions].
    by rewrite (for_role_unregistered _ role H1),
      (for_role_unregistered _ role H2), (for_role_unregistered _ role H3),
      (for_role_unregistered _ role H4).
  - intros H. unfold get_entropy, distribution.
    by rewrite (for_role_unregistered _ role H), for_role_default.
  - intros H1 H2. unfold get_log_std.
    by rewrite (for_role_unregistered _ role H1),
      (for_role_unregistered _ role H2), !for_role_default.
  - intros Hnone Hreg. apply get_entropy_none.
    destruct (_mg_distribution self !! role) as [d|] eqn:E.
    + rewrite for_role_registered by (by rewrite E).
      unfold subscript. rewrite E. by rewrite (Hnone _ _ E).
    + destruct Hreg as [[? ?]|[d Hd]]; [done|].
      rewrite for_role_unregistered by done.
      unfold subscript. rewrite Hd. by rewrite (Hnone _ _ Hd).
  - intros clip_actions clip_log_std min_log_std max_log_std.
    split; [|split; [|apply __init___no_distribution_yet]].
    + apply get_entropy_none. rewrite for_role_registered; simpl.
      * unfold subscript. by rewrite lookup_insert_eq.
      * rewrite lookup_insert_eq. by eexists.
    + intros H. apply get_entropy_none. simpl.
      destruct (decide (role = default_role)) as [->|Hne].
      * rewrite for_role_registered; simpl.
        -- unfold subscript. by rewrite lookup_insert_eq.
        -- rewrite lookup_insert_eq. by eexists.
      * rewrite for_role_unregistered; simpl.
        -- unfold subscript. by rewrite lookup_insert_eq.
        -- by rewrite lookup_insert_ne.
  - split; [|split; [|split; [|split]]].
    + intros d Hrole Hdef. unfold get_entropy, distribution.
      rewrite (for_role_unregistered _ role Hrole). unfold subscript.
      rewrite Hdef. by destruct d.
    + intros log_std num_samples H1 H2 H3 H4. unfold get_log_std.
      rewrite (for_role_unregistered _ role H1),
        (for_role_unregistered _ role H2). unfold subscript.
      by rewrite H3, H4.
    + intros flag lo hi clip self' actions log_prob actions_mean
        H1 H2 H3 H4 D1 D2 D3 D4 H. unfold act in H.
      destruct (compute T states taken_actions role) as [mean log_std0].
      cbn [_mg_clip_actions] in H.
      rewrite (for_role_unregistered _ role H1),
        (for_role_unregistered _ role H2), (for_role_unregistered _ role H3),
        (for_role_unregistered _ role H4) in H.
      unfold subscript in H. rewrite D1, D2, D3, D4 in H.
      cbv zeta. cbn [fst snd].
      destruct flag; simpl in H; inv_bind H; injection H as <- <- _ <-;
        simpl; rewrite !lookup_insert_eq; repeat split;
        by destruct clip.
    + apply Hzero.
    + intros role' states' taken_actions' self' out Hne H.
      destruct (act_keeps_other_roles _ _ _ _ _ _ _ Hne H) as (Hd & _).
      split; [done|]. split.
      * intros Hreg. unfold get_entropy, distribution.
        rewrite !for_role_registered by (by rewrite ?Hd).
        unfold subscript. by rewrite Hd.
      * intros Hnone. apply Hzero. by rewrite Hd.
Qed.

End Mixin.

(** On a model set up with the default role only: [get_entropy] for the
    role ["policy"] returns the zero scalar before any [act], and [act]
    for ["policy"] clamps and clips as for the empty role.  After [act]
    for the empty role, [get_entropy] and [get_log_std] for ["policy"]
    return the entropy 7 and the log standard deviation 0 that the empty
    role holds, while a role ["value"] registered before that call
    still has the zero scalar as its entropy. *)
Lemma role_lookups_fall_back_witness :
  get_entropy Samples.torch Samples.gaussian "policy" = Ok 0%Q /\
  act Samples.torch Samples.gaussian 3%Q None "policy"
  = act_under Samples.torch default_role Samples.gaussian 3%Q None
              "policy" /\
  get_log_std Samples.torch Samples.gaussian "policy"
  = get_log_std Samples.torch Samples.gaussian default_role /\
  (exists self' out,
     act Samples.torch
         (__init__ Samples.gaussian false true (-20) 2 "value")
         3%Q None default_role = Ok (self', out) /\
     get_entropy Samples.torch self' "policy" = Ok 7%Q /\
     get_log_std Samples.torch self' "policy" = Ok 0%Q /\
     get_entropy Samples.torch self' "value" = Ok 0%Q).
Proof.
  destruct (role_lookups_fall_back Samples.torch Samples.gaussian 3%Q None
              "policy") as (_ & Hact & _ & Hstd & Hentropy & _).
  split; [|split; [|split]].
  - apply Hentropy.
    + intros r d. unfold Samples.gaussian. simpl. rewrite lookup_insert.
      destruct (decide (default_role = r)); [by intros [= <-]|].
      by rewrite lookup_empty.
    + right. by eexists.
  - by apply Hact.
  - by apply Hstd.
  - assert (H : is_Ok (act Samples.torch
                         (__init__ Samples.gaussian false true (-20) 2 "value")
                         3%Q None default_role))
      by (eexists; vm_compute; reflexivity).
    destruct H as [[self' out] H]. exists self', out. split; [exact H|].
    destruct (role_lookups_fall_back Samples.torch
                (__init__ Samples.gaussian false true (-20) 2 "value")
                3%Q None "value")
      as (_ & _ & _ & _ & _ & _ & _ & _ & _ & _ & Hother).
    destruct (Hother default_role 3%Q None self' out ltac:(done) H)
      as (_ & _ & Hvalue).
    destruct (role_lookups_fall_back Samples.torch self' 3%Q None "policy")
      as (_ & _ & _ & _ & _ & _ & Hdist & Hlog & _).
    vm_compute in H. injection H as <- _.
    split; [|split].
    + by destruct (Hdist (Some 3%Q) eq_refl eq_refl) as [_ ->].
    + by rewrite (Hlog 0%Q 1 eq_refl eq_refl eq_refl eq_refl).
    + apply Hvalue. reflexivity.
Defined.

End GaussianFacts.

(* ------------------------------------------------------------------ *)
(** * Further properties *)

Module TrainerMore.
Import Trainer TrainerViews TrainerFacts.

Lemma add_to_last_spec (l l' : list Z) (d : Z) :
  add_to_last l d = Ok l' -> length l' = length l /\ sum l' = sum l + d.
Proof.
  revert l'. induction l as [|x l IH]; intros l' H; [done|].
  destruct l as [|y l].
  - simpl in H. injection H as <-. unfold sum. simpl. split; [done|lia].
  - change (add_to_last (x :: y :: l) d)
      with (add_to_last (y :: l) d ≫= fun rest' => Ok (x :: rest')) in H.
    inv_bind H. injection H as <-. destruct (IH _ E) as [Hlen Hsum].
    split; [simpl in *; lia|]. unfold sum in *. simpl in *. lia.
Qed.

Lemma add_to_last_total (l : list Z) (d : Z) :
  l <> [] -> is_Ok (add_to_last l d).
Proof.
  induction l as [|x l IH]; [done|]. intros _.
  destruct l as [|y l]; [by eexists|].
  change (add_to_last (x :: y :: l) d)
    with (add_to_last (y :: l) d ≫= fun rest' => Ok (x :: rest')).
  destruct IH as [l' ->]; [done|]. by eexists.
Qed.

(** What a constructor call with two agents or more has built when it
    returns: ranges made from sizes, one per agent, that sum to the number
    of environments. *)
Lemma __init___parallel {Agent} (env : Wrapper) (l : list Agent)
    (scope : list Z) (cfg : Cfg) (tr : t Agent) :
  1 < len l ->
  __init__ env (AgentList l) scope cfg = Ok tr ->
  exists sizes,
    len sizes = len l /\ sum sizes = num_envs env /\
    (scope <> [] -> sizes = scope) /\
    tr = {| env := env; agents := AgentList l;
            agents_scope := generate_agents_scopes 0 sizes;
            num_agents := len l;
            timesteps := default 0 (cfg_timesteps cfg);
            headless := default false (cfg_headless cfg);
            initial_timestep := 0 |}.
Proof.
  intros Hn H. unfold __init__, _setup_agents in H.
  destruct l as [|a [|b l']]; [by cbn in Hn|by cbn in Hn|].
  set (l0 := a :: b :: l') in *.
  inv_bind H. destruct u as [[ag sc] n]. injection H as <-.
  inv_bind E. injection E as <- <- <-. exists u. 
  destruct (decide (len scope = 0)) as [H0|H0].
  - destruct (decide _) as [Hne|]; [|done].
    apply add_to_last_spec in E0 as [Hlen Hsum].
    unfold list_mul in *. rewrite length_replicate in Hlen.
    split; [unfold len in *; lia|]. split; [lia|]. split; [|done].
    intros Hs. destruct scope; [done|]. unfold len in H0. simpl in H0. lia.
  - destruct (decide (len scope ≠ len l0)); [done|].
    destruct (decide (sum scope ≠ num_envs env)); [done|].
    injection E0 as <-. split; [lia|]. split; [lia|]. done.
Qed.

Lemma scope_size_generate (sizes : list Z) (index : Z) :
  scope_size <$> generate_agents_scopes index sizes = sizes.
Proof.
  revert index. induction sizes as [|s rest IH]; intros index; [done|].
  simpl. rewrite IH. f_equal. lia.
Qed.

Lemma chained_generate (sizes : list Z) (index : Z) :
  chained index (generate_agents_scopes index sizes) (index + sum sizes).
Proof.
  revert index. induction sizes as [|s rest IH]; intros index.
  - unfold sum. simpl. lia.
  - replace (index + sum (s :: rest)) with (index + s + sum rest)
      by (unfold sum; simpl; lia).
    cbn [generate_agents_scopes chained]. split; [lia|apply IH].
Qed.

(** X1. Scopes given by hand whose sizes are not negative, one per agent
    and summing to the number of environments, are accepted, and the
    ranges made from them partition [[0, num_envs)]. *)
Theorem explicit_scopes_partition {Agent} (env : Wrapper) (l : list Agent)
    (scope : list Z) (cfg : Cfg) :
  1 < len l -> len scope = len l -> sum scope = num_envs env ->
  Forall (fun s => 0 <= s) scope ->
  exists tr,
    __init__ env (AgentList l) scope cfg = Ok tr /\
    partitions (agents_scope tr) (num_envs env).
Proof.
  intros Hn Hlen Hsum Hpos.
  assert (Hinit : is_Ok (__init__ env (AgentList l) scope cfg)).
  { unfold __init__, _setup_agents.
    destruct l as [|a [|b l']]; [by cbn in Hn|by cbn in Hn|].
    set (l0 := a :: b :: l') in *.
    destruct (decide (len scope = 0)); [lia|].
    destruct (decide (len scope ≠ len l0)); [done|].
    destruct (decide (sum scope ≠ num_envs env)); [done|]. by eexists. }
  destruct Hinit as [tr Htr]. exists tr. split; [done|].
  destruct (__init___parallel env l scope cfg tr Hn Htr)
    as (sizes & _ & _ & Hsizes & ->).
  rewrite Hsizes by (intros ->; unfold len in *; simpl in *; lia).
  simpl. rewrite <- Hsum. by apply generate_agents_scopes_partitions.
Qed.

Lemma explicit_scopes_partition_witness :
  exists tr,
    __init__ {| num_envs := 5 |} (AgentList [tt; tt; tt]) [2; 0; 3]
             Samples.trainer_cfg = Ok tr /\
    partitions (agents_scope tr) 5.
Proof.
  apply (explicit_scopes_partition {| num_envs := 5 |} [tt; tt; tt] [2; 0; 3]);
    try reflexivity.
  repeat constructor; lia.
Defined.

(** X2. Whatever the signs of the sizes, a trainer built for two agents
    or more holds one range per agent, laid end to end from 0 to the
    number of environments; the sizes given by hand are the widths
    [hi - lo] of the ranges, so that a negative size is accepted and
    becomes a range that ends before it starts. *)
Theorem scopes_chained {Agent} (env : Wrapper) (l : list Agent)
    (scope : list Z) (cfg : Cfg) (tr : t Agent) :
  1 < len l ->
  __init__ env (AgentList l) scope cfg = Ok tr ->
  len (agents_scope tr) = len l /\
  chained 0 (agents_scope tr) (num_envs env) /\
  sum (scope_size <$> agents_scope tr) = num_envs env /\
  (scope <> [] -> scope_size <$> agents_scope tr = scope).
Proof.
  intros Hn H.
  destruct (__init___parallel env l scope cfg tr Hn H)
    as (sizes & Hlen & Hsum & Hsizes & ->). simpl.
  split; [unfold len in *; by rewrite generate_agents_scopes_length|].
  split; [rewrite <- Hsum; apply (chained_generate sizes 0)|].
  rewrite scope_size_generate. split; [done|]. intros Hs. by apply Hsizes.
Qed.

Lemma scopes_chained_witness :
  exists tr,
    __init__ {| num_envs := 4 |} (AgentList [tt; tt]) [6; -2]
             Samples.trainer_cfg = Ok tr /\
    agents_scope tr = [Range 0 6; Range 6 4] /\
    chained 0 (agents_scope tr) 4 /\
    scope_size <$> agents_scope tr = [6; -2].
Proof.
  eexists. split; [reflexivity|]. split; [reflexivity|].
  destruct (scopes_chained {| num_envs := 4 |} [tt; tt] [6; -2]
              Samples.trainer_cfg _ ltac:(reflexivity) eq_refl)
    as (_ & Hchain & _ & Hsizes).
  split; [exact Hchain|by apply Hsizes].
Defined.

Lemma mapM_scope_lines {Agent} (l : list Agent) (sizes : list Z) (index : Z) :
  length sizes = length l ->
  exists lines,
    mapM (fun '(_, scope) =>
            match scope with
            | Range lo hi => Ok (ScopeOf (hi - lo) lo hi)
            | Size _ => Raise TypeError
            end) (zip l (generate_agents_scopes index sizes)) = Ok lines /\
    length lines = length l /\
    line_count <$> lines = sizes /\
    forall (i : nat) lo hi,
      generate_agents_scopes index sizes !! i = Some (Range lo hi) ->
      lines !! i = Some (ScopeOf (hi - lo) lo hi).
Proof.
  revert sizes index. induction l as [|a l IH]; intros [|s sizes] index Hlen;
    try discriminate.
  - exists []. repeat split. by intros [|i].
  - simpl in Hlen. destruct (IH sizes (index + s)) as (lines & H1 & H2 & H3 & H4);
      [lia|].
    eexists. split; [simpl; rewrite H1; reflexivity|].
    split; [simpl; lia|]. split; [rewrite fmap_cons, H3; simpl; f_equal; lia|].
    intros [|i] lo hi Hi; simpl in *.
    + by injection Hi as <- <-.
    + by apply H4.
Qed.

(** X3. [__str__] of a trainer built for two agents or more does not
    raise: it prints one scope line per agent, with the bounds of the
    range of the agent and their difference as its number of
    environments, and these numbers sum to the number of environments. *)
Theorem str_of_parallel_trainer {Agent} (env : Wrapper) (l : list Agent)
    (scope : list Z) (cfg : Cfg) (tr : t Agent) :
  1 < len l ->
  __init__ env (AgentList l) scope cfg = Ok tr ->
  exists lines,
    scope_lines tr = Ok lines /\
    len lines = len l /\
    sum (line_count <$> lines) = num_envs env /\
    forall (i : nat) lo hi,
      agents_scope tr !! i = Some (Range lo hi) ->
      lines !! i = Some (ScopeOf (hi - lo) lo hi).
Proof.
  intros Hn H.
  destruct (__init___parallel env l scope cfg tr Hn H)
    as (sizes & Hlen & Hsum & _ & ->).
  destruct (mapM_scope_lines l sizes 0) as (lines & H1 & H2 & H3 & H4);
    [unfold len in Hlen; lia|].
  exists lines. unfold scope_lines. simpl.
  destruct (decide (len l > 1)); [|lia].
  split; [exact H1|]. split; [unfold len; lia|].
  split; [by rewrite H3|exact H4].
Qed.

Lemma str_of_parallel_trainer_witness :
  exists tr,
    __init__ {| num_envs := 10 |} (AgentList [tt; tt; tt]) []
             Samples.trainer_cfg = Ok tr /\
    scope_lines tr
    = Ok [ScopeOf 3 0 3; ScopeOf 3 3 6; ScopeOf 4 6 10].
Proof.
  eexists. split; [reflexivity|].
  destruct (str_of_parallel_trainer {| num_envs := 10 |} [tt; tt; tt] []
              Samples.trainer_cfg _ ltac:(reflexivity) eq_refl)
    as (lines & Hlines & _ & _ & Hi).
  rewrite Hlines. f_equal.
  pose proof (Hi 0%nat _ _ eq_refl) as H0.
  pose proof (Hi 1%nat _ _ eq_refl) as H1.
  pose proof (Hi 2%nat _ _ eq_refl) as H2.
  vm_compute in Hlines. by injection Hlines as <-.
Defined.

Lemma int_quot (a b : Z) :
  b <> 0 -> int (inject_Z a / inject_Z b)%Q = Z.quot a b.
Proof.
  intros Hb. destruct b as [|p|p]; [done| |].
  - unfold int, Qdiv, Qinv, Qmult, inject_Z. simpl.
    by rewrite Z.mul_1_r.
  - unfold int, Qdiv, Qinv, Qmult, inject_Z. simpl.
    rewrite Pos.mul_1_l.
    change (Z.neg p) with (- Z.pos p). rewrite Z.quot_opp_r by done.
    rewrite <- Z.quot_opp_l by done. f_equal. lia.
Qed.

(** X4. [generate_equally_spaced_scopes] for every pair of integers: it
    raises [ZeroDivisionError] for no agents, the [ValueError] for a
    negative number of agents and for fewer environments, in absolute
    value, than agents; otherwise it returns one size per agent, all
    equal to the truncated quotient but the last, and summing to the
    number of environments (also when that number is negative). *)
Theorem generate_equally_spaced_scopes_cases (num_envs num_agents : Z) :
  (num_agents = 0 ->
   generate_equally_spaced_scopes num_envs num_agents
   = Raise ZeroDivisionError) /\
  (num_agents < 0 \/ (0 < num_agents /\ - num_agents < num_envs < num_agents) ->
   generate_equally_spaced_scopes num_envs num_agents
   = Raise (ValueError (AgentsGreaterThanEnvs num_agents num_envs))) /\
  (0 < num_agents -> num_envs <= - num_agents \/ num_agents <= num_envs ->
   exists sizes,
     generate_equally_spaced_scopes num_envs num_agents = Ok sizes /\
     len sizes = num_agents /\ sum sizes = num_envs /\
     forall i : nat, Z.of_nat i < num_agents - 1 ->
       sizes !! i = Some (Z.quot num_envs num_agents)).
Proof.
  unfold generate_equally_spaced_scopes, true_div. split; [|split].
  - intros ->. by destruct (decide (0 = 0)).
  - intros H. destruct (decide (num_agents = 0)); [lia|]. simpl.
    rewrite int_quot by done. unfold list_mul. rewrite sum_replicate.
    destruct (decide _) as [Hne|]; [|done]. destruct Hne.
    destruct H as [H|[H1 H2]]; [lia|].
    assert (Z.quot num_envs num_agents = 0) as ->
      by (apply Z.quot_small_iff; lia).
    lia.
  - intros Hn H. destruct (decide (num_agents = 0)); [lia|]. simpl.
    rewrite int_quot by done. unfold list_mul. rewrite sum_replicate.
    assert (Hq : Z.quot num_envs num_agents <> 0).
    { intros Hq. apply Z.quot_small_iff in Hq; lia. }
    destruct (decide _) as [Hne|Hc]; [|destruct Hc; nia].
    destruct (add_to_last_total
                (replicate (Z.to_nat num_agents) (Z.quot num_envs num_agents))
                (num_envs - Z.of_nat (Z.to_nat num_agents)
                            * Z.quot num_envs num_agents))
      as [sizes Hsizes].
    { destruct (Z.to_nat num_agents) eqn:E; [lia|done]. }
    exists sizes. split; [done|].
    pose proof (add_to_last_spec _ _ _ Hsizes) as [Hlen Hsum].
    rewrite length_replicate in Hlen. rewrite sum_replicate in Hsum.
    split; [unfold len; lia|]. split; [lia|].
    intros i Hi.
    replace (Z.to_nat num_agents) with (S (Z.to_nat (num_agents - 1)))
      in Hsizes by lia.
    rewrite replicate_snoc, add_to_last_snoc in Hsizes.
    injection Hsizes as <-.
    rewrite lookup_app_l by (rewrite length_replicate; lia).
    apply lookup_replicate_2. lia.
Qed.

Lemma generate_equally_spaced_scopes_cases_witness :
  generate_equally_spaced_scopes 7 0 = Raise ZeroDivisionError /\
  generate_equally_spaced_scopes 7 (-2)
  = Raise (ValueError (AgentsGreaterThanEnvs (-2) 7)) /\
  generate_equally_spaced_scopes (-1) 2
  = Raise (ValueError (AgentsGreaterThanEnvs 2 (-1))) /\
  exists sizes,
    generate_equally_spaced_scopes (-7) 2 = Ok sizes /\ sum sizes = -7.
Proof.
  split; [apply (generate_equally_spaced_scopes_cases 7 0); reflexivity|].
  split; [apply (generate_equally_spaced_scopes_cases 7 (-2)); lia|].
  split; [apply (generate_equally_spaced_scopes_cases (-1) 2); lia|].
  destruct (generate_equally_spaced_scopes_cases (-7) 2) as (_ & _ & H).
  destruct H as (sizes & H1 & _ & H2 & _); [lia..|]. by exists sizes.
Defined.

End TrainerMore.

Module LoopMore.
Import Trainer TrainerViews LoopFacts.

Section Trace.
Context {Obs Action Info EnvState AgentState : Type}.
Variable m : WrapperMethods Obs Action Info EnvState.

Local Abbreviation run_t := (Run Obs Action Info EnvState AgentState).

(** A trace of calls made for the timesteps [steps] of a run of
    [timesteps] timesteps. *)
Local Abbreviation traced := (fun (timesteps : Z) (steps : list Z)
                                  (calls : list (call Obs Action Info)) =>
  act_timesteps calls = steps /\
  Forall (fun ts => ts = timesteps) (total_timesteps calls)).

Lemma traced_app timesteps steps1 steps2 calls1 calls2 :
  traced timesteps steps1 calls1 -> traced timesteps steps2 calls2 ->
  traced timesteps (steps1 ++ steps2) (calls1 ++ calls2).
Proof.
  intros [H1 H2] [H3 H4]. unfold act_timesteps, total_timesteps in *.
  rewrite !omap_app. split; [by rewrite H1, H3|by apply Forall_app].
Qed.

Lemma train_step_traced ag headless timesteps (r r' : run_t) timestep :
  train_step m ag headless timesteps r timestep = Ok r' ->
  exists calls, run_calls r' = run_calls r ++ calls /\
                traced timesteps [timestep] calls.
Proof.
  intros H. apply train_step_calls in H
    as (a0 & a1 & actions & a2 & a3 & e & calls & _ & _ & _ & _ & -> & ->).
  match goal with |- context [reset_environments m e a3 ?ns ?ds ?cs] =>
    destruct (reset_environments_spec m e a3 ns ds cs)
      as (c & Hc & Hphase & _) end.
  rewrite Hc, <- app_assoc. eexists. split; [done|].
  destruct (negb headless), c; try discriminate; simpl;
    (split; [done|by repeat constructor]).
Qed.

Lemma eval_step_traced ag headless timesteps (r r' : run_t) timestep :
  eval_step m ag headless timesteps r timestep = Ok r' ->
  exists calls, run_calls r' = run_calls r ++ calls /\
                traced timesteps [timestep] calls.
Proof.
  intros H. apply eval_step_calls in H
    as (a1 & actions & a2 & a3 & e & calls & _ & _ & _ & -> & ->).
  match goal with |- context [reset_environments m e a3 ?ns ?ds ?cs] =>
    destruct (reset_environments_spec m e a3 ns ds cs)
      as (c & Hc & Hphase & _) end.
  rewrite Hc, <- app_assoc. eexists. split; [done|].
  destruct (negb headless), c; try discriminate; simpl;
    (split; [done|by repeat constructor]).
Qed.

Lemma for_each_traced (body : run_t -> Z -> result run_t) timesteps
    (r r' : run_t) (steps : list Z) :
  (forall r timestep r', body r timestep = Ok r' ->
     exists calls, run_calls r' = run_calls r ++ calls /\
                   traced timesteps [timestep] calls) ->
  for_each body r steps = Ok r' ->
  exists calls, run_calls r' = run_calls r ++ calls /\
                traced timesteps steps calls.
Proof.
  intros Hbody. revert r. induction steps as [|t steps IH]; intros r H.
  - simpl in H. injection H as <-. exists []. rewrite app_nil_r.
    by repeat split.
  - simpl in H. inv_bind H.
    destruct (Hbody _ _ _ E) as (c1 & Hc1 & Ht1).
    destruct (IH _ H) as (c2 & Hc2 & Ht2).
    exists (c1 ++ c2). split; [by rewrite Hc2, Hc1, app_assoc|].
    by apply (traced_app timesteps [t] steps).
Qed.

Lemma single_agent_loop_traced body tr e (run : run_t) :
  (forall ag headless timesteps r timestep r',
     body m ag headless timesteps r timestep = Ok r' ->
     exists calls, run_calls r' = run_calls r ++ calls /\
                   traced timesteps [timestep] calls) ->
  single_agent_loop body tr m e = Ok run ->
  exists calls,
    run_calls run = env_reset :: calls ++ [env_close] /\
    traced (Trainer.timesteps tr)
           (range (initial_timestep tr) (Trainer.timesteps tr)) calls.
Proof.
  intros Hbody H.
  apply single_agent_loop_inv in H as (ag & r & _ & _ & Hfor & ->).
  apply (for_each_traced _ (Trainer.timesteps tr)) in Hfor
    as (calls & Hcalls & Htraced); [|intros; by eapply Hbody].
  exists calls. simpl in *. by rewrite Hcalls.
Qed.

End Trace.

(** X5. When a single-agent loop returns, its calls are the reset of
    the environment, the calls of the timesteps and the closing of the
    environment; [act] has been called once for every timestep of
    [range(initial_timestep, timesteps)], in that order, and every call
    on the agent was given [timesteps] as the total. *)
Theorem loop_timesteps {Obs Action Info EnvState AgentState : Type}
    (m : WrapperMethods Obs Action Info EnvState)
    (tr : t (Agent Obs Action Info AgentState)) (e : EnvState)
    loop (run : Run Obs Action Info EnvState AgentState) :
  loop = single_agent_train \/ loop = single_agent_eval ->
  loop tr m e = Ok run ->
  exists calls,
    run_calls run = env_reset :: calls ++ [env_close] /\
    act_timesteps calls
    = range (initial_timestep tr) (Trainer.timesteps tr) /\
    Forall (fun ts => ts = Trainer.timesteps tr) (total_timesteps calls).
Proof.
  intros [-> | ->] H.
  - apply single_agent_loop_traced in H; [done|].
    intros. by eapply train_step_traced.
  - apply single_agent_loop_traced in H; [done|].
    intros. by eapply eval_step_traced.
Qed.

Lemma loop_timesteps_witness :
  exists run calls,
    single_agent_train Samples.ddpg_trainer Samples.env_methods tt = Ok run /\
    run_calls run = env_reset :: calls ++ [env_close] /\
    act_timesteps calls = [0; 1].
Proof.
  assert (Hrun : is_Ok (single_agent_train Samples.ddpg_trainer
                          Samples.env_methods tt))
    by (eexists; vm_compute; reflexivity).
  destruct Hrun as [run Hrun].
  destruct (loop_timesteps Samples.env_methods Samples.ddpg_trainer tt
              single_agent_train run (or_introl eq_refl) Hrun)
    as (calls & H1 & H2 & _).
  by exists run, calls.
Defined.

Lemma range_empty (lo hi : Z) : hi <= lo -> range lo hi = [].
Proof.
  intros H. unfold range. by replace (Z.to_nat (hi - lo)) with 0%nat by lia.
Qed.

(** X6. A trainer built for one agent (given bare or as a list of one)
    from a configuration without a positive [timesteps] (the default is
    0) runs no timestep: either loop resets the environment, closes it,
    calls no method of the agent and leaves the agent as it was. *)
Theorem no_timesteps_no_interaction {Obs Action Info EnvState AgentState}
    (m : WrapperMethods Obs Action Info EnvState) (e : EnvState)
    (env : Wrapper) (agents : agents_arg (Agent Obs Action Info AgentState))
    (ag : Agent Obs Action Info AgentState) (scope : list Z) (cfg : Cfg) :
  agents = BareAgent ag \/ agents = AgentList [ag] ->
  default 0 (cfg_timesteps cfg) <= 0 ->
  exists tr,
    __init__ env agents scope cfg = Ok tr /\
    forall loop, loop = single_agent_train \/ loop = single_agent_eval ->
      loop tr m e
      = Ok {| run_env := close m (reset m e).1; run_agent := self ag;
              run_states := (reset m e).2;
              run_calls := [env_reset; env_close] |}.
Proof.
  intros Hag Hts.
  assert (exists sc, __init__ env agents scope cfg
            = Ok {| Trainer.env := env; Trainer.agents := BareAgent ag;
                    agents_scope := sc; num_agents := 1;
                    timesteps := default 0 (cfg_timesteps cfg);
                    headless := default false (cfg_headless cfg);
                    initial_timestep := 0 |}) as [sc Hinit].
  { destruct Hag as [-> | ->]; by eexists. }
  eexists. split; [exact Hinit|].
  intros loop [-> | ->];
    unfold single_agent_train, single_agent_eval, single_agent_loop;
    simpl; destruct (reset m e) as [e' states]; simpl;
    by rewrite range_empty.
Qed.

Lemma no_timesteps_no_interaction_witness :
  exists tr run,
    __init__ {| num_envs := 1 |} (AgentList [Samples.ddpg_agent]) []
      {| cfg_timesteps := None; cfg_headless := None |} = Ok tr /\
    single_agent_train tr Samples.env_methods tt = Ok run /\
    run_calls run = [env_reset; env_close].
Proof.
  destruct (no_timesteps_no_interaction Samples.env_methods tt
              {| num_envs := 1 |} (AgentList [Samples.ddpg_agent])
              Samples.ddpg_agent []
              {| cfg_timesteps := None; cfg_headless := None |})
    as (tr & H1 & H2); [by right|simpl; lia|].
  exists tr. eexists. split; [done|].
  split; [exact (H2 _ (or_introl eq_refl))|done].
Defined.

(** X7. A trainer built from two or more agents refuses both
    single-agent loops: they raise [AssertionError] before the
    environment is reset. *)
Theorem single_agent_loops_need_one_agent
    {Obs Action Info EnvState AgentState}
    (m : WrapperMethods Obs Action Info EnvState) (e : EnvState)
    (env : Wrapper) (l : list (Agent Obs Action Info AgentState))
    (scope : list Z) (cfg : Cfg) tr :
  1 < len l ->
  __init__ env (AgentList l) scope cfg = Ok tr ->
  single_agent_train tr m e = Raise AssertionError /\
  single_agent_eval tr m e = Raise AssertionError.
Proof.
  intros Hl H.
  apply TrainerMore.__init___parallel in H as (sizes & _ & _ & _ & ->);
    [|done].
  unfold single_agent_train, single_agent_eval, single_agent_loop. simpl.
  destruct (decide (len l = 1)); [lia|done].
Qed.

Lemma single_agent_loops_need_one_agent_witness :
  exists tr,
    __init__ {| num_envs := 2 |}
      (AgentList [Samples.ddpg_agent; Samples.ddpg_agent]) []
      Samples.trainer_cfg = Ok tr /\
    single_agent_train tr Samples.env_methods tt = Raise AssertionError.
Proof.
  eexists. split; [reflexivity|].
  refine (proj1 (single_agent_loops_need_one_agent Samples.env_methods tt
                   {| num_envs := 2 |}
                   [Samples.ddpg_agent; Samples.ddpg_agent] []
                   Samples.trainer_cfg _ _ eq_refl)).
  unfold len. simpl. lia.
Defined.

End LoopMore.


Module DDPGMore.
Import AgentBase DDPG.

Section Act.
Context {Obs Params Memory Noise : Type}.
Variable c : Collaborators Obs Params Memory Noise.
Variable cfg : Config.

Lemma clip_within (actions : list (list Q)) :
  (forall j lo hi, clip_actions_min cfg !! j = Some lo ->
                   clip_actions_max cfg !! j = Some hi -> (lo <= hi)%Q) ->
  forall (i j : nat) row a lo hi,
    clip cfg actions !! i = Some row -> row !! j = Some a ->
    clip_actions_min cfg !! j = Some lo ->
    clip_actions_max cfg !! j = Some hi ->
    (lo <= a <= hi)%Q.
Proof.
  intros Hb i j row a lo hi Hrow Ha Hlo Hhi. specialize (Hb _ _ _ Hlo Hhi).
  unfold clip in Hrow. destruct (backward_compatibility cfg);
    rewrite list_lookup_fmap in Hrow;
    destruct (actions !! i) as [row0|]; try discriminate;
    injection Hrow as <-;
    apply lookup_zip_with_Some in Ha as (x & y & -> & Hx & Hy);
    apply lookup_zip_with_Some in Hx as (x0 & z & -> & _ & Hz).
  - assert (z = hi) as -> by congruence. assert (y = lo) as -> by congruence.
    destruct (Q.max_spec (Qmin x0 hi) lo) as [[? ->]|[? ->]];
      destruct (Q.min_spec x0 hi) as [[? E]|[? E]]; rewrite ?E in *;
      split; lra.
  - assert (z = lo) as -> by congruence. assert (y = hi) as -> by congruence.
    destruct (Q.min_spec (Qmax x0 lo) hi) as [[? ->]|[? ->]];
      destruct (Q.max_spec x0 lo) as [[? E]|[? E]]; rewrite ?E in *;
      split; lra.
Qed.

End Act.

(** X8. Whenever [act] adds exploration noise (noise configured, past
    the random timesteps, within the decay timesteps) the actions it
    returns lie within the bounds of the action space, column by
    column, in both ways of clipping; the lower bounds are not above
    the upper ones. *)
Theorem noised_actions_within_bounds {Obs Params Memory Noise : Type}
    (c : Collaborators Obs Params Memory Noise) (cfg : Config)
    (st st' : State Params Memory Noise) (states : Obs)
    (timestep timesteps : Z) (noise : Noise) (actions : list (list Q)) :
  (forall j lo hi, clip_actions_min cfg !! j = Some lo ->
                   clip_actions_max cfg !! j = Some hi -> (lo <= hi)%Q) ->
  exploration_noise st = Some noise ->
  random_timesteps cfg <= timestep ->
  timestep <= default timesteps (exploration_timesteps st) ->
  act c cfg st states timestep timesteps = Ok (st', actions) ->
  forall (i j : nat) row a lo hi,
    actions !! i = Some row -> row !! j = Some a ->
    clip_actions_min cfg !! j = Some lo ->
    clip_actions_max cfg !! j = Some hi ->
    (lo <= a <= hi)%Q.
Proof.
  intros Hb Hnoise Hrandom Hdecay H. unfold act in H.
  destruct (decide (timestep < random_timesteps cfg)); [lia|].
  rewrite Hnoise in H. destruct (noise_sample c noise _) as [noise' noises].
  destruct (decide (timestep <= _)); [|lia].
  inv_bind H. inv_bind H. inv_bind H. inv_bind H. injection H as _ <-.
  by apply clip_within.
Qed.

Lemma noised_actions_within_bounds_witness :
  exists st' a,
    act Samples.ddpg_collaborators Samples.ddpg_cfg Samples.ddpg_state [tt]
        0 100 = Ok (st', [[a]]) /\ (-1 <= a <= 1)%Q.
Proof.
  eexists _, _. split; [reflexivity|].
  eapply (noised_actions_within_bounds Samples.ddpg_collaborators
            Samples.ddpg_cfg Samples.ddpg_state _ [tt] 0 100 tt _
            ltac:(intros [|[|j]] lo hi; simpl; intros; simplify_eq; lra)
            eq_refl ltac:(simpl; lia) ltac:(simpl; lia) eq_refl 0%nat 0%nat);
    reflexivity.
Defined.

(** X9. With a final scale that is not above the initial one, the scale
    of the exploration noise never grows over the decay period and
    stays between the final and the initial scale. *)
Theorem exploration_scale_decreases (cfg : Config) (t1 t2 decay : Z) :
  (exploration_final_scale cfg <= exploration_initial_scale cfg)%Q ->
  0 <= t1 -> t1 <= t2 -> t2 <= decay -> 0 < decay ->
  exists s1 s2,
    exploration_scale cfg t1 decay = Ok s1 /\
    exploration_scale cfg t2 decay = Ok s2 /\
    (exploration_final_scale cfg <= s2)%Q /\ (s2 <= s1)%Q /\
    (s1 <= exploration_initial_scale cfg)%Q.
Proof.
  intros Hfi H0 H12 H2d Hd. unfold exploration_scale, true_div.
  destruct (decide (decay = 0)); [lia|]. simpl. eexists _, _.
  do 2 (split; [reflexivity|]).
  assert (Hpos : (0 < inject_Z decay)%Q)
    by (rewrite <- (Zlt_Qlt 0); exact Hd).
  assert (Hx1 : (0 <= inject_Z t1 / inject_Z decay)%Q).
  { apply Qle_shift_div_l; [done|]. rewrite Qmult_0_l.
    by rewrite <- (Zle_Qle 0). }
  assert (Hx12 : (inject_Z t1 / inject_Z decay
                  <= inject_Z t2 / inject_Z decay)%Q).
  { apply Qmult_le_compat_r; [by rewrite <- Zle_Qle|].
    apply Qlt_le_weak, Qinv_lt_0_compat, Hpos. }
  assert (Hx2 : (inject_Z t2 / inject_Z decay <= 1)%Q).
  { apply Qle_shift_div_r; [done|]. rewrite Qmult_1_l.
    by rewrite <- Zle_Qle. }
  set (x1 := (inject_Z t1 / inject_Z decay)%Q) in *.
  set (x2 := (inject_Z t2 / inject_Z decay)%Q) in *.
  clearbody x1 x2. repeat split; nra.
Qed.

Lemma exploration_scale_decreases_witness :
  exists s1 s2,
    exploration_scale Samples.ddpg_cfg 20 100 = Ok s1 /\
    exploration_scale Samples.ddpg_cfg 70 100 = Ok s2 /\
    (1 # 1000 <= s2)%Q /\ (s2 <= s1)%Q /\ (s1 <= 1)%Q.
Proof.
  apply (exploration_scale_decreases Samples.ddpg_cfg 20 70 100);
    [vm_compute; discriminate|lia..].
Defined.

(** X10. The [timesteps] argument of [act] is read once: the first call
    that reaches the exploration noise fixes the decay timesteps (to the
    configured value, or to [timesteps] when none is configured), and
    from then on the result of [act] does not depend on [timesteps]. *)
Theorem exploration_timesteps_set_once {Obs Params Memory Noise : Type}
    (c : Collaborators Obs Params Memory Noise) (cfg : Config)
    (st st' : State Params Memory Noise) (states : Obs)
    (timestep timesteps : Z) (noise : Noise) (actions : list (list Q)) :
  exploration_noise st = Some noise ->
  random_timesteps cfg <= timestep ->
  act c cfg st states timestep timesteps = Ok (st', actions) ->
  exploration_timesteps st'
  = Some (default timesteps (exploration_timesteps st)) /\
  forall states' timestep' timesteps1 timesteps2,
    act c cfg st' states' timestep' timesteps1
    = act c cfg st' states' timestep' timesteps2.
Proof.
  intros Hnoise Hrandom H. unfold act in H.
  destruct (decide (timestep < random_timesteps cfg)); [lia|].
  rewrite Hnoise in H. destruct (noise_sample c noise _) as [noise' noises].
  assert (Hst' : exploration_timesteps st'
                 = Some (default timesteps (exploration_timesteps st))).
  { destruct (decide (timestep <= _)).
    - inv_bind H. inv_bind H. inv_bind H. inv_bind H. by injection H as <- _.
    - by injection H as <- _. }
  split; [done|]. intros states' timestep' ts1 ts2.
  unfold act. by rewrite Hst'.
Qed.

Lemma exploration_timesteps_set_once_witness :
  exists st' actions,
    act Samples.ddpg_collaborators Samples.ddpg_cfg Samples.ddpg_state [tt]
        0 100 = Ok (st', actions) /\
    exploration_timesteps st' = Some 100 /\
    act Samples.ddpg_collaborators Samples.ddpg_cfg st' [tt] 50 7
    = act Samples.ddpg_collaborators Samples.ddpg_cfg st' [tt] 50 100.
Proof.
  eexists _, _. split; [reflexivity|].
  destruct (exploration_timesteps_set_once Samples.ddpg_collaborators
              Samples.ddpg_cfg Samples.ddpg_state _ [tt] 0 100 tt _
              eq_refl ltac:(simpl; lia) eq_refl) as [H1 H2].
  split; [exact H1|apply H2].
Defined.

(** X11. Decay timesteps of 0 (configured, or taken from a [timesteps]
    of 0) make [act] raise [ZeroDivisionError] at any timestep that is
    not positive and past the random timesteps: the scale divides by the
    decay timesteps. *)
Theorem act_divides_by_decay_timesteps {Obs Params Memory Noise : Type}
    (c : Collaborators Obs Params Memory Noise) (cfg : Config)
    (st : State Params Memory Noise) (states : Obs)
    (timestep timesteps : Z) (noise : Noise) :
  exploration_noise st = Some noise ->
  random_timesteps cfg <= timestep -> timestep <= 0 ->
  default timesteps (exploration_timesteps st) = 0 ->
  act c cfg st states timestep timesteps = Raise ZeroDivisionError.
Proof.
  intros Hnoise Hrandom Ht Hd. unfold act.
  destruct (decide (timestep < random_timesteps cfg)); [lia|].
  rewrite Hnoise. destruct (noise_sample c noise _) as [noise' noises].
  rewrite Hd. destruct (decide (timestep <= 0)); [|lia].
  unfold exploration_scale, true_div. by destruct (decide (0 = 0)).
Qed.

Lemma act_divides_by_decay_timesteps_witness :
  act Samples.ddpg_collaborators Samples.ddpg_cfg Samples.ddpg_state [tt] 0 0
  = Raise ZeroDivisionError.
Proof.
  apply (act_divides_by_decay_timesteps _ _ _ _ _ _ tt);
    [reflexivity|simpl; lia|lia|reflexivity].
Defined.

Section Update.
Context {Obs Params Memory Noise : Type}.
Variable c : Collaborators Obs Params Memory Noise.
Variable cfg : Config.

(** The gradient steps and soft updates among some effects, in order. *)
Local Abbreviation updates := (List.filter (fun e =>
  is_gradient_update e || is_soft_update e)).

(** What an update leaves alone: the memories and the exploration. *)
Local Abbreviation same_stores := (fun st st' : State Params Memory Noise =>
  memory st' = memory st /\
  secondary_memories st' = secondary_memories st /\
  exploration_noise st' = exploration_noise st /\
  exploration_timesteps st' = exploration_timesteps st).

Lemma gradient_step_body_updates (batch : Batch Obs) v g v' :
  gradient_step_body c cfg batch v g = Ok v' ->
  same_stores (vars_state v) (vars_state v') /\
  exists es, log (vars_state v') = log (vars_state v) ++ es /\
             updates es = step_effects cfg.
Proof.
  unfold gradient_step_body. intros H. inv_bind H. injection H as <-.
  simpl. split; [done|]. eexists. split; [reflexivity|].
  by destruct (learning_rate_scheduler cfg).
Qed.

Lemma gradient_steps_loop_updates (batch : Batch Obs) steps v v' :
  gradient_steps_loop c cfg batch v steps = Ok v' ->
  same_stores (vars_state v) (vars_state v') /\
  exists es, log (vars_state v') = log (vars_state v) ++ es /\
             updates es
             = concat (replicate (length steps) (step_effects cfg)).
Proof.
  revert v. induction steps as [|g rest IH]; intros v H; simpl in H.
  - injection H as <-. split; [done|]. exists []. by rewrite app_nil_r.
  - inv_bind H.
    apply gradient_step_body_updates in E
      as ((M1 & M2 & M3 & M4) & es1 & Hlog1 & Hes1).
    apply IH in H as ((N1 & N2 & N3 & N4) & es2 & Hlog2 & Hes2).
    split; [repeat split; congruence|].
    exists (es1 ++ es2). split; [by rewrite Hlog2, Hlog1, app_assoc|].
    rewrite List.filter_app, Hes1, Hes2. reflexivity.
Qed.

End Update.



(** X13. An agent without a memory: [record_transition] only makes the
    call of the base class and stores nothing, not even in the
    secondary memories; [post_interaction] raises [AttributeError] from
    [learning_starts] on, where the update samples the memory. *)
Theorem agent_without_memory {Obs Params Memory Noise Info : Type}
    (c : Collaborators Obs Params Memory Noise) (cfg : Config)
    (st : State Params Memory Noise) (states next_states : Obs)
    (actions : list (list Q)) (rewards : list Q) (dones : list bool)
    (infos : Info) (timestep timesteps : Z) :
  memory st = None ->
  record_transition c st states actions rewards next_states dones infos
    timestep timesteps
  = Ok (tell st [AgentBase.record_transition timestep timesteps]) /\
  (learning_starts cfg <= timestep ->
   post_interaction c cfg st timestep timesteps = Raise AttributeError).
Proof.
  intros Hm. split.
  - unfold record_transition. simpl. by rewrite Hm.
  - intros Ht. unfold post_interaction, _update.
    destruct (decide (timestep >= learning_starts cfg)); [|lia].
    by rewrite Hm.
Qed.

Lemma agent_without_memory_witness :
  let st := {| params := tt; memory := None; secondary_memories := [tt];
               exploration_noise := None; exploration_timesteps := None;
               log := [] |} in
  record_transition Samples.ddpg_collaborators st [tt] [[0%Q]] [1%Q] [tt]
    [false] tt 12 100
  = Ok (tell st [AgentBase.record_transition 12 100]) /\
  post_interaction Samples.ddpg_collaborators Samples.ddpg_cfg st 12 100
  = Raise AttributeError.
Proof.
  intros st.
  destruct (agent_without_memory Samples.ddpg_collaborators Samples.ddpg_cfg
              st [tt] [tt] [[0%Q]] [1%Q] [false] tt 12 100 eq_refl)
    as [H1 H2].
  split; [exact H1|apply H2; simpl; lia].
Defined.

End DDPGMore.

Module TrainMore.
Import AgentBase Trainer LoopFacts.

Lemma range_bounds (lo hi t : Z) : In t (range lo hi) -> lo <= t < hi.
Proof.
  unfold range. intros H. apply in_map_iff in H as (i & <- & Hi).
  apply in_seq in Hi. lia.
Qed.

Section Respects.
Context {Obs Action Info EnvState AgentState : Type}.
Variable m : WrapperMethods Obs Action Info EnvState.
Local Abbreviation run_t := (Run Obs Action Info EnvState AgentState).

Lemma for_each_invariant_in (P : run_t -> Prop)
    (body : run_t -> Z -> result run_t) (r r' : run_t) (steps : list Z) :
  (forall r timestep r', In timestep steps -> P r ->
     body r timestep = Ok r' -> P r') ->
  P r -> for_each body r steps = Ok r' -> P r'.
Proof.
  revert r. induction steps as [|t steps IH]; intros r Hbody Hr H.
  - simpl in H. by injection H as <-.
  - simpl in H. inv_bind H. eapply IH; [| |exact H].
    + intros. eapply Hbody; [by right|done..].
    + eapply Hbody; [by left|done..].
Qed.

(** A relation between the states of the agent that every method keeps
    on the timesteps below [bound] is kept by the whole train loop when
    the loop ends at [bound] or before. *)
Lemma train_respects (R : AgentState -> AgentState -> Prop) (bound : Z)
    (tr : t (Agent Obs Action Info AgentState)) (e : EnvState)
    (ag : Agent Obs Action Info AgentState) (run : run_t) :
  (forall a, R a a) ->
  (forall a1 a2 a3, R a1 a2 -> R a2 a3 -> R a1 a3) ->
  (forall a t ts a', t < bound ->
     pre_interaction (class ag) a t ts = Ok a' -> R a a') ->
  (forall a states t ts a' actions, t < bound ->
     act (class ag) a states t ts = Ok (a', actions) -> R a a') ->
  (forall a tr t ts a', t < bound ->
     record_transition (class ag) a tr t ts = Ok a' -> R a a') ->
  (forall a t ts a', t < bound ->
     post_interaction (class ag) a t ts = Ok a' -> R a a') ->
  agents tr = BareAgent ag ->
  Trainer.timesteps tr <= bound ->
  single_agent_train tr m e = Ok run ->
  R (self ag) (run_agent run).
Proof.
  intros Hrefl Htrans Hpre Hact Hrec Hpost Hag Hbound H.
  apply single_agent_loop_inv in H as (ag' & r & _ & Hag' & Hfor & ->).
  rewrite Hag in Hag'. injection Hag' as <-. simpl.
  revert Hfor.
  apply (for_each_invariant_in (fun r => R (self ag) (run_agent r)));
    [|apply Hrefl].
  intros r0 t r1 Ht HR Hstep. apply range_bounds in Ht.
  apply train_step_calls in Hstep
    as (a0 & a1 & actions & a2 & a3 & e' & calls & H0 & H1 & H2 & H3 & -> & _).
  match goal with |- context [reset_environments m e' a3 ?ns ?ds ?cs] =>
    destruct (reset_environments_spec m e' a3 ns ds cs)
      as (_ & _ & _ & -> & _) end.
  apply Hpre in H0; [|lia]. apply Hact in H1; [|lia].
  apply Hrec in H2; [|lia]. apply Hpost in H3; [|lia].
  eauto.
Qed.

End Respects.

Section Agents.
Context {Obs Params Memory Noise Info EnvState SarsaMemory : Type}.

(** No update between two states of an agent: no effect of an update
    engine in the log in between. *)
Local Abbreviation no_update := (fun log log' : list effect =>
  exists es, log' = log ++ es /\
             Forall (fun e => Agents.is_update e = false) es).

Lemma no_update_refl log : no_update log log.
Proof. exists []. by rewrite app_nil_r. Qed.

Lemma no_update_trans log1 log2 log3 :
  no_update log1 log2 -> no_update log2 log3 -> no_update log1 log3.
Proof.
  intros (es & -> & H) (es' & -> & H'). exists (es ++ es').
  split; [by rewrite app_assoc|by apply Forall_app].
Qed.

Lemma no_update_tell log es :
  Forall (fun e => Agents.is_update e = false) es -> no_update log (log ++ es).
Proof. intros H. by exists es. Qed.

Lemma ddpg_act_unlearned (c : DDPG.Collaborators Obs Params Memory Noise) cfg
    st states timestep timesteps st' actions :
  DDPG.act c cfg st states timestep timesteps = Ok (st', actions) ->
  DDPG.params st' = DDPG.params st /\ no_update (DDPG.log st) (DDPG.log st').
Proof.
  unfold DDPG.act. intros H.
  destruct (decide (timestep < DDPG.random_timesteps cfg));
    [injection H as <- _; split; [done|apply no_update_refl]|].
  destruct (DDPG.exploration_noise st) as [noise|];
    [|injection H as <- _; split; [done|apply no_update_refl]].
  destruct (DDPG.noise_sample c noise _) as [noise' noises].
  destruct (decide _).
  - inv_bind H. injection H as <- _. simpl. split; [done|].
    apply no_update_tell. by repeat constructor.
  - injection H as <- _. simpl. split; [done|].
    apply no_update_tell. by repeat constructor.
Qed.

Lemma ddpg_record_unlearned (c : DDPG.Collaborators Obs Params Memory Noise)
    st states actions rewards next_states dones (infos : Info)
    timestep timesteps st' :
  DDPG.record_transition c st states actions rewards next_states dones infos
    timestep timesteps = Ok st' ->
  DDPG.params st' = DDPG.params st /\ no_update (DDPG.log st) (DDPG.log st').
Proof.
  unfold DDPG.record_transition. simpl. intros H.
  destruct (DDPG.memory st); injection H as <-; simpl; (split; [done|]).
  - rewrite <- app_assoc. apply no_update_tell. constructor; [done|].
    constructor; [done|]. by apply Forall_replicate.
  - apply no_update_tell. by repeat constructor.
Qed.

Lemma sarsa_record_unlearned (c : SARSA.Collaborators SarsaMemory)
    st states actions rewards next_states dones (infos : Info)
    timestep timesteps st' :
  SARSA.record_transition c st states actions rewards next_states dones infos
    timestep timesteps = Ok st' ->
  SARSA.q_table st' = SARSA.q_table st /\
  no_update (SARSA.log st) (SARSA.log st').
Proof.
  unfold SARSA.record_transition. simpl. intros H.
  destruct (SARSA.memory st); injection H as <-; simpl; (split; [done|]).
  - rewrite <- app_assoc. apply no_update_tell. constructor; [done|].
    constructor; [done|]. by apply Forall_replicate.
  - apply no_update_tell. by repeat constructor.
Qed.

End Agents.

(** X14. Training a DDPG agent for no more timesteps than
    [learning_starts] never updates it: when the loop returns the
    parameters of the networks are those it started with, and no
    sampling of the memory, optimization step, soft update or scheduler
    step has been made. *)
Theorem ddpg_warm_up_never_updates
    {Obs Params Memory Noise Info EnvState : Type}
    (c : DDPG.Collaborators (list Obs) Params Memory Noise)
    (cfg : DDPG.Config) (st : DDPG.State Params Memory Noise)
    (m : WrapperMethods Obs (list Q) Info EnvState) (e : EnvState)
    (tr : t (Agent Obs (list Q) Info (DDPG.State Params Memory Noise)))
    (run : Run Obs (list Q) Info EnvState (DDPG.State Params Memory Noise)) :
  agents tr = BareAgent (Agents.ddpg_agent c cfg st) ->
  Trainer.timesteps tr <= DDPG.learning_starts cfg ->
  single_agent_train tr m e = Ok run ->
  DDPG.params (run_agent run) = DDPG.params st /\
  exists es, DDPG.log (run_agent run) = DDPG.log st ++ es /\
             Forall (fun e => Agents.is_update e = false) es.
Proof.
  intros Hag Hts H.
  apply (train_respects m
           (fun a a' => DDPG.params a' = DDPG.params a /\
              exists es, DDPG.log a' = DDPG.log a ++ es /\
                         Forall (fun e => Agents.is_update e = false) es)
           (DDPG.learning_starts cfg) tr e (Agents.ddpg_agent c cfg st) run);
    try done.
  - intros a. split; [done|apply no_update_refl].
  - intros a1 a2 a3 [H1 H2] [H3 H4].
    split; [congruence|by eapply no_update_trans].
  - intros a t ts a' _ [= <-]. split; [done|apply no_update_refl].
  - intros a states t ts a' actions _. apply ddpg_act_unlearned.
  - intros a tr0 t ts a' _. apply ddpg_record_unlearned.
  - intros a t ts a' Ht. simpl. unfold DDPG.post_interaction.
    destruct (decide (t >= DDPG.learning_starts cfg)); [lia|].
    intros [= <-]. simpl. split; [done|].
    apply no_update_tell. by repeat constructor.
Qed.

Lemma ddpg_warm_up_never_updates_witness :
  exists run,
    single_agent_train Samples.ddpg_trainer Samples.env_methods tt = Ok run /\
    List.filter Agents.is_update (DDPG.log (run_agent run)) = [].
Proof.
  assert (H : is_Ok (single_agent_train Samples.ddpg_trainer
                       Samples.env_methods tt))
    by (eexists; vm_compute; reflexivity).
  destruct H as [run H]. exists run. split; [done|].
  destruct (ddpg_warm_up_never_updates Samples.ddpg_collaborators
              Samples.ddpg_cfg Samples.ddpg_state Samples.env_methods tt
              Samples.ddpg_trainer run eq_refl ltac:(simpl; lia) H)
    as (_ & es & -> & Hes).
  simpl. clear H. induction Hes as [|x es Hx _ IH]; [done|].
  simpl. by rewrite Hx.
Defined.

(** X15. Training a SARSA agent for no more timesteps than
    [learning_starts] never changes its Q-table: when the loop returns
    the table is the one it started with and no update of it has been
    made. *)
Theorem sarsa_warm_up_keeps_table {Memory Info EnvState : Type}
    (c : SARSA.Collaborators Memory) (cfg : SARSA.Config)
    (st : SARSA.State Memory)
    (m : WrapperMethods Z Z Info EnvState) (e : EnvState)
    (tr : t (Agent Z Z Info (SARSA.State Memory)))
    (run : Run Z Z Info EnvState (SARSA.State Memory)) :
  agents tr = BareAgent (Agents.sarsa_agent c cfg st) ->
  Trainer.timesteps tr <= SARSA.learning_starts cfg ->
  single_agent_train tr m e = Ok run ->
  SARSA.q_table (run_agent run) = SARSA.q_table st /\
  exists es, SARSA.log (run_agent run) = SARSA.log st ++ es /\
             Forall (fun e => Agents.is_update e = false) es.
Proof.
  intros Hag Hts H.
  apply (train_respects m
           (fun a a' => SARSA.q_table a' = SARSA.q_table a /\
              exists es, SARSA.log a' = SARSA.log a ++ es /\
                         Forall (fun e => Agents.is_update e = false) es)
           (SARSA.learning_starts cfg) tr e (Agents.sarsa_agent c cfg st) run);
    try done.
  - intros a. split; [done|apply no_update_refl].
  - intros a1 a2 a3 [H1 H2] [H3 H4].
    split; [congruence|by eapply no_update_trans].
  - intros a t ts a' _ [= <-]. split; [done|apply no_update_refl].
  - intros a states t ts a' actions _. simpl. unfold SARSA.act.
    destruct (decide _); intros [= <- _];
      (split; [done|apply no_update_refl]).
  - intros a tr0 t ts a' _. apply sarsa_record_unlearned.
  - intros a t ts a' Ht. simpl. unfold SARSA.post_interaction.
    destruct (decide (t >= SARSA.learning_starts cfg)); [lia|].
    intros [= <-]. simpl. split; [done|].
    apply no_update_tell. by repeat constructor.
Qed.

Lemma sarsa_warm_up_keeps_table_witness :
  exists run,
    single_agent_train Samples.sarsa_trainer Samples.sarsa_env_methods tt
    = Ok run /\
    SARSA.q_table (run_agent run) = SARSA.q_table Samples.sarsa_state.
Proof.
  assert (H : is_Ok (single_agent_train Samples.sarsa_trainer
                       Samples.sarsa_env_methods tt))
    by (eexists; vm_compute; reflexivity).
  destruct H as [run H]. exists run. split; [done|].
  by destruct (sarsa_warm_up_keeps_table Samples.sarsa_collaborators
                 Samples.sarsa_cfg Samples.sarsa_state
                 Samples.sarsa_env_methods tt Samples.sarsa_trainer run
                 eq_refl ltac:(simpl; lia) H) as [-> _].
Defined.

End TrainMore.

Module SARSAMore.
Import AgentBase SARSA SARSAFacts.

Lemma mapM_result_raises {A B} (f : A -> result B) (l : list A) x :
  mapM f l = Raise x -> exists y, y ∈ l /\ f y = Raise x.
Proof.
  induction l as [|y l IH]; intros H; simpl in H; [done|].
  destruct (f y) as [b|x'] eqn:Ey; simpl in H.
  - destruct (mapM f l) as [bs|x'] eqn:El; simpl in H; [done|].
    injection H as ->. destruct IH as (z & Hz & Hfz); [done|].
    exists z. split; [by right|done].
  - injection H as ->. exists y. split; [by left|done].
Qed.

Lemma rows_raises env_ids states actions x :
  rows env_ids states actions = Raise x -> x = IndexError.
Proof.
  revert states actions.
  induction env_ids as [|e env_ids IH]; intros [|s states] [|a actions] H;
    simpl in H; try congruence.
  destruct (rows env_ids states actions) eqn:E; simpl in H; [done|].
  injection H as ->. by eapply IH.
Qed.

Lemma index_raises n i x : index n i = Raise x -> x = IndexError.
Proof. unfold index. repeat destruct (decide _); congruence. Qed.

Lemma locate_raises table idx x : locate table idx = Raise x -> x = IndexError.
Proof.
  destruct idx as [[e s] a]. unfold locate. intros H.
  destruct (index (length table) e) as [e0|x0] eqn:E0; simpl in H;
    [|injection H as ->; by eapply index_raises].
  destruct (index _ s) as [s0|x0] eqn:E1; simpl in H;
    [|injection H as ->; by eapply index_raises].
  destruct (index _ a) as [a0|x0] eqn:E2; simpl in H;
    [done|injection H as ->; by eapply index_raises].
Qed.

Lemma gather_raises table env_ids states actions x :
  gather table env_ids states actions = Raise x -> x = IndexError.
Proof.
  unfold gather. intros H.
  destruct (rows env_ids states actions) as [idxs|x0] eqn:E; simpl in H;
    [|injection H as ->; by eapply rows_raises].
  apply mapM_result_raises in H as (idx & _ & H).
  destruct (locate table idx) as [pos|x0] eqn:El; simpl in H;
    [|injection H as ->; by eapply locate_raises].
  destruct (entry table pos); simpl in H; congruence.
Qed.

Lemma gather_located table env_ids states actions l :
  gather table env_ids states actions = Ok l ->
  forall (i : nat) e s a,
    env_ids !! i = Some e -> states !! i = Some s -> actions !! i = Some a ->
    is_Ok (locate table (e, s, a)).
Proof.
  unfold gather. intros H i e s a He Hs Ha. inv_bind H.
  destruct (rows_lookup _ _ _ _ E) as (Hlen & _ & _ & Hrows).
  destruct (lookup_lt_is_Some_2 u i) as [idx Hidx].
  { rewrite Hlen. by eapply lookup_lt_Some. }
  destruct (Hrows _ _ Hidx) as (He' & Hs' & Ha').
  destruct idx as [[e' s'] a']. simpl in He', Hs', Ha'.
  assert (e' = e) as -> by congruence. assert (s' = s) as -> by congruence.
  assert (a' = a) as -> by congruence.
  apply mapM_result_lookup in H as [_ H].
  destruct (H _ _ Hidx) as ([pos v] & _ & Hf).
  destruct (locate table (e, s, a)) as [pos'|]; [by eexists|done].
Qed.

(** X16. The update needs a recorded transition: on an agent that has
    recorded none, [post_interaction] raises [AttributeError] from
    [learning_starts] on.  [record_transition] always returns, holds
    the transition it was given (with the shaped rewards) afterwards and
    leaves the Q-table alone. *)
Theorem sarsa_update_needs_transition {Memory Info : Type}
    (c : Collaborators Memory) (cfg : Config) (st : State Memory)
    (states actions next_states : list Z) (rewards : list Q)
    (dones : list bool) (infos : Info) (timestep timesteps : Z) :
  (_current_rewards st = None -> learning_starts cfg <= timestep ->
   post_interaction c cfg st timestep timesteps = Raise AttributeError) /\
  exists st',
    record_transition c st states actions rewards next_states dones infos
      timestep timesteps = Ok st' /\
    _current_states st' = Some states /\
    _current_actions st' = Some actions /\
    _current_rewards st'
    = Some (match rewards_shaper c with
            | Some shaper => shaper rewards timestep timesteps
            | None => rewards
            end) /\
    _current_next_states st' = Some next_states /\
    _current_dones st' = Some dones /\
    q_table st' = q_table st.
Proof.
  split.
  - intros Hnone Ht. unfold post_interaction, _update.
    destruct (decide (timestep >= learning_starts cfg)); [|lia].
    by rewrite Hnone.
  - unfold record_transition. simpl.
    destruct (memory st); eexists; (split; [reflexivity|done]).
Qed.

Lemma sarsa_update_needs_transition_witness :
  let st := {| q_table := [[[0%Q]]]; memory := None : option unit;
               secondary_memories := [];
               _current_states := None; _current_actions := None;
               _current_rewards := None; _current_next_states := None;
               _current_dones := None; log := [] |} in
  post_interaction Samples.sarsa_collaborators Samples.sarsa_cfg st 12 100
  = Raise AttributeError.
Proof.
  intros st.
  destruct (sarsa_update_needs_transition Samples.sarsa_collaborators
              Samples.sarsa_cfg st [] [] [] [] [] tt 12 100) as [H _].
  apply H; [reflexivity|simpl; lia].
Defined.

(** X17. Over exact numbers: with a learning rate between 0 and 1 the
    new entry of a row lies between the old entry and the target
    [r + discount_factor * (1 - done) * q_next]; a learning rate of 1
    makes it the target and a learning rate of 0 leaves the entry. *)
Theorem updated_between (cfg : Config) (q r q_next : Q) (d : bool) :
  let target := (r + discount_factor cfg * (1 - Q_of_bool d) * q_next)%Q in
  ((0 <= learning_rate cfg)%Q -> (learning_rate cfg <= 1)%Q ->
   (Qmin q target <= updated cfg q r d q_next)%Q /\
   (updated cfg q r d q_next <= Qmax q target)%Q) /\
  (learning_rate cfg == 1 -> updated cfg q r d q_next == target) /\
  (learning_rate cfg == 0 -> updated cfg q r d q_next == q).
Proof.
  intros target.
  assert (Hrule : updated cfg q r d q_next
                  == q + learning_rate cfg * (target - q))
    by apply updated_rule.
  split; [|split].
  - intros H0 H1. rewrite Hrule. set (lr := learning_rate cfg) in *.
    clearbody lr target.
    destruct (Q.min_spec q target) as [[? ->]|[? ->]],
             (Q.max_spec q target) as [[? ->]|[? ->]]; split; nra.
  - intros H. rewrite Hrule, H. ring.
  - intros H. rewrite Hrule, H. ring.
Qed.

Lemma updated_between_witness :
  (2 <= updated Samples.sarsa_cfg 2 10 false 0)%Q /\
  (updated Samples.sarsa_cfg 2 10 false 0 <= 10)%Q.
Proof.
  pose proof (updated_between Samples.sarsa_cfg 2 10 0 false) as H.
  cbv zeta in H. destruct H as [H _].
  destruct H as [H1 H2]; [vm_compute; discriminate..|].
  split.
  - eapply Qle_trans; [|exact H1]. vm_compute. discriminate.
  - eapply Qle_trans; [exact H2|]. vm_compute. discriminate.
Defined.

(** X18. An index of the recorded transition that lies outside the
    Q-table makes the update raise [IndexError]: nothing is written. *)
Theorem sarsa_update_out_of_range {Memory : Type}
    (c : Collaborators Memory) (cfg : Config) (st : State Memory)
    (timestep timesteps : Z) (states actions next_states : list Z)
    (rewards : list Q) (dones : list bool) (e : nat) (s a : Z) :
  _current_states st = Some states ->
  _current_actions st = Some actions ->
  _current_rewards st = Some rewards ->
  _current_next_states st = Some next_states ->
  _current_dones st = Some dones ->
  (e < length rewards)%nat ->
  states !! e = Some s -> actions !! e = Some a ->
  ~ is_Ok (locate (q_table st) (Z.of_nat e, s, a)) ->
  _update c cfg st timestep timesteps = Raise IndexError /\
  (learning_starts cfg <= timestep ->
   post_interaction c cfg st timestep timesteps = Raise IndexError).
Proof.
  intros Hst Hac Hre Hns Hdo He Hs Ha Hloc.
  assert (H : _update c cfg st timestep timesteps = Raise IndexError).
  { unfold _update. rewrite Hst, Hac, Hre, Hns, Hdo. simpl.
    destruct (gather (q_table st) (range 0 (len rewards)) states actions)
      as [current|x] eqn:E; simpl.
    - destruct Hloc. eapply gather_located; [exact E| |exact Hs|exact Ha].
      apply range_lookup. unfold len. lia.
    - by rewrite (gather_raises _ _ _ _ _ E). }
  split; [done|]. intros Ht. unfold post_interaction.
  destruct (decide (timestep >= learning_starts cfg)); [|lia].
  by rewrite H.
Qed.

Lemma sarsa_update_out_of_range_witness :
  let st := {| q_table := q_table Samples.sarsa_state;
               memory := None : option unit; secondary_memories := [];
               _current_states := Some [0; 2];
               _current_actions := Some [1; 0];
               _current_rewards := Some [1%Q; 3%Q];
               _current_next_states := Some [1; 0];
               _current_dones := Some [false; true]; log := [] |} in
  _update Samples.sarsa_collaborators Samples.sarsa_cfg st 12 100
  = Raise IndexError.
Proof.
  intros st.
  refine (proj1 (sarsa_update_out_of_range Samples.sarsa_collaborators
                   Samples.sarsa_cfg st 12 100 [0; 2] [1; 0] [1; 0]
                   [1%Q; 3%Q] [false; true] 1 2 0
                   eq_refl eq_refl eq_refl eq_refl eq_refl _ eq_refl eq_refl
                   _)).
  - simpl. lia.
  - intros [pos H]. vm_compute in H. discriminate.
Defined.

End SARSAMore.

Module GaussianMore.
Import MultivariateGaussianMixin MixinViews GaussianFacts.

Section Mixin.
Context {Tensor Distribution : Type}.
Variable T : Torch Tensor Distribution.

Lemma for_role_insert {V} (d : gmap string V) (role : string) (v : V) :
  for_role (<[role := v]> d) role = Ok v.
Proof.
  rewrite for_role_registered by (rewrite lookup_insert_eq; by eexists).
  unfold subscript. by rewrite lookup_insert_eq.
Qed.

Lemma for_role_insert_ne {V} (d : gmap string V) (role role' : string) (v : V) :
  role' <> role -> role <> default_role ->
  for_role (<[role := v]> d) role' = for_role d role'.
Proof.
  intros Hne Hdef. unfold for_role.
  destruct (decide (role' ∈ dom (<[role := v]> d))) as [Hin|Hin],
           (decide (role' ∈ dom d)) as [Hin'|Hin'].
  - unfold subscript. by rewrite lookup_insert_ne.
  - destruct Hin'. apply elem_of_dom. apply elem_of_dom in Hin.
    by rewrite lookup_insert_ne in Hin.
  - destruct Hin. apply elem_of_dom. apply elem_of_dom in Hin'.
    by rewrite lookup_insert_ne.
  - unfold subscript. by rewrite lookup_insert_ne.
Qed.

(** What [act] returns and stores, whenever it returns. *)
Lemma act_stores (self self' : Mixin Tensor Distribution) states taken_actions
    role actions log_prob actions_mean :
  act T self states taken_actions role
  = Ok (self', (actions, log_prob, actions_mean)) ->
  exists log_std,
    let d := MultivariateNormal T actions_mean (covariance T log_std) in
    actions_mean = (compute T states taken_actions role).1 /\
    _mg_log_std self' = <[role := Some log_std]> (_mg_log_std self) /\
    _mg_num_samples self'
    = <[role := Some (shape0 T actions_mean)]> (_mg_num_samples self) /\
    _mg_distribution self' = <[role := Some d]> (_mg_distribution self) /\
    _mg_clip_actions self' = _mg_clip_actions self /\
    clip_actions_min self' = clip_actions_min self /\
    clip_actions_max self' = clip_actions_max self /\
    _backward_compatibility self' = _backward_compatibility self /\
    (for_role (_mg_clip_actions self) role = Ok false ->
     actions = rsample T d).
Proof.
  unfold act. intros H.
  destruct (compute T states taken_actions role) as [mean log_std0].
  inv_bind H. inv_bind H. cbn [_mg_clip_actions] in H. inv_bind H.
  inv_bind H. injection H as <- <- _ <-. exists u0. simpl.
  repeat split. intros Hclip. cbn [_mg_clip_actions] in E1.
  rewrite Hclip in E1. injection E1 as <-. by injection E2 as <-.
Qed.

End Mixin.

(** X19. After [act] has returned for a role, [distribution],
    [get_entropy] and [get_log_std] for this role answer from what this
    call stored (the distribution built from the mean actions it
    returned), whether or not the role was ever registered; for any
    other role they answer as before, when the role acted for is not
    the empty one. *)
Theorem act_then_getters {Tensor Distribution : Type}
    (T : Torch Tensor Distribution) (self self' : Mixin Tensor Distribution)
    (states : Tensor) (taken_actions : option Tensor) (role : string)
    (actions log_prob actions_mean : Tensor) :
  act T self states taken_actions role
  = Ok (self', (actions, log_prob, actions_mean)) ->
  (exists log_std,
     let d := MultivariateNormal T actions_mean (covariance T log_std) in
     distribution self' role = Ok (Some d) /\
     get_entropy T self' role = Ok (entropy T d) /\
     get_log_std T self' role
     = Ok (repeat T log_std (shape0 T actions_mean))) /\
  (role <> default_role ->
   forall role', role' <> role ->
     distribution self' role' = distribution self role' /\
     get_entropy T self' role' = get_entropy T self role' /\
     get_log_std T self' role' = get_log_std T self role').
Proof.
  intros H. apply act_stores in H
    as (log_std & _ & Hstd & Hnum & Hdist & _). cbv zeta in Hdist.
  split.
  - exists log_std. unfold distribution, get_entropy, get_log_std.
    by rewrite Hstd, Hnum, Hdist, !for_role_insert.
  - intros Hdef role' Hne. unfold distribution, get_entropy, get_log_std.
    by rewrite Hstd, Hnum, Hdist, !for_role_insert_ne.
Qed.

Lemma act_then_getters_witness :
  exists self' out,
    act Samples.torch Samples.gaussian 3%Q None "policy" = Ok (self', out) /\
    get_entropy Samples.torch self' "policy" = Ok 7%Q /\
    get_entropy Samples.torch self' default_role = Ok 0%Q.
Proof.
  assert (H : exists self' actions log_prob mean,
            act Samples.torch Samples.gaussian 3%Q None "policy"
            = Ok (self', (actions, log_prob, mean)))
    by (eexists _, _, _, _; vm_compute; reflexivity).
  destruct H as (self' & actions & log_prob & mean & H).
  exists self', (actions, log_prob, mean). split; [exact H|].
  destruct (act_then_getters _ _ _ _ _ _ _ _ _ H) as [(ls & _ & H1 & _) H2].
  split; [exact H1|].
  destruct (H2 ltac:(discriminate) default_role ltac:(discriminate))
    as (_ & -> & _).
  reflexivity.
Defined.

(** X20. On a model where some role has been registered but neither
    [role] nor the empty role, [act] and the three getters raise
    [KeyError] for the empty role.  Right after [__init__] and before
    any [act], [get_log_std] raises [AttributeError]. *)
Theorem unregistered_role_errors {Tensor Distribution : Type}
    (T : Torch Tensor Distribution) (self : Mixin Tensor Distribution)
    (states : Tensor) (taken_actions : option Tensor) (role : string) :
  (initialised self ->
   _mg_clip_log_std self !! role = None ->
   _mg_clip_log_std self !! default_role = None ->
   act T self states taken_actions role = Raise (KeyError default_role)) /\
  (initialised self ->
   _mg_distribution self !! role = None ->
   _mg_distribution self !! default_role = None ->
   distribution self role = Raise (KeyError default_role) /\
   get_entropy T self role = Raise (KeyError default_role)) /\
  (initialised self ->
   _mg_log_std self !! role = None ->
   _mg_log_std self !! default_role = None ->
   get_log_std T self role = Raise (KeyError default_role)) /\
  (forall clip_actions clip_log_std min_log_std max_log_std,
     get_log_std T (__init__ self clip_actions clip_log_std min_log_std
                             max_log_std role) role
     = Raise AttributeError).
Proof.
  split; [|split; [|split]].
  - intros _ H1 H2. unfold act.
    destruct (compute T states taken_actions role) as [mean log_std].
    rewrite (for_role_unregistered _ role H1). unfold subscript.
    by rewrite H2.
  - intros _ H1 H2. unfold get_entropy, distribution.
    rewrite (for_role_unregistered _ role H1). unfold subscript.
    by rewrite H2.
  - intros _ H1 H2. unfold get_log_std.
    rewrite (for_role_unregistered _ role H1). unfold subscript.
    by rewrite H2.
  - intros. unfold get_log_std, __init__. cbn [_mg_log_std].
    by rewrite for_role_insert.
Qed.

Lemma unregistered_role_errors_witness :
  let self := __init__ Samples.model false true (-20) 2 "policy" in
  act Samples.torch self 3%Q None "value" = Raise (KeyError default_role) /\
  get_log_std Samples.torch self "policy" = Raise AttributeError.
Proof.
  intros self.
  destruct (unregistered_role_errors Samples.torch self 3%Q None "value")
    as (H1 & _ & _ & _).
  split.
  - apply H1; [|reflexivity..]. unfold initialised, self. simpl.
    rewrite dom_insert_L. set_solver.
  - destruct (unregistered_role_errors Samples.torch Samples.model 3%Q None
                "policy") as (_ & _ & _ & H4).
    apply H4.
Defined.

(** X21. [__init__] and [act] keep the attributes of the clipping in
    step with the flags: on a model that only [__init__] and [act] have
    changed, starting without any role, the bounds and the version flag
    are set whenever the clipping is switched on for some role.  Once
    some [__init__] has run, the model stays initialised and [act] never
    raises [AttributeError]. *)
Theorem act_finds_clip_attributes {Tensor Distribution : Type}
    (T : Torch Tensor Distribution) (self : Mixin Tensor Distribution)
    (states : Tensor) (taken_actions : option Tensor) (role : string) :
  (_mg_clip_actions self = ∅ -> clip_ready self) /\
  (forall clip_actions clip_log_std min_log_std max_log_std,
     initialised (__init__ self clip_actions clip_log_std min_log_std
                           max_log_std role) /\
     (clip_ready self ->
      clip_ready (__init__ self clip_actions clip_log_std min_log_std
                           max_log_std role))) /\
  (forall self' out,
     act T self states taken_actions role = Ok (self', out) ->
     (initialised self -> initialised self') /\
     (clip_ready self -> clip_ready self')) /\
  (initialised self -> clip_ready self ->
   act T self states taken_actions role <> Raise AttributeError).
Proof.
  split; [|split; [|split]].
  - intros Hempty [r Hr]. by rewrite Hempty, lookup_empty in Hr.
  - intros clip_actions clip_log_std lo hi. split.
    { unfold initialised. simpl. rewrite dom_insert_L. set_solver. }
    intros Hready [r Hr]. simpl in *.
    destruct (clip_actions && action_space_is_gym_space self) eqn:Eclip;
      [by repeat split|].
    apply Hready. exists r. rewrite lookup_insert in Hr.
    destruct (decide (role = r)); [by injection Hr|done].
  - intros self' [[actions log_prob] mean] H.
    apply act_stores in H
      as (log_std & _ & _ & _ & _ & Hc & Hmin & Hmax & Hcompat & _).
    unfold initialised, clip_ready. by rewrite Hc, Hmin, Hmax, Hcompat.
  - intros _ Hready. unfold act.
    destruct (compute T states taken_actions role) as [mean log_std].
    assert (Hkey : forall V (d : gmap string V) r,
              for_role d r <> Raise AttributeError).
    { intros V d r. unfold for_role, subscript.
      destruct (decide _); by destruct (_ !! _). }
    destruct (for_role (_mg_clip_log_std self) role) as [flag|x] eqn:E1;
      [simpl|by intros [= ->]; eapply Hkey].
    assert (Hclamp : forall x,
              (if flag
               then lo ← for_role (_mg_log_std_min self) role;
                    hi ← for_role (_mg_log_std_max self) role;
                    Ok (clamp T log_std lo hi)
               else Ok log_std) = Raise x -> x <> AttributeError).
    { intros x. destruct flag; [|done].
      destruct (for_role (_mg_log_std_min self) role) eqn:E2; simpl;
        [|intros [= ->] ->; by eapply Hkey].
      destruct (for_role (_mg_log_std_max self) role) eqn:E3; simpl;
        [done|intros [= ->] ->; by eapply Hkey]. }
    destruct (if flag then _ else _) as [log_std'|x] eqn:E2;
      [simpl|intros [= ->]; by eapply Hclamp].
    cbn [_mg_clip_actions].
    destruct (for_role (_mg_clip_actions self) role) as [clip|x] eqn:E3;
      [simpl|by intros [= ->]; eapply Hkey].
    destruct clip; [|done].
    destruct Hready as (Hmin & Hmax & Hcompat).
    { unfold for_role, subscript in E3.
      destruct (decide _); destruct (_ !! _) eqn:E; simplify_eq; by eexists. }
    unfold clip_actions. simpl.
    destruct Hmin as [? ->], Hmax as [? ->], Hcompat as [[] ->]; done.
Qed.

Lemma act_finds_clip_attributes_witness :
  clip_ready (__init__ Samples.model true true (-20) 2 default_role) /\
  act Samples.torch (__init__ Samples.model true true (-20) 2 default_role)
      3%Q None "policy" <> Raise AttributeError.
Proof.
  destruct (act_finds_clip_attributes Samples.torch Samples.model 3%Q None
              default_role) as (Hempty & Hinit & _).
  destruct (Hinit true true (-20)%Q 2%Q) as [H1 H2].
  specialize (H2 (Hempty eq_refl)).
  split; [exact H2|].
  by apply (act_finds_clip_attributes Samples.torch).
Defined.

(** X22. On a model whose action space is not a [gym.Space] the
    clipping stays off whatever [clip_actions] asks for: [act] for the
    role of that [__init__] returns the sample of the distribution as it
    was drawn. *)
Theorem no_clipping_without_gym_space {Tensor Distribution : Type}
    (T : Torch Tensor Distribution) (self self' : Mixin Tensor Distribution)
    (clip_actions clip_log_std : bool) (min_log_std max_log_std : Q)
    (states : Tensor) (taken_actions : option Tensor) (role : string)
    (actions log_prob actions_mean : Tensor) :
  action_space_is_gym_space self = false ->
  act T (__init__ self clip_actions clip_log_std min_log_std max_log_std role)
      states taken_actions role
  = Ok (self', (actions, log_prob, actions_mean)) ->
  exists d, distribution self' role = Ok (Some d) /\ actions = rsample T d.
Proof.
  intros Hgym H. apply act_stores in H
    as (log_std & _ & _ & _ & Hdist & _ & _ & _ & _ & Hraw).
  cbv zeta in Hdist, Hraw. eexists. split.
  - unfold distribution. rewrite Hdist. apply for_role_insert.
  - apply Hraw. simpl. rewrite Hgym, andb_false_r. apply for_role_insert.
Qed.

Lemma no_clipping_without_gym_space_witness :
  let self :=
    {| action_space_is_gym_space := false;
       action_space_low := (-1)%Q; action_space_high := 1%Q;
       torch_before_1_9 := false;
       clip_actions_min := None; clip_actions_max := None;
       _backward_compatibility := None;
       _mg_clip_actions := ∅; _mg_clip_log_std := ∅;
       _mg_log_std_min := ∅; _mg_log_std_max := ∅;
       _mg_log_std := ∅; _mg_num_samples := ∅;
       _mg_distribution := ∅ |} : Mixin Q Q in
  exists self' actions log_prob mean d,
    act Samples.torch (__init__ self true true (-20) 2 default_role)
        3%Q None default_role = Ok (self', (actions, log_prob, mean)) /\
    distribution self' default_role = Ok (Some d) /\
    actions = rsample Samples.torch d.
Proof.
  intros self.
  assert (H : exists self' actions log_prob mean,
            act Samples.torch (__init__ self true true (-20) 2 default_role)
                3%Q None default_role = Ok (self', (actions, log_prob, mean)))
    by (eexists _, _, _, _; vm_compute; reflexivity).
  destruct H as (self' & actions & log_prob & mean & H).
  destruct (no_clipping_without_gym_space Samples.torch self self' true true
              (-20) 2 3%Q None default_role actions log_prob mean
              eq_refl H) as (d & Hd & Ha).
  by exists self', actions, log_prob, mean, d.
Defined.

End GaussianMore.

Module StoreMore.
Import AgentBase AgentViews Trainer LoopFacts.

Section Stores.
Context {Obs Params Memory Noise Info EnvState : Type}.
Variable c : DDPG.Collaborators (list Obs) Params Memory Noise.
Variable cfg : DDPG.Config.
Variable m : WrapperMethods Obs (list Q) Info EnvState.

Local Abbreviation state_t := (DDPG.State Params Memory Noise).
Local Abbreviation run_t := (Run Obs (list Q) Info EnvState state_t).

(** The memories are those of before, and [k] more calls of
    [add_samples] are in the log. *)
Local Abbreviation stores := (fun (k : nat) (st st' : state_t) =>
  (is_Some (DDPG.memory st) -> is_Some (DDPG.memory st')) /\
  length (DDPG.secondary_memories st') = length (DDPG.secondary_memories st) /\
  stored (DDPG.log st') = (stored (DDPG.log st) + k)%nat).

Lemma stored_app log es :
  stored (log ++ es) = (stored log + stored es)%nat.
Proof. unfold stored. by rewrite List.filter_app, length_app. Qed.

Lemma stored_replicate n : stored (replicate n memory_add_samples) = n.
Proof. induction n as [|n IH]; [done|]. unfold stored in *. simpl. by rewrite IH. Qed.

Lemma ddpg_act_stores st states timestep timesteps st' actions :
  DDPG.act c cfg st states timestep timesteps = Ok (st', actions) ->
  stores 0%nat st st'.
Proof.
  unfold DDPG.act. intros H.
  destruct (decide (timestep < DDPG.random_timesteps cfg));
    [injection H as <- _; repeat split; [done|lia]|].
  destruct (DDPG.exploration_noise st) as [noise|];
    [|injection H as <- _; repeat split; [done|lia]].
  destruct (DDPG.noise_sample c noise _) as [noise' noises].
  destruct (decide _).
  - inv_bind H. injection H as <- _. simpl. repeat split; [done|].
    rewrite stored_app. unfold stored. simpl. lia.
  - injection H as <- _. simpl. repeat split; [done|].
    rewrite stored_app. unfold stored. simpl. lia.
Qed.

Lemma ddpg_record_stores st states actions rewards next_states dones
    (infos : Info) timestep timesteps st' :
  is_Some (DDPG.memory st) ->
  DDPG.record_transition c st states actions rewards next_states dones infos
    timestep timesteps = Ok st' ->
  stores (S (length (DDPG.secondary_memories st))) st st'.
Proof.
  unfold DDPG.record_transition. intros [mem Hmem] H.
  cbn [DDPG.tell DDPG.memory] in H. rewrite Hmem in H.
  injection H as <-. split; [by eexists|].
  split; [simpl; by rewrite length_fmap|].
  cbn [DDPG.tell DDPG.log DDPG.secondary_memories].
  change (memory_add_samples :: replicate ?n memory_add_samples)
    with (replicate (S n) memory_add_samples).
  rewrite !stored_app, stored_replicate. unfold stored. simpl. lia.
Qed.

Lemma gradient_steps_loop_stores (batch : DDPG.Batch (list Obs)) steps v v' :
  DDPG.gradient_steps_loop c cfg batch v steps = Ok v' ->
  stores 0%nat (DDPG.vars_state v) (DDPG.vars_state v').
Proof.
  revert v. induction steps as [|g rest IH]; intros v H; simpl in H.
  - injection H as <-. repeat split; [done|lia].
  - inv_bind H. apply IH in H as (H1 & H2 & H3).
    unfold DDPG.gradient_step_body in E. inv_bind E. injection E as <-.
    simpl in *. split; [done|]. split; [done|]. rewrite H3.
    rewrite stored_app. unfold stored.
    destruct (DDPG.learning_rate_scheduler cfg); simpl; lia.
Qed.

Lemma ddpg_post_interaction_stores st timestep timesteps st' :
  DDPG.post_interaction c cfg st timestep timesteps = Ok st' ->
  stores 0%nat st st'.
Proof.
  unfold DDPG.post_interaction. intros H. inv_bind H. injection H as <-.
  simpl. destruct (decide _).
  - unfold DDPG._update in E. inv_bind E. inv_bind E. injection E as <-.
    apply gradient_steps_loop_stores in E1 as (H1 & H2 & H3). simpl in *.
    split; [done|]. split; [done|].
    rewrite stored_app, H3, stored_app. unfold stored. simpl. lia.
  - injection E as <-. repeat split; [done|].
    rewrite stored_app. unfold stored. simpl. lia.
Qed.

Lemma train_step_stores st headless timesteps (r r' : run_t) timestep :
  is_Some (DDPG.memory (run_agent r)) ->
  train_step m (Agents.ddpg_agent c cfg st) headless timesteps r timestep
  = Ok r' ->
  stores (S (length (DDPG.secondary_memories (run_agent r))))
         (run_agent r) (run_agent r').
Proof.
  intros Hmem H. apply train_step_calls in H
    as (a0 & a1 & actions & a2 & a3 & e' & calls & H0 & H1 & H2 & H3 & -> & _).
  match goal with |- context [reset_environments m e' a3 ?ns ?ds ?cs] =>
    destruct (reset_environments_spec m e' a3 ns ds cs)
      as (_ & _ & _ & -> & _) end.
  simpl in H0, H1, H2, H3. injection H0 as <-.
  apply ddpg_act_stores in H1 as (M1 & L1 & S1).
  apply ddpg_record_stores in H2 as (M2 & L2 & S2); [|by apply M1].
  apply ddpg_post_interaction_stores in H3 as (M3 & L3 & S3).
  split; [intros _; by apply M3, M2, M1|]. split; [congruence|].
  rewrite S3, S2, S1, L1. lia.
Qed.

Lemma for_each_stores st headless timesteps steps (r r' : run_t) :
  is_Some (DDPG.memory (run_agent r)) ->
  for_each (train_step m (Agents.ddpg_agent c cfg st) headless timesteps)
    r steps = Ok r' ->
  stores (length steps * S (length (DDPG.secondary_memories (run_agent r))))%nat
         (run_agent r) (run_agent r').
Proof.
  revert r. induction steps as [|t steps IH]; intros r Hmem H; simpl in H.
  - injection H as <-. repeat split; [done|simpl; lia].
  - inv_bind H. apply train_step_stores in E as (M1 & L1 & S1); [|done].
    apply IH in H as (M2 & L2 & S2); [|by apply M1].
    split; [intros _; by apply M2, M1|]. split; [congruence|].
    rewrite S2, S1, L1. simpl. lia.
Qed.

End Stores.



End StoreMore.
